(** * krest: the request executor, its retry engine and its middleware chain

    A shallow embedding of package [krest] (github.com/vingarcia/krest):
    [contracts.go] ([RequestData], [Response], [SetDefaultsIfNecessary],
    [DefaultRetryRule], [Middleware]) and the client
    ([makeRequestWithMiddlewares], [makeRequest] and the verbs).

    Go code that reads and writes the outside world is written in a state
    monad over an explicit [World]: the store of readers (a reader is
    consumed by whoever reads it), the calls of the transport, and the
    journal of the retry engine.  A Go panic is an outcome of its own, and
    it keeps the world it happened in.  What the package takes from
    elsewhere ([net/http], the multipart encoder, the network) is a record
    [Outside] the client is given.

    Layout: the definitions, then concrete outsides and requests for the
    checks on inputs, then the results. *)

From Stdlib Require Import ZArith String Ascii List Lia Bool DecimalString.
From Stdlib Require Import FunctionalExtensionality.
From Stdlib.Strings Require Import Byte.
From stdpp Require Import base option list gmap strings.

Local Open Scope Z_scope.

(** ** Go values *)

(** A Go [error], identified with the text [Error()] returns; [None] is
    the nil error. *)
Definition error : Type := string.

(** [time.Duration]: a number of nanoseconds. *)
Definition Duration : Type := Z.

Definition Millisecond : Duration := 1000000.
Definition Second : Duration := 1000 * Millisecond.

(** A Go [[]byte]. The nil slice is [None]; [Some nil] is an empty slice
    that is not nil. *)
Definition bytes : Type := option (list byte).

(** What a Go call can come to: it returns, or it panics. *)
Inductive Outcome (A : Type) : Type :=
| Returns (a : A)
| Panics (msg : string).
Arguments Returns {A} a.
Arguments Panics {A} msg.

Definition nilDereference : string :=
  "runtime error: invalid memory address or nil pointer dereference".

(** A reader ([io.Reader], [io.ReadCloser]) is a handle into the store of
    readers of the [World]. *)
Definition Handle : Type := nat.

(** ** net/http, as far as the client touches it *)
Module http.

(** [http.Header]: header key to the ordered list of its values. *)
Abbreviation Header := (gmap string (list string)).

(** [Header.Get]: the first value under the canonical form of the key,
    or the empty string; [canon] is [textproto.CanonicalMIMEHeaderKey]. *)
Definition Get (canon : string → string) (h : Header) (key : string)
  : string :=
  match h !! canon key with
  | Some (v :: _) => v
  | _ => ""
  end.

(** [*http.Response]: the fields the client reads. [Body] is the live
    stream of the connection. *)
Record Response : Type := {
  StatusCode : Z;
  Header_ : Header;
  Body : Handle
}.

(** [*http.Request] as built by [http.NewRequestWithContext]. *)
Record Request : Type := {
  Method : string;
  URL : string;
  ReqHeader : Header;
  ReqBody : option Handle
}.

(** [http.Client{Timeout, Transport: &http.Transport{TLSClientConfig}}];
    the TLS configuration is an opaque token. *)
Record Client : Type := {
  Timeout : Duration;
  TLSClientConfig : option nat
}.

Definition StatusLocked : Z := 423.
Definition StatusTooEarly : Z := 425.
Definition StatusTooManyRequests : Z := 429.

End http.

(** ** net/textproto *)
Module textproto.

Definition between (lo hi : N) (c : ascii) : bool :=
  ((lo <=? N_of_ascii c) && (N_of_ascii c <=? hi))%N.

(** [validHeaderFieldByte]: the bytes of a token, that is the letters,
    the digits and fifteen marks. *)
Definition validHeaderFieldByte (c : ascii) : bool :=
  between 97 122 c || between 65 90 c || between 48 57 c
  || existsb (N.eqb (N_of_ascii c))
       [33; 35; 36; 37; 38; 39; 42; 43; 45; 46; 94; 95; 96; 124; 126]%N.

(** The loop of [canonicalMIMEHeaderKey]: upper case for the first
    letter and for a letter after a dash, lower case for the others. *)
Fixpoint canonical (upper : bool) (s : string) : string :=
  match s with
  | EmptyString => EmptyString
  | String c rest =>
      let c :=
        if upper && between 97 122 c then ascii_of_N (N_of_ascii c - 32)
        else if negb upper && between 65 90 c then ascii_of_N (N_of_ascii c + 32)
        else c in
      String c (canonical (N.eqb (N_of_ascii c) 45) rest)
  end.

(** [CanonicalMIMEHeaderKey]: a key that holds a space or another byte
    that is not of a token is returned as it is. *)
Definition CanonicalMIMEHeaderKey (s : string) : string :=
  if forallb validHeaderFieldByte (list_ascii_of_string s)
  then canonical true s else s.

End textproto.

(** ** The world outside the client *)

(** What crosses the network in one call of the transport. *)
Module wire.

(** The request as the transport puts it on the wire: [body] is every
    byte it could read from the request's body reader. *)
Record Request : Type := {
  method : string;
  url : string;
  header : http.Header;
  body : list byte
}.

(** The transport fails ([Refused]), or the server answers: a status, a
    header, the payload, and the error (if any) that ends the payload
    early when it is read. *)
Inductive Reply : Type :=
| Refused (e : error)
| Answered (status : Z) (hdr : http.Header) (payload : list byte)
           (broken : option error).

(** One call of the transport; [stream] is the handle of the response
    body it opened. *)
Record Exchange : Type := {
  sent : Request;
  reply : Reply;
  stream : option Handle
}.

End wire.

(** A reader: the bytes still to be read, the error that follows them
    ([None]: end of stream), and whether [Close] was called. *)
Record ReaderState : Type := {
  pending : list byte;
  failure : option error;
  closed : bool
}.

(** What the retry engine did, in order. *)
Inductive RetryEvent : Type :=
| Attempt
| Sleep (d : Duration)
| Cancelled.

(** The store of readers, the calls of the transport so far, and the
    journal of the retry engine. *)
Record World : Type := {
  readers : gmap Handle ReaderState;
  exchanges : list wire.Exchange;
  journal : list RetryEvent
}.

Definition M (A : Type) : Type := World → Outcome A * World.

Definition ret {A : Type} (a : A) : M A := λ w, (Returns a, w).

Definition bind {A B : Type} (m : M A) (k : A → M B) : M B :=
  λ w, match m w with
       | (Returns a, w') => k a w'
       | (Panics msg, w') => (Panics msg, w')
       end.

Definition panic {A : Type} (msg : string) : M A := λ w, (Panics msg, w).

(** A pure call that may panic. *)
Definition call {A : Type} (o : Outcome A) : M A := λ w, (o, w).

Notation "'let*' p ':=' m 'in' k" :=
  (bind m (λ p, k))
  (at level 10, p pattern, m at level 100, k at level 200).

Definition setReader (h : Handle) (r : ReaderState) (w : World) : World :=
  {| readers := <[h := r]> (readers w);
     exchanges := exchanges w;
     journal := journal w |}.

(** [bytes.NewReader(b)]: a new reader, on a handle no reader has. *)
Definition NewReader (b : list byte) : M Handle :=
  λ w, let h := fresh (dom (readers w)) in
       (Returns h,
        setReader h {| pending := b; failure := None; closed := false |} w).

(** [io.ReadAll(h)]: every pending byte and the error that ended the
    read (nil at the end of the stream); the reader is left drained. The
    slice returned is never nil. *)
Definition ReadAll (h : Handle) : M (list byte * option error) :=
  λ w, match readers w !! h with
       | Some r =>
           (Returns (pending r, failure r),
            setReader h {| pending := []; failure := failure r;
                           closed := closed r |} w)
       | None => (Returns ([], None), w)
       end.

(** [h.Close()] *)
Definition Close (h : Handle) : M unit :=
  λ w, match readers w !! h with
       | Some r =>
           (Returns (),
            setReader h {| pending := pending r; failure := failure r;
                           closed := true |} w)
       | None => (Returns (), w)
       end.

Definition record (x : wire.Exchange) : M unit :=
  λ w, (Returns (),
        {| readers := readers w;
           exchanges := exchanges w ++ [x];
           journal := journal w |}).

Definition log (events : list RetryEvent) : M unit :=
  λ w, (Returns (),
        {| readers := readers w;
           exchanges := exchanges w;
           journal := journal w ++ events |}).

(** ** context *)
Module context.

(** A [context.Context], by what the retry engine asks of it: [Done n]
    tells whether the token is cancelled or expired before the [n]-th
    backoff sleep of a call (counted from 0) is over. *)
Record Context : Type := { Done : nat → bool }.

(** [context.Background()] is never cancelled. *)
Definition Background : Context := {| Done := λ _, false |}.

End context.

(** ** contracts.go *)

(** A value of any other dynamic type, by what the client observes of
    it: the type name [%T] prints, and what [json.Marshal] makes of it. *)
Record Dyn : Type := {
  dynType : string;
  dynJSON : error + list byte
}.

(** [json.Marshal]: on failure the slice is nil. *)
Definition json_Marshal (v : Dyn) : bytes * option error :=
  match dynJSON v with
  | inl e => (None, Some e)
  | inr b => (Some b, None)
  end.

(** [RequestData.Body] as the type switch of [makeRequest] tells its
    cases apart. *)
Inductive BodyValue : Type :=
| BodyNil
| BodyReader (r : Handle)
| BodyBytes (b : bytes)
| BodyString (s : string)
| BodyReaders (parts : list (string * Handle))
| BodyOther (v : Dyn).

(** A value of [RequestData.Headers] as the type switch on it tells its
    cases apart. *)
Inductive HeaderValue : Type :=
| HString (v : string)
| HStrings (v : list string)
| HOther (v : Dyn).

Definition RetryRuleFn : Type :=
  option http.Response → option error → Outcome bool.

Module RequestData.

(** [Headers] is a Go map: [None] is the nil map, and the list holds the
    entries in the order in which [range] visits them. [RetryRule] and
    [TLSConfig] are nil when [None]. *)
Record t : Type := {
  Body : BodyValue;
  Headers : option (list (string * HeaderValue));
  MaxRetries : Z;
  BaseRetryDelay : Duration;
  MaxRetryDelay : Duration;
  RetryRule : option RetryRuleFn;
  TLSConfig : option nat;
  FollowRedirects : bool;
  Stream : bool
}.

End RequestData.
Abbreviation RequestData := RequestData.t.

Module Response.

(** [ReadCloser] is the embedded [io.ReadCloser]. *)
Record t : Type := {
  ReadCloser : option Handle;
  Body : bytes;
  Header : option http.Header;
  StatusCode : Z
}.

(** [Response{}] *)
Definition zero : t :=
  {| ReadCloser := None; Body := None; Header := None; StatusCode := 0 |}.

End Response.
Abbreviation Response := Response.t.

(** [DefaultRetryRule] (contracts.go, lines 111-118).  [||] evaluates
    from left to right and stops at the first [true]: [resp.StatusCode] is
    read only when [err] is nil, and reading it through a nil [resp]
    panics.  A key that is absent from [retriableStatus] reads as
    [false]. *)
Definition retriableStatus : gmap Z bool :=
  <[http.StatusLocked := true]>
    (<[http.StatusTooEarly := true]>
       (<[http.StatusTooManyRequests := true]> ∅)).

Definition DefaultRetryRule
    (resp : option http.Response) (err : option error) : Outcome bool :=
  if bool_decide (err ≠ None) then Returns true
  else
    match resp with
    | None => Panics nilDereference
    | Some resp =>
        Returns (default false (retriableStatus !! http.StatusCode resp)
                 || (500 <=? http.StatusCode resp))
    end.

(** [SetDefaultsIfNecessary] (contracts.go, lines 80-96) *)
Definition SetDefaultsIfNecessary (r : RequestData) : RequestData :=
  {| RequestData.Body := RequestData.Body r;
     RequestData.Headers :=
       match RequestData.Headers r with
       | None => Some []
       | Some h => Some h
       end;
     RequestData.MaxRetries :=
       if RequestData.MaxRetries r =? 0 then 1 else RequestData.MaxRetries r;
     RequestData.BaseRetryDelay :=
       if RequestData.BaseRetryDelay r =? 0 then 300 * Millisecond
       else RequestData.BaseRetryDelay r;
     RequestData.MaxRetryDelay :=
       if RequestData.MaxRetryDelay r =? 0 then 32 * Second
       else RequestData.MaxRetryDelay r;
     RequestData.RetryRule :=
       match RequestData.RetryRule r with
       | None => Some DefaultRetryRule
       | Some rule => Some rule
       end;
     RequestData.TLSConfig := RequestData.TLSConfig r;
     RequestData.FollowRedirects := RequestData.FollowRedirects r;
     RequestData.Stream := RequestData.Stream r |}.

(** [NextMiddleware] and [Middleware] (contracts.go, lines 121-135) *)
Definition NextMiddleware : Type :=
  context.Context → string → string → RequestData → M (Response * option error).

Definition Middleware : Type :=
  context.Context → string → string → RequestData → NextMiddleware →
  M (Response * option error).

(** [Client] *)
Record Client : Type := {
  timeout : Duration;
  middlewares : list Middleware
}.

(** ** The retry engine *)

(** Modelled from the spec: [Retry], which [makeRequest] calls and whose
    source file is not among the sources.  Section 4.2 of the spec: it
    invokes [attempt] at least once; it stops when [attempt] answers
    [false], when the attempt count reaches [maxAttempts], or when
    [maxAttempts <= 1]; otherwise it sleeps [delay] (starting at
    [baseDelay], doubling per retry, capped at [maxDelay]) and retries; a
    token cancelled during the sleep stops the sequence and leaves the
    last attempt's result final.

    [remaining] counts the retries still allowed, [maxAttempts - 1] at the
    start and 0 when [maxAttempts <= 1]; [n] numbers the sleeps.  The
    variables the Go closure captures are passed through [attempt] as a
    value of type [F].  The engine answers with what it did, in order. *)
Fixpoint retryLoop {F : Type} (ctx : context.Context) (maxDelay : Duration)
    (attempt : F → M (bool * F)) (remaining n : nat) (delay : Duration)
    (vars : F) : M (F * list RetryEvent) :=
  let* (shouldRetry, vars) := attempt vars in
  match remaining with
  | O => ret (vars, [Attempt])
  | S remaining =>
      if negb shouldRetry then ret (vars, [Attempt])
      else if context.Done ctx n then ret (vars, [Attempt; Cancelled])
      else
        let* (vars, events) :=
          retryLoop ctx maxDelay attempt remaining (S n) (2 * delay) vars in
        ret (vars, Attempt :: Sleep (Z.min delay maxDelay) :: events)
  end.

Definition Retry {F : Type} (ctx : context.Context)
    (baseDelay maxDelay : Duration) (maxAttempts : Z)
    (attempt : F → M (bool * F)) (vars : F) : M (F * list RetryEvent) :=
  retryLoop ctx maxDelay attempt (Z.to_nat (maxAttempts - 1)) 0 baseDelay vars.

(** How many times the engine invoked [attempt], and the sleeps it took. *)
Definition attempts (events : list RetryEvent) : nat :=
  length (omap (λ e, match e with Attempt => Some () | _ => None end) events).

Definition sleeps (events : list RetryEvent) : list Duration :=
  omap (λ e, match e with Sleep d => Some d | _ => None end) events.

(** The journal of an engine that runs [n] attempts: before attempt
    [k + 2] it sleeps [min (baseDelay * 2^k) maxDelay]. *)
Definition backoffSchedule (baseDelay maxDelay : Duration) (n : nat)
  : list RetryEvent :=
  Attempt ::
  flat_map (λ k, [Sleep (Z.min (baseDelay * 2 ^ Z.of_nat k) maxDelay); Attempt])
           (seq 0 (n - 1)).

(** The captured variables and the world after [k] invocations of
    [attempt] in a row. *)
Fixpoint invoke {F : Type} (attempt : F → M (bool * F)) (k : nat)
    (vars : F) (w : World) : F * World :=
  match k with
  | O => (vars, w)
  | S k =>
      match attempt vars w with
      | (Returns (_, vars'), w') => invoke attempt k vars' w'
      | (Panics _, w') => (vars, w')
      end
  end.

(** ** fmt *)

(** [%d] of an [int]. *)
Definition itoa (z : Z) : string := NilEmpty.string_of_int (Z.to_int z).

(** [strings.Contains(s, substr)] *)
Fixpoint Contains (s substr : string) : bool :=
  String.prefix substr s
  || match s with
     | EmptyString => false
     | String _ s' => Contains s' substr
     end.

(** ** The client *)

(** What the client takes from outside the package.

    [newRequestError]: [http.NewRequestWithContext] refuses some methods
    and urls.  [CanonicalMIMEHeaderKey]: the function of [net/textproto]
    that [Header.Set] applies to the key.  [newMultipartStream]: the reader
    of the encoded form and its content type, or an error; it works on the
    store of readers, where it reads the parts and opens the reader of the
    form.  [network]: what lies behind [http.Client.Do], the reply to the
    [n]-th call of the transport, from the client's settings and what was
    sent. *)
Record Outside : Type := {
  newRequestError : string → string → option error;
  CanonicalMIMEHeaderKey : string → string;
  newMultipartStream :
    list (string * Handle) → gmap Handle ReaderState →
    (error + (Handle * string)) * gmap Handle ReaderState;
  network : http.Client → nat → wire.Request → wire.Reply
}.

Section Client.

Variable o : Outside.

Definition NewRequestWithContext (ctx : context.Context)
    (method url : string) (body : option Handle) : error + http.Request :=
  match newRequestError o method url with
  | Some e => inl e
  | None =>
      inr {| http.Method := method; http.URL := url;
             http.ReqHeader := ∅; http.ReqBody := body |}
  end.

(** [httpClient.Do(req)]: the transport reads the request body to its
    end and sends it; a reply opens the response body as a new live
    reader.  A body reader that fails makes the call fail. *)
Definition Do (httpClient : http.Client) (req : http.Request)
  : M (option http.Response * option error) :=
  let* (sentBytes, readErr) :=
    match http.ReqBody req with
    | Some h => ReadAll h
    | None => ret ([], None)
    end in
  let request :=
    {| wire.method := http.Method req; wire.url := http.URL req;
       wire.header := http.ReqHeader req; wire.body := sentBytes |} in
  match readErr with
  | Some e =>
      let* _ := record {| wire.sent := request; wire.reply := wire.Refused e;
                          wire.stream := None |} in
      ret (None, Some e)
  | None =>
      λ w,
        match network o httpClient (length (exchanges w)) request with
        | wire.Refused e =>
            (let* _ := record {| wire.sent := request;
                                 wire.reply := wire.Refused e;
                                 wire.stream := None |} in
             ret (None, Some e)) w
        | wire.Answered status hdr payload broken =>
            let h := fresh (dom (readers w)) in
            (let* _ := record {| wire.sent := request;
                                 wire.reply :=
                                   wire.Answered status hdr payload broken;
                                 wire.stream := Some h |} in
             ret (Some {| http.StatusCode := status; http.Header_ := hdr;
                          http.Body := h |}, None))
              (setReader h {| pending := payload; failure := broken;
                              closed := false |} w)
        end
  end.

(** [data.Headers[key] = value] on the entries in [range] order. *)
Fixpoint assign (key : string) (value : HeaderValue)
    (entries : list (string * HeaderValue)) : list (string * HeaderValue) :=
  match entries with
  | [] => [(key, value)]
  | (k, v) :: rest =>
      if bool_decide (k = key) then (key, value) :: rest
      else (k, v) :: assign key value rest
  end.

(** [fmt.Errorf] with the format of line 160. *)
Definition invalidHeader (k : string) (v : Dyn) : error :=
  "header of invalid type received for key '" +:+ k +:+ "': " +:+ dynType v.

(** The loop over [data.Headers] (lines 153-163): it stops at the first
    value that is neither a [string] nor a [[]string].  [entries] lists
    the map in the order the loop visits it; Go fixes no order, and may
    visit the map in another one on the next attempt.  With values of the
    valid types and no two entries that write to the same key the header
    is the same in every order ([rangeHeaders_any_order]). *)
Fixpoint rangeHeaders (entries : list (string * HeaderValue))
    (h : http.Header) : error + http.Header :=
  match entries with
  | [] => inr h
  | (k, value) :: rest =>
      match value with
      | HString v => rangeHeaders rest (<[CanonicalMIMEHeaderKey o k := [v]]> h)
      | HStrings v => rangeHeaders rest (<[k := v]> h)
      | HOther v =>
          inl (invalidHeader k v)
      end
  end.

(** The key of the request header an entry of [data.Headers] is written
    to ([Header.Set] canonicalizes the key, the assignment does not), and
    the values it is given. *)
Definition headerKey (entry : string * HeaderValue) : string :=
  match entry.2 with
  | HString _ => CanonicalMIMEHeaderKey o entry.1
  | _ => entry.1
  end.

Definition headerValues (value : HeaderValue) : list string :=
  match value with
  | HString v => [v]
  | HStrings v => v
  | HOther _ => []
  end.

(** The variables of [makeRequest] that the closure given to [Retry]
    reads and writes. *)
Record Captured : Type := {
  requestBody : option Handle;
  resp : option http.Response;
  err : option error
}.

(** The closure given to [Retry] (lines 142-167). *)
Definition makeRequest_attempt (ctx : context.Context) (method url : string)
    (data : RequestData) (httpClient : http.Client) (bytesPayload : bytes)
    (vars : Captured) : M (bool * Captured) :=
  let* requestBody :=
    match bytesPayload with
    | Some payload => let* r := NewReader payload in ret (Some r)
    | None => ret (requestBody vars)
    end in
  match NewRequestWithContext ctx method url requestBody with
  | inl e =>
      ret (true, {| requestBody := requestBody; resp := resp vars;
                    err := Some e |})
  | inr req =>
      match rangeHeaders (default [] (RequestData.Headers data))
                         (http.ReqHeader req) with
      | inl e =>
          ret (false, {| requestBody := requestBody; resp := resp vars;
                         err := Some e |})
      | inr h =>
          let req := {| http.Method := http.Method req;
                        http.URL := http.URL req;
                        http.ReqHeader := h;
                        http.ReqBody := http.ReqBody req |} in
          let* (resp, err) := Do httpClient req in
          match RequestData.RetryRule data with
          | None => panic nilDereference
          | Some rule =>
              let* again := call (rule resp err) in
              ret (again, {| requestBody := requestBody; resp := resp;
                             err := err |})
          end
      end
  end.

(** The type switch on [data.Body] (lines 101-132): an early return with
    an error, or [bytesPayload], [requestBody] and [data].  [data] is the
    callee's copy; that the map behind [Headers] is shared with the caller
    is left out. *)
Definition makeRequest_body (data : RequestData)
  : M (error + (bytes * option Handle * RequestData)) :=
  match RequestData.Body data with
  | BodyNil => ret (inr (None, None, data))
  | BodyReader body =>
      if 1 <? RequestData.MaxRetries data
      then ret (inl "can't retry a request whose body is an io.Reader")
      else ret (inr (None, Some body, data))
  | BodyBytes body => ret (inr (body, None, data))
  | BodyString body => ret (inr (Some (list_byte_of_string body), None, data))
  | BodyReaders body =>
      if 1 <? RequestData.MaxRetries data
      then ret (inl "can't retry a request whose body depends on io.Reader's")
      else
        let* built :=
          (λ w, let (built, store) := newMultipartStream o body (readers w) in
                (Returns built,
                 {| readers := store; exchanges := exchanges w;
                    journal := journal w |})) in
        match built with
        | inl e => ret (inl ("error building multipart data: " +:+ e))
        | inr (form, contentType) =>
            match RequestData.Headers data with
            | None => panic "assignment to entry in nil map"
            | Some entries =>
                ret (inr (None, Some form,
                  {| RequestData.Body := RequestData.Body data;
                     RequestData.Headers :=
                       Some (assign "Content-Type" (HString contentType) entries);
                     RequestData.MaxRetries := RequestData.MaxRetries data;
                     RequestData.BaseRetryDelay := RequestData.BaseRetryDelay data;
                     RequestData.MaxRetryDelay := RequestData.MaxRetryDelay data;
                     RequestData.RetryRule := RequestData.RetryRule data;
                     RequestData.TLSConfig := RequestData.TLSConfig data;
                     RequestData.FollowRedirects := RequestData.FollowRedirects data;
                     RequestData.Stream := RequestData.Stream data |}))
            end
        end
  | BodyOther body =>
      match json_Marshal body with
      | (_, Some e) => ret (inl e)
      | (bytesPayload, None) => ret (inr (bytesPayload, None, data))
      end
  end.

Definition isStatusSuccess (code : Z) : bool := (200 <=? code) && (code <? 300).

(** [fmt.Errorf] with the format of lines 183-186. *)
Definition unexpectedStatus (method url : string) (status : Z)
    (payload : list byte) : error :=
  method +:+ " " +:+ url +:+ ": unexpected status code: " +:+ itoa status
  +:+ ", payload: " +:+ string_of_list_byte payload.

(** What follows the call of [Retry] (lines 168-194). *)
Definition makeRequest_result (method url : string) (data : RequestData)
    (vars : Captured) : M (Response * option error) :=
  match err vars with
  | Some e => ret (Response.zero, Some e)
  | None =>
      match resp vars with
      | None => panic nilDereference
      | Some resp =>
          let success := isStatusSuccess (http.StatusCode resp) in
          let* (body, bodyReader, err) :=
            if negb (RequestData.Stream data) || negb success then
              let* (body, err) := ReadAll (http.Body resp) in
              let* _ := Close (http.Body resp) in
              let* bodyReader := NewReader body in
              ret (Some body, bodyReader, err)
            else ret (None, http.Body resp, None) in
          let err :=
            if bool_decide (err = None) && negb success then
              Some (unexpectedStatus method url (http.StatusCode resp)
                      (default [] body))
            else err in
          ret ({| Response.ReadCloser := Some bodyReader;
                  Response.Body := body;
                  Response.Header := Some (http.Header_ resp);
                  Response.StatusCode := http.StatusCode resp |}, err)
      end
  end.

(** [makeRequest] (lines 93-195).  [log], which keeps in the journal of
    the world what the retry engine did, is the one line with no
    counterpart in the source. *)
Definition makeRequest (c : Client) (ctx : context.Context)
    (method url : string) (data : RequestData) : M (Response * option error) :=
  let data := SetDefaultsIfNecessary data in
  let* prepared := makeRequest_body data in
  match prepared with
  | inl e => ret (Response.zero, Some e)
  | inr (bytesPayload, requestBody, data) =>
      let httpClient :=
        {| http.Timeout := timeout c;
           http.TLSClientConfig := RequestData.TLSConfig data |} in
      let* (vars, events) :=
        Retry ctx (RequestData.BaseRetryDelay data)
          (RequestData.MaxRetryDelay data) (RequestData.MaxRetries data)
          (makeRequest_attempt ctx method url data httpClient bytesPayload)
          {| requestBody := requestBody; resp := None; err := None |} in
      let* _ := log events in
      makeRequest_result method url data vars
  end.

(** The loop of [makeRequestWithMiddlewares] (lines 72-88), from [i]
    down to 0: [middlewareChain] is the chain built so far. *)
Fixpoint chainFrom (c : Client) (i : nat) (middlewareChain : NextMiddleware)
  : NextMiddleware :=
  match i with
  | O => middlewareChain
  | S i =>
      let nextMiddleware := middlewareChain in
      chainFrom c i
        (λ ctx method url data,
           match middlewares c !! i with
           | Some middleware => middleware ctx method url data nextMiddleware
           | None => panic "index out of range"
           end)
  end.

(** [makeRequestWithMiddlewares] (lines 65-91) *)
Definition makeRequestWithMiddlewares (c : Client) (ctx : context.Context)
    (method url : string) (data : RequestData) : M (Response * option error) :=
  let middlewareChain := chainFrom c (length (middlewares c)) (makeRequest c) in
  middlewareChain ctx method url data.

Definition Get (c : Client) (ctx : context.Context) (url : string)
    (data : RequestData) : M (Response * option error) :=
  makeRequestWithMiddlewares c ctx "GET" url data.

Definition Post (c : Client) (ctx : context.Context) (url : string)
    (data : RequestData) : M (Response * option error) :=
  makeRequestWithMiddlewares c ctx "POST" url data.

Definition Put (c : Client) (ctx : context.Context) (url : string)
    (data : RequestData) : M (Response * option error) :=
  makeRequestWithMiddlewares c ctx "PUT" url data.

Definition Patch (c : Client) (ctx : context.Context) (url : string)
    (data : RequestData) : M (Response * option error) :=
  makeRequestWithMiddlewares c ctx "PATCH" url data.

Definition Delete (c : Client) (ctx : context.Context) (url : string)
    (data : RequestData) : M (Response * option error) :=
  makeRequestWithMiddlewares c ctx "DELETE" url data.

(** The nesting the chain stands for: the first middleware wraps a
    continuation that invokes the second, and so on down to [terminal]. *)
Fixpoint nest (ms : list Middleware) (terminal : NextMiddleware)
  : NextMiddleware :=
  match ms with
  | [] => terminal
  | m :: rest => λ ctx method url data, m ctx method url data (nest rest terminal)
  end.

(** A middleware that never calls [next]: what it does is the same
    whatever continuation it is given. *)
Definition ignoresNext (m : Middleware) : Prop :=
  ∀ ctx method url data next next' w,
    m ctx method url data next w = m ctx method url data next' w.

End Client.

(** What the captured [resp] and [err] are after a call of the transport
    recorded as [x], in the world [w] the call leaves: the error of a
    failed call, or the response whose body is the live stream [x] names,
    unread and open. *)
Definition settled (resp : option http.Response) (err : option error)
    (x : wire.Exchange) (w : World) : Prop :=
  match wire.reply x with
  | wire.Refused e => resp = None ∧ err = Some e
  | wire.Answered status hdr payload broken =>
      ∃ h, wire.stream x = Some h
           ∧ resp = Some {| http.StatusCode := status; http.Header_ := hdr;
                            http.Body := h |}
           ∧ err = None
           ∧ readers w !! h = Some {| pending := payload; failure := broken;
                                      closed := false |}
  end.

(** The bytes a request body is rebuilt from on every attempt, for the
    bodies that are not single-use streams: a [[]byte], a [string], or a
    value [json.Marshal] accepts. *)
Definition canonicalPayload (body : BodyValue) : option (list byte) :=
  match body with
  | BodyBytes b => Some (default [] b)
  | BodyString s => Some (list_byte_of_string s)
  | BodyOther v =>
      match dynJSON v with
      | inr b => Some b
      | inl _ => None
      end
  | _ => None
  end.

(** The bytes the transport is to read on each attempt, when the captured
    variables determine them: the payload, or nothing when there is no
    payload and no reader. *)
Definition expected (bytesPayload : bytes) (requestBody : option Handle)
  : option (list byte) :=
  match bytesPayload, requestBody with
  | Some payload, _ => Some payload
  | None, None => Some []
  | None, Some _ => None
  end.

(** What [makeRequest] sends: the method, the url, the headers built
    from [data.Headers], and the canonical payload when there is one. *)
Definition carries (method url : string) (h : http.Header)
    (payload : option (list byte)) (x : wire.Exchange) : Prop :=
  wire.method (wire.sent x) = method
  ∧ wire.url (wire.sent x) = url
  ∧ wire.header (wire.sent x) = h
  ∧ ∀ p, payload = Some p → wire.body (wire.sent x) = p.

(** A retry rule that answers whenever the response or the error is not
    nil, as they are after a call of the transport. *)
Definition answers (rule : RetryRuleFn) : Prop :=
  ∀ resp err, resp ≠ None ∨ err ≠ None → ∃ b : bool, rule resp err = Returns b.

Definition ruleAnswers (data : RequestData) : Prop :=
  ∀ rule, RequestData.RetryRule data = Some rule → answers rule.

(** ** Concrete outsides and requests, for checks on inputs *)

(** [strconv.Quote] of a text with nothing to escape. *)
Definition quote (s : string) : string :=
  String (ascii_of_nat 34) (s +:+ String (ascii_of_nat 34) EmptyString).

(** A server that answers from a script: the [n]-th call of the
    transport gets the [n]-th reply, and calls beyond the script are
    refused.  The only url that cannot be parsed is a lone colon. *)
Definition scripted (script : list wire.Reply) : Outside :=
  {| newRequestError :=
       λ _ url, if bool_decide (url = ":")
                then Some ("parse " +:+ quote url +:+ ": missing protocol scheme")
                else None;
     CanonicalMIMEHeaderKey := textproto.CanonicalMIMEHeaderKey;
     newMultipartStream := λ _ store, (inl "no parts", store);
     network := λ _ n _,
       default (wire.Refused "connection refused") (script !! n) |}.

(** A server that answers every call with [status] and sends back the
    body of the request. *)
Definition echo (status : Z) : Outside :=
  {| newRequestError := λ _ _, None;
     CanonicalMIMEHeaderKey := textproto.CanonicalMIMEHeaderKey;
     newMultipartStream := λ _ store, (inl "no parts", store);
     network := λ _ _ request,
       wire.Answered status ∅ (wire.body request) None |}.

Definition emptyWorld : World :=
  {| readers := ∅; exchanges := []; journal := [] |}.

Definition plainClient : Client :=
  {| timeout := 1 * Second; middlewares := [] |}.

(** [RequestData{Body: body, Headers: headers, MaxRetries: maxRetries,
    Stream: stream}] *)
Definition request (body : BodyValue)
    (headers : option (list (string * HeaderValue))) (maxRetries : Z)
    (stream : bool) : RequestData :=
  {| RequestData.Body := body;
     RequestData.Headers := headers;
     RequestData.MaxRetries := maxRetries;
     RequestData.BaseRetryDelay := 0;
     RequestData.MaxRetryDelay := 0;
     RequestData.RetryRule := None;
     RequestData.TLSConfig := None;
     RequestData.FollowRedirects := false;
     RequestData.Stream := stream |}.

Definition hello : list byte := list_byte_of_string "Hello, client".

(** The request of the test "should rebuild the payload correctly when
    retrying": a server that answers 502, then 200. *)
Definition flaky : Outside :=
  scripted [wire.Answered 502 ∅ hello None; wire.Answered 200 ∅ hello None].

Definition badRequest : Outside := scripted [wire.Answered 400 ∅ hello None].

Definition cookies : http.Header := {[ "Set-Cookie" := ["a=1"; "b=2"] ]}.

Definition twoCookies : Outside := scripted [wire.Answered 200 cookies hello None].

(** A header value of type [[]interface {}], as in the test "should
    report errors when invalid header values are passed". *)
Definition notAHeaderValue : Dyn :=
  {| dynType := "[]interface {}";
     dynJSON := inr (list_byte_of_string "[1]") |}.

Definition fakeHeaders : option (list (string * HeaderValue)) :=
  Some [("fakeHeaderKey", HOther notAHeaderValue)].

Definition theLast (w : World) : wire.Exchange :=
  default {| wire.sent := {| wire.method := ""; wire.url := "";
                             wire.header := ∅; wire.body := [] |};
             wire.reply := wire.Refused ""; wire.stream := None |}
          (last (exchanges w)).

(** The middlewares of the tests of [makeRequestWithMiddlewares]: one
    that marks the request on the way in and the response on the way out,
    and one that aborts the request. *)
Definition marking (name : string) : Middleware :=
  λ ctx method url data next,
    let data :=
      {| RequestData.Body :=
           match RequestData.Body data with
           | BodyString s => BodyString (s +:+ "," +:+ name)
           | body => body
           end;
         RequestData.Headers := RequestData.Headers data;
         RequestData.MaxRetries := RequestData.MaxRetries data;
         RequestData.BaseRetryDelay := RequestData.BaseRetryDelay data;
         RequestData.MaxRetryDelay := RequestData.MaxRetryDelay data;
         RequestData.RetryRule := RequestData.RetryRule data;
         RequestData.TLSConfig := RequestData.TLSConfig data;
         RequestData.FollowRedirects := RequestData.FollowRedirects data;
         RequestData.Stream := RequestData.Stream data |} in
    let* (resp, err) := next ctx method url data in
    ret ({| Response.ReadCloser := Response.ReadCloser resp;
            Response.Body :=
              Some (default [] (Response.Body resp)
                    ++ list_byte_of_string ("+" +:+ name));
            Response.Header := Response.Header resp;
            Response.StatusCode := Response.StatusCode resp |}, err).

Definition aborting : Middleware :=
  λ ctx method url data next, ret (Response.zero, Some "abortingRequest").

(** A callback that counts its invocations and always asks for a retry. *)
Definition counting (n : nat) : M (bool * nat) := ret (true, S n).

(** The loop over [resp.Header] of the older [makeRequest] that
    [contracts.go] still holds (lines 293-299), where [Response.Header] was
    a [map[string]string]: the first value of every key that has one. *)
Definition firstValues (h : http.Header) : gmap string string := omap head h.

(** An outside whose [newMultipartStream] succeeds: it opens the reader
    of the encoded form (here the bytes of the parts one after the other)
    and answers with a content type. *)
Definition uploads : Outside :=
  {| newRequestError := λ _ _, None;
     CanonicalMIMEHeaderKey := textproto.CanonicalMIMEHeaderKey;
     newMultipartStream := λ parts store,
       let form := fresh (dom store) in
       (inr (form, "multipart/form-data; boundary=b"),
        <[form := {| pending :=
                       flat_map (λ part, match store !! part.2 with
                                         | Some r => pending r
                                         | None => []
                                         end) parts;
                     failure := None; closed := false |}]> store);
     network := λ _ _ _, wire.Answered 200 ∅ [] None |}.

(** A world where the reader 7 holds the bytes of [hello]. *)
Definition oneReader : World :=
  {| readers := {[ 7%nat := {| pending := hello; failure := None;
                               closed := false |} ]};
     exchanges := []; journal := [] |}.

(** A value [json.Marshal] refuses. *)
Definition aChannel : Dyn :=
  {| dynType := "chan int"; dynJSON := inl "json: unsupported type: chan int" |}.

(** ** The rest of the client, and the aggregate of errors *)

(** [New] (lines 23-28) *)
Definition New (timeout : Duration) (middlewares : list Middleware) : Client :=
  Build_Client timeout middlewares.

(** [AddMiddleware] (lines 31-33), on a pointer receiver: the client as
    the call leaves it. *)
Definition AddMiddleware (c : Client) (ms : list Middleware) : Client :=
  {| timeout := timeout c; middlewares := middlewares c ++ ms |}.

(** An error value as [AppendErr] tells them apart: a [multierr] (a
    [[]error]), or any other error, taken by its text. *)
#[warnings="-register-all"]
Inductive ErrorValue : Type :=
| plain (text : string)
| multierr (m : list ErrorValue).

(** [fmt.Sprint] of a slice: the elements between brackets, a space
    between two of them. *)
Fixpoint Sprint (texts : list string) : string :=
  match texts with
  | [] => ""
  | [t] => t
  | t :: rest => t +:+ " " +:+ Sprint rest
  end.

(** [multierr.Error] (krest_test.go, lines 418-420), and [Error] of the
    other errors. *)
Fixpoint Error (e : ErrorValue) : string :=
  match e with
  | plain text => text
  | multierr m => "[" +:+ Sprint (map Error m) +:+ "]"
  end.

(** [AppendErr] (krest_test.go, lines 422-436); [None] is the nil
    error. *)
Definition AppendErr (oldErr newErr : option ErrorValue) : option ErrorValue :=
  match oldErr, newErr with
  | None, _ => newErr
  | _, None => oldErr
  | Some (multierr mErr), Some newErr => Some (multierr (mErr ++ [newErr]))
  | Some oldErr, Some newErr => Some (multierr [oldErr; newErr])
  end.

(** The errors an error stands for: the elements of a [multierr], or the
    error itself. *)
Definition members (e : ErrorValue) : list ErrorValue :=
  match e with
  | multierr m => m
  | e => [e]
  end.

(** A server that cannot be reached, and one whose answer breaks off
    after the bytes of [hello]. *)
Definition offline : Outside := scripted [].

Definition truncated : Outside :=
  scripted [wire.Answered 200 ∅ hello (Some "unexpected EOF")].

(** [data] with [FollowRedirects] set to [b]. *)
Definition withFollowRedirects (b : bool) (data : RequestData) : RequestData :=
  {| RequestData.Body := RequestData.Body data;
     RequestData.Headers := RequestData.Headers data;
     RequestData.MaxRetries := RequestData.MaxRetries data;
     RequestData.BaseRetryDelay := RequestData.BaseRetryDelay data;
     RequestData.MaxRetryDelay := RequestData.MaxRetryDelay data;
     RequestData.RetryRule := RequestData.RetryRule data;
     RequestData.TLSConfig := RequestData.TLSConfig data;
     RequestData.FollowRedirects := b;
     RequestData.Stream := RequestData.Stream data |}.

(** A rule that asks for a retry whatever happened, and a request that
    has it. *)
Definition insist : RetryRuleFn := λ _ _, Returns true.

Definition insisting (body : BodyValue) (maxRetries : Z) : RequestData :=
  {| RequestData.Body := body;
     RequestData.Headers := None;
     RequestData.MaxRetries := maxRetries;
     RequestData.BaseRetryDelay := 0;
     RequestData.MaxRetryDelay := 0;
     RequestData.RetryRule := Some insist;
     RequestData.TLSConfig := None;
     RequestData.FollowRedirects := false;
     RequestData.Stream := false |}.

(** Headers of both valid types, neither key in its canonical form. *)
Definition someHeaders : option (list (string * HeaderValue)) :=
  Some [("accept", HString "text/plain"); ("x-tags", HStrings ["a"; "b"])].

(** * Results *)

Section Results.

Variable o : Outside.

(** ** The monad *)

Lemma bind_ret {A B : Type} (a : A) (k : A → M B) (w : World) :
  bind (ret a) k w = k a w.
Proof. reflexivity. Qed.

Lemma bind_returns {A B : Type} (m : M A) (k : A → M B) (w w' : World) (a : A) :
  m w = (Returns a, w') → bind m k w = k a w'.
Proof. unfold bind. by intros ->. Qed.

Lemma bind_panics {A B : Type} (m : M A) (k : A → M B) (w w' : World) msg :
  m w = (Panics msg, w') → bind m k w = (Panics msg, w').
Proof. unfold bind. by intros ->. Qed.
(** ** Results about [DefaultRetryRule] *)

Lemma retriableStatus_lookup (code : Z) :
  default false (retriableStatus !! code) = true ↔
  code = 423 ∨ code = 425 ∨ code = 429.
Proof.
  unfold retriableStatus, http.StatusLocked, http.StatusTooEarly,
    http.StatusTooManyRequests.
  destruct (decide (code = 423)) as [->|H1];
    [rewrite lookup_insert_eq; split; auto|].
  rewrite lookup_insert_ne by done.
  destruct (decide (code = 425)) as [->|H2];
    [rewrite lookup_insert_eq; split; auto|].
  rewrite lookup_insert_ne by done.
  destruct (decide (code = 429)) as [->|H3];
    [rewrite lookup_insert_eq; split; auto|].
  rewrite lookup_insert_ne by done.
  rewrite lookup_empty. cbn. split; [discriminate|tauto].
Qed.

(** C9. For a response [resp] and an error [err], [DefaultRetryRule]
    returns [true] exactly when [err] is not nil, or the status code of
    [resp] is 423, 425 or 429, or it is at least 500; on every other such
    input it returns [false].  With a nil response and an error that is not
    nil it returns [true] as well. *)
Theorem DefaultRetryRule_spec :
  (∀ (resp : http.Response) (err : option error),
      ∃ b : bool,
        DefaultRetryRule (Some resp) err = Returns b ∧
        (b = true ↔
           err ≠ None
           ∨ http.StatusCode resp = 423
           ∨ http.StatusCode resp = 425
           ∨ http.StatusCode resp = 429
           ∨ 500 ≤ http.StatusCode resp))
  ∧ (∀ e : error, DefaultRetryRule None (Some e) = Returns true).
Proof.
  split.
  - intros resp err. unfold DefaultRetryRule.
    case_bool_decide as Herr.
    + exists true. split; [done|]. split; [by left|done].
    + eexists. split; [reflexivity|].
      rewrite orb_true_iff, retriableStatus_lookup, Z.leb_le.
      tauto.
  - intros e. unfold DefaultRetryRule. by rewrite bool_decide_eq_true_2.
Qed.

(** C10. [DefaultRetryRule] panics on a nil dereference exactly when both
    [resp] and [err] are nil: whenever one of them is not nil the call
    returns a value and the nil read is never reached. *)
Theorem DefaultRetryRule_domain (resp : option http.Response) (err : option error) :
  (DefaultRetryRule resp err = Panics nilDereference ↔ resp = None ∧ err = None)
  ∧ (resp ≠ None ∨ err ≠ None → ∃ b : bool, DefaultRetryRule resp err = Returns b)
  ∧ (err = None → ∀ r, resp = Some r →
       DefaultRetryRule resp err =
       Returns (default false (retriableStatus !! http.StatusCode r)
                || (500 <=? http.StatusCode r))).
Proof.
  unfold DefaultRetryRule.
  destruct err as [e|], resp as [r|]; cbn;
    split_and!; try split; intros; simplify_eq; eauto;
    try (by intuition congruence).
Qed.

(** ** The retry engine *)

Lemma backoffSchedule_shift (delay maxDelay : Duration) (r : nat) :
  flat_map (λ k, [Sleep (Z.min (delay * 2 ^ Z.of_nat k) maxDelay); Attempt])
           (seq 1 r)
  = flat_map (λ k, [Sleep (Z.min (2 * delay * 2 ^ Z.of_nat k) maxDelay); Attempt])
             (seq 0 r).
Proof.
  rewrite <- (fmap_S_seq 0 r). unfold fmap, list_fmap.
  induction (seq 0 r) as [|k ks IH]; simpl; [done|].
  rewrite IH. do 3 f_equal.
  replace (Z.of_nat (S k)) with (Z.succ (Z.of_nat k)) by lia.
  rewrite Z.pow_succ_r by lia. lia.
Qed.

Lemma attempts_backoffSchedule (baseDelay maxDelay : Duration) (n : nat) :
  attempts (backoffSchedule baseDelay maxDelay n) = S (n - 1).
Proof.
  unfold backoffSchedule, attempts. simpl. f_equal.
  transitivity (length (seq 0 (n - 1))); [|apply length_seq].
  induction (seq 0 (n - 1)) as [|k ks IH]; simpl; [done|]. by rewrite IH.
Qed.

Lemma sleeps_backoffSchedule (baseDelay maxDelay : Duration) (n : nat) :
  sleeps (backoffSchedule baseDelay maxDelay n)
  = (λ k, Z.min (baseDelay * 2 ^ Z.of_nat k) maxDelay) <$> seq 0 (n - 1).
Proof.
  unfold backoffSchedule, sleeps. simpl.
  induction (seq 0 (n - 1)) as [|k ks IH]; simpl; [done|]. by rewrite IH.
Qed.

(** An engine whose callback always asks for a retry and whose token is
    never cancelled runs every attempt it is allowed. *)
Lemma retryLoop_always {F : Type} (ctx : context.Context) (maxDelay : Duration)
    (attempt : F → M (bool * F)) :
  (∀ n, context.Done ctx n = false) →
  (∀ vars w, ∃ vars' w', attempt vars w = (Returns (true, vars'), w')) →
  ∀ remaining n delay vars w,
    retryLoop ctx maxDelay attempt remaining n delay vars w
    = (Returns ((invoke attempt (S remaining) vars w).1,
                backoffSchedule delay maxDelay (S remaining)),
       (invoke attempt (S remaining) vars w).2).
Proof.
  intros Hlive Hyes remaining.
  induction remaining as [|r IH]; intros n delay vars w.
  - destruct (Hyes vars w) as (v1 & w1 & H1). simpl.
    rewrite (bind_returns _ _ _ _ _ H1), H1. reflexivity.
  - destruct (Hyes vars w) as (v1 & w1 & H1).
    cbn [retryLoop]. rewrite (bind_returns _ _ _ _ _ H1).
    cbn [negb]. rewrite Hlive.
    rewrite (bind_returns _ _ _ _ _ (IH (S n) (2 * delay) v1 w1)).
    cbn [invoke] in *. rewrite H1. unfold ret. do 2 f_equal.
    unfold backoffSchedule.
    replace (S (S r) - 1)%nat with (S r) by lia.
    replace (S r - 1)%nat with r by lia.
    cbn [seq flat_map app]. rewrite backoffSchedule_shift.
    change (Z.of_nat 0) with 0. by rewrite Z.pow_0_r, Z.mul_1_r.
Qed.

(** Whatever the callback answers, the engine invokes it between once
    and [max 1 maxAttempts] times, and first of all. *)
Lemma retryLoop_bounds {F : Type} (ctx : context.Context) (maxDelay : Duration)
    (attempt : F → M (bool * F)) (remaining : nat) :
  ∀ n delay vars w vars' events w',
    retryLoop ctx maxDelay attempt remaining n delay vars w
    = (Returns (vars', events), w') →
    head events = Some Attempt ∧ (1 ≤ attempts events ≤ S remaining)%nat.
Proof.
  induction remaining as [|r IH]; intros n delay vars w vars' events w';
    cbn [retryLoop]; unfold bind at 1;
    destruct (attempt vars w) as [[[again v1]|msg] w1]; try done.
  - unfold ret. intros [= <- <- <-]. unfold attempts. simpl. split; [done|lia].
  - destruct again; cbn [negb].
    + destruct (context.Done ctx n).
      * unfold ret. intros [= <- <- <-]. unfold attempts. simpl. split; [done|lia].
      * unfold bind.
        destruct (retryLoop ctx maxDelay attempt r (S n) (2 * delay) v1 w1)
          as [[[v2 ev2]|msg] w2] eqn:Hrec; try done.
        unfold ret. intros [= <- <- <-].
        destruct (IH _ _ _ _ _ _ _ Hrec) as [_ Hb].
        change (attempts (Attempt :: Sleep (Z.min delay maxDelay) :: ev2))
          with (S (attempts ev2)).
        split; [done|lia].
    + unfold ret. intros [= <- <- <-]. unfold attempts. simpl. split; [done|lia].
Qed.

(** C5. The retry engine invokes [attempt] first of all and, when it
    returns, has invoked it at least once and at most [max 1 maxAttempts]
    times.  With [maxAttempts <= 1] (so also [maxAttempts <= 0]) it
    invokes it exactly once whatever the callback answers.  With a
    callback that always asks for a retry, under a token that is not
    cancelled, it invokes it exactly [max 1 maxAttempts] times, and the
    sleep before attempt [k], for every [k > 1], is
    [min (baseDelay * 2^(k-2)) maxDelay]. *)
Theorem Retry_attempts_and_backoff {F : Type} (ctx : context.Context)
    (baseDelay maxDelay : Duration) (maxAttempts : Z)
    (attempt : F → M (bool * F)) (vars : F) (w : World) :
  (∀ msg w1, attempt vars w = (Panics msg, w1) →
     Retry ctx baseDelay maxDelay maxAttempts attempt vars w = (Panics msg, w1))
  ∧ (∀ vars' events w',
       Retry ctx baseDelay maxDelay maxAttempts attempt vars w
       = (Returns (vars', events), w') →
       head events = Some Attempt ∧
       (1 ≤ attempts events ≤ Z.to_nat (Z.max 1 maxAttempts))%nat)
  ∧ (maxAttempts ≤ 1 → ∀ again vars1 w1,
       attempt vars w = (Returns (again, vars1), w1) →
       Retry ctx baseDelay maxDelay maxAttempts attempt vars w
       = (Returns (vars1, [Attempt]), w1))
  ∧ ((∀ n, context.Done ctx n = false) →
     (∀ vars w, ∃ vars' w', attempt vars w = (Returns (true, vars'), w')) →
     ∃ vars' events w',
       Retry ctx baseDelay maxDelay maxAttempts attempt vars w
       = (Returns (vars', events), w')
       ∧ attempts events = Z.to_nat (Z.max 1 maxAttempts)
       ∧ (vars', w') = invoke attempt (Z.to_nat (Z.max 1 maxAttempts)) vars w
       ∧ events = backoffSchedule baseDelay maxDelay (Z.to_nat (Z.max 1 maxAttempts))
       ∧ length (sleeps events) = (attempts events - 1)%nat
       ∧ ∀ k : Z, 1 < k ≤ Z.max 1 maxAttempts →
           sleeps events !! Z.to_nat (k - 2)
           = Some (Z.min (baseDelay * 2 ^ (k - 2)) maxDelay)).
Proof.
  unfold Retry. repeat split.
  - intros msg w1 H. destruct (Z.to_nat (maxAttempts - 1)); cbn [retryLoop];
      by rewrite (bind_panics _ _ _ _ _ H).
  - eapply retryLoop_bounds; eauto.
  - pose proof (retryLoop_bounds _ _ _ _ _ _ _ _ _ _ _ H) as [_ Hb]. lia.
  - pose proof (retryLoop_bounds _ _ _ _ _ _ _ _ _ _ _ H) as [_ Hb]. lia.
  - intros Hle again vars1 w1 H.
    replace (Z.to_nat (maxAttempts - 1)) with O by lia.
    cbn [retryLoop]. by rewrite (bind_returns _ _ _ _ _ H).
  - intros Hlive Hyes.
    rewrite (retryLoop_always ctx maxDelay attempt Hlive Hyes).
    replace (S (Z.to_nat (maxAttempts - 1)))
      with (Z.to_nat (Z.max 1 maxAttempts)) by lia.
    eexists _, _, _. split; [reflexivity|].
    rewrite attempts_backoffSchedule, sleeps_backoffSchedule.
    repeat split.
    + lia.
    + by destruct (invoke _ _ _ _).
    + rewrite length_fmap, length_seq. lia.
    + intros k Hk. rewrite list_lookup_fmap, lookup_seq_lt by lia.
      cbn [fmap option_fmap option_map].
      by replace (Z.of_nat (0 + Z.to_nat (k - 2))) with (k - 2) by lia.
Qed.

(** ** The middleware chain *)

Lemma nest_app (pre post : list Middleware) (terminal : NextMiddleware) :
  nest (pre ++ post) terminal = nest pre (nest post terminal).
Proof.
  induction pre as [|m pre IH]; [done|].
  cbn [app nest]. by rewrite IH.
Qed.

(** After the iterations for the indices below [i], the loop has wrapped
    the chain it started from in the first [i] middlewares. *)
Lemma chainFrom_nest (c : Client) (i : nat) :
  (i ≤ length (middlewares c))%nat →
  ∀ middlewareChain,
    chainFrom c i middlewareChain = nest (take i (middlewares c)) middlewareChain.
Proof.
  induction i as [|i IH]; intros Hi middlewareChain.
  - by rewrite take_0.
  - cbn [chainFrom].
    destruct (middlewares c !! i) as [m|] eqn:Hm.
    + rewrite IH by lia.
      by rewrite (take_S_r (A:=Middleware) _ _ _ Hm), nest_app.
    + apply (lookup_ge_None (A:=Middleware)) in Hm. lia.
Qed.

(** A middleware that never calls [next] cuts the chain: nothing behind
    it has a part in the outcome. *)
Lemma nest_short_circuit (pre post post' : list Middleware) (m : Middleware)
    (terminal terminal' : NextMiddleware) :
  ignoresNext m →
  nest (pre ++ m :: post) terminal = nest (pre ++ m :: post') terminal'.
Proof.
  intros Hm. rewrite !nest_app. f_equal. cbn [nest].
  do 5 (apply functional_extensionality; intros ?). apply Hm.
Qed.

(** C2. For every ordered list of middlewares, the chain
    [makeRequestWithMiddlewares] builds is the nested composition: the
    first middleware wraps a continuation that invokes the second, and so
    on down to [makeRequest].  If a middleware returns without calling
    [next], whatever stands behind it (the later middlewares and
    [makeRequest]) has no part in the outcome: it can be replaced by
    anything, even by a terminal that panics when it is invoked. *)
Theorem makeRequestWithMiddlewares_nest (c : Client) :
  makeRequestWithMiddlewares o c = nest (middlewares c) (makeRequest o c)
  ∧ (∀ m0 rest ctx method url data,
       middlewares c = m0 :: rest →
       makeRequestWithMiddlewares o c ctx method url data
       = m0 ctx method url data (nest rest (makeRequest o c)))
  ∧ (∀ pre m post,
       middlewares c = pre ++ m :: post →
       ignoresNext m →
       ∀ post' terminal',
         makeRequestWithMiddlewares o c = nest (pre ++ m :: post') terminal').
Proof.
  assert (makeRequestWithMiddlewares o c = nest (middlewares c) (makeRequest o c))
    as Hnest.
  { unfold makeRequestWithMiddlewares.
    rewrite chainFrom_nest by done. by rewrite firstn_all. }
  repeat split.
  - exact Hnest.
  - intros m0 rest ctx method url data Hms. by rewrite Hnest, Hms.
  - intros pre m post Hms Hm post' terminal'.
    rewrite Hnest, Hms. by apply nest_short_circuit.
Qed.

(** ** [makeRequest]: requests that cannot be retried *)

(** C6. With [MaxRetries > 1] and a body that is an [io.Reader] or a
    [map[string]io.Reader], [makeRequest] returns at once the zero
    [Response] and a configuration error, and leaves the world as it was:
    the transport is not invoked and the retry engine makes no attempt. *)
Theorem makeRequest_single_use_body (c : Client) (ctx : context.Context)
    (method url : string) (data : RequestData) (w : World) :
  1 < RequestData.MaxRetries data →
  (∃ r, RequestData.Body data = BodyReader r)
  ∨ (∃ parts, RequestData.Body data = BodyReaders parts) →
  ∃ e : error,
    makeRequest o c ctx method url data w = (Returns (Response.zero, Some e), w)
    ∧ ((∃ r, RequestData.Body data = BodyReader r) →
         e = "can't retry a request whose body is an io.Reader")
    ∧ ((∃ parts, RequestData.Body data = BodyReaders parts) →
         e = "can't retry a request whose body depends on io.Reader's").
Proof.
  intros Hretries Hbody.
  assert ((1 <? RequestData.MaxRetries (SetDefaultsIfNecessary data)) = true)
    as Hgt.
  { cbn. destruct (RequestData.MaxRetries data =? 0) eqn:E; lia. }
  unfold makeRequest, makeRequest_body.
  destruct Hbody as [[r Hr]|[parts Hp]].
  - eexists.
    cbn [SetDefaultsIfNecessary RequestData.Body] in *. rewrite Hr, Hgt.
    split; [done|]. split; [done|]. intros [? ?]; congruence.
  - eexists.
    cbn [SetDefaultsIfNecessary RequestData.Body] in *. rewrite Hp, Hgt.
    split; [done|]. split; [|done]. intros [? ?]; congruence.
Qed.

(** ** One call of the transport *)

Lemma Do_spec (httpClient : http.Client) (req : http.Request) (w : World) :
  ∃ resp err x w',
    Do o httpClient req w = (Returns (resp, err), w')
    ∧ exchanges w' = exchanges w ++ [x]
    ∧ journal w' = journal w
    ∧ wire.method (wire.sent x) = http.Method req
    ∧ wire.url (wire.sent x) = http.URL req
    ∧ wire.header (wire.sent x) = http.ReqHeader req
    ∧ wire.body (wire.sent x)
      = match http.ReqBody req with
        | Some h => match readers w !! h with
                    | Some r => pending r
                    | None => []
                    end
        | None => []
        end
    ∧ settled resp err x w'.
Proof.
  unfold Do.
  set (sentBytes := match http.ReqBody req with
                    | Some h => match readers w !! h with
                                | Some r => pending r
                                | None => []
                                end
                    | None => []
                    end).
  assert (∃ readErr w0,
             (match http.ReqBody req with
              | Some h => ReadAll h
              | None => ret ([], None)
              end) w = (Returns (sentBytes, readErr), w0)
             ∧ exchanges w0 = exchanges w ∧ journal w0 = journal w)
    as (readErr & w0 & Hread & Hx0 & Hj0).
  { subst sentBytes. destruct (http.ReqBody req) as [h|].
    - unfold ReadAll. destruct (readers w !! h) as [r|]; eauto. 
    - eexists _, _. split; [reflexivity|]. done. }
  rewrite (bind_returns _ _ _ _ _ Hread).
  destruct readErr as [e|].
  - eexists None, (Some e), _, _. split; [reflexivity|].
    cbn. rewrite Hx0, Hj0. repeat split; done.
  - destruct (network o httpClient (length (exchanges w0)) _) as [e|status hdr payload broken] eqn:Hnet.
    + eexists None, (Some e), _, _. split; [reflexivity|].
      cbn. rewrite Hx0, Hj0. repeat split; done.
    + eexists (Some _), None, _, _. split; [reflexivity|].
      cbn. rewrite Hx0, Hj0. repeat split; try done.
      unfold settled. cbn. eexists. repeat split.
      apply lookup_insert_eq.
Qed.

(** ** One attempt of [makeRequest] *)

Lemma rebuild_spec (bytesPayload : bytes) (vars : Captured) (w : World) :
  ∃ rb w0,
    (match bytesPayload with
     | Some payload => let* r := NewReader payload in ret (Some r)
     | None => ret (requestBody vars)
     end) w = (Returns rb, w0)
    ∧ exchanges w0 = exchanges w
    ∧ journal w0 = journal w
    ∧ expected bytesPayload rb = expected bytesPayload (requestBody vars)
    ∧ (∀ p, expected bytesPayload (requestBody vars) = Some p →
         match rb with
         | Some h => match readers w0 !! h with
                     | Some r => pending r
                     | None => []
                     end
         | None => []
         end = p).
Proof.
  destruct bytesPayload as [payload|].
  - eexists _, _. split; [reflexivity|]. cbn. repeat split.
    intros p [= <-]. by rewrite lookup_insert_eq.
  - eexists _, _. split; [reflexivity|]. repeat split.
    destruct (requestBody vars); cbn; congruence.
Qed.

Section Attempt.

Variables (ctx : context.Context) (method url : string) (data : RequestData).
Variables (httpClient : http.Client) (bytesPayload : bytes).

(** A request that cannot be built: the attempt asks for a retry and
    leaves the transport alone. *)
Lemma attempt_no_request (e : error) (vars : Captured) (w : World) :
  newRequestError o method url = Some e →
  ∃ vars' w',
    makeRequest_attempt o ctx method url data httpClient bytesPayload vars w
    = (Returns (true, vars'), w')
    ∧ err vars' = Some e
    ∧ exchanges w' = exchanges w ∧ journal w' = journal w.
Proof.
  intros He. unfold makeRequest_attempt.
  destruct (rebuild_spec bytesPayload vars w) as (rb & w0 & Hrb & Hx & Hj & _).
  rewrite (bind_returns _ _ _ _ _ Hrb).
  unfold NewRequestWithContext. rewrite He.
  eexists _, _. split; [reflexivity|]. done.
Qed.

(** A header value of a wrong type: the attempt asks for no retry and
    leaves the transport alone. *)
Lemma attempt_invalid_header (e : error) (vars : Captured) (w : World) :
  newRequestError o method url = None →
  rangeHeaders o (default [] (RequestData.Headers data)) ∅ = inl e →
  ∃ vars' w',
    makeRequest_attempt o ctx method url data httpClient bytesPayload vars w
    = (Returns (false, vars'), w')
    ∧ err vars' = Some e
    ∧ exchanges w' = exchanges w ∧ journal w' = journal w.
Proof.
  intros Hreq Hhdr. unfold makeRequest_attempt.
  destruct (rebuild_spec bytesPayload vars w) as (rb & w0 & Hrb & Hx & Hj & _).
  rewrite (bind_returns _ _ _ _ _ Hrb).
  unfold NewRequestWithContext. rewrite Hreq. cbn [http.ReqHeader].
  rewrite Hhdr.
  eexists _, _. split; [reflexivity|]. done.
Qed.

(** Otherwise the attempt calls the transport once, with the method, the
    url, the headers and the body of the request. *)
Lemma attempt_sends (h : http.Header) (vars : Captured) (w : World) :
  newRequestError o method url = None →
  rangeHeaders o (default [] (RequestData.Headers data)) ∅ = inr h →
  ∃ out x w',
    makeRequest_attempt o ctx method url data httpClient bytesPayload vars w
    = (out, w')
    ∧ exchanges w' = exchanges w ++ [x]
    ∧ journal w' = journal w
    ∧ wire.method (wire.sent x) = method
    ∧ wire.url (wire.sent x) = url
    ∧ wire.header (wire.sent x) = h
    ∧ (∀ p, expected bytesPayload (requestBody vars) = Some p →
         wire.body (wire.sent x) = p)
    ∧ (∀ again vars', out = Returns (again, vars') →
         settled (resp vars') (err vars') x w'
         ∧ expected bytesPayload (requestBody vars')
           = expected bytesPayload (requestBody vars))
    ∧ (∀ rule, RequestData.RetryRule data = Some rule → answers rule →
         ∃ again vars', out = Returns (again, vars')).
Proof.
  intros Hreq Hhdr. unfold makeRequest_attempt.
  destruct (rebuild_spec bytesPayload vars w)
    as (rb & w0 & Hrb & Hx & Hj & Hexp & Hbody).
  rewrite (bind_returns _ _ _ _ _ Hrb).
  unfold NewRequestWithContext. rewrite Hreq. cbn [http.ReqHeader].
  rewrite Hhdr. cbn [http.Method http.URL http.ReqBody].
  match goal with |- context [Do o httpClient ?r] =>
    destruct (Do_spec httpClient r w0)
      as (resp' & err' & x & w1 & HDo & Hx1 & Hj1 & Hm & Hu & Hh & Hb & Hs)
  end.
  cbn [http.Method http.URL http.ReqBody http.ReqHeader] in *.
  rewrite (bind_returns _ _ _ _ _ HDo).
  destruct (RequestData.RetryRule data) as [rule|] eqn:Hrule.
  - unfold call, bind, ret.
    destruct (rule resp' err') as [again|msg] eqn:Hanswer.
    + eexists _, x, w1. split; [reflexivity|].
      rewrite Hx1, Hj1, Hx, Hj. split_and!; try done.
      * intros p Hp. rewrite Hb. by apply Hbody.
      * by intros ? ? [= <- <-].
      * eauto.
    + eexists _, x, w1. split; [reflexivity|].
      rewrite Hx1, Hj1, Hx, Hj. split_and!; try done.
      * intros p Hp. rewrite Hb. by apply Hbody.
      * intros rule' [= <-] Hrule'.
        destruct (Hrule' resp' err') as [b Hb']; [|congruence].
        unfold settled in Hs. destruct (wire.reply x).
        -- right. destruct Hs as [_ ->]. done.
        -- left. destruct Hs as (? & _ & -> & _). done.
  - eexists _, x, w1. split; [reflexivity|].
    rewrite Hx1, Hj1, Hx, Hj. split_and!; try done.
    intros p Hp. rewrite Hb. by apply Hbody.
Qed.

End Attempt.

(** ** The retry engine around attempts that leave or call the transport *)

Section RetryRuns.

Context {F : Type}.
Variables (ctx : context.Context) (maxDelay : Duration).
Variable attempt : F → M (bool * F).

(** Attempts that never touch the transport nor the journal and end in a
    state [Q]: so does the engine. *)
Lemma retryLoop_quiet (Q : F → Prop) :
  (∀ vars w, ∃ again vars' w',
      attempt vars w = (Returns (again, vars'), w')
      ∧ Q vars' ∧ exchanges w' = exchanges w ∧ journal w' = journal w) →
  ∀ remaining n delay vars w,
  ∃ vars' events w',
    retryLoop ctx maxDelay attempt remaining n delay vars w
    = (Returns (vars', events), w')
    ∧ Q vars' ∧ exchanges w' = exchanges w ∧ journal w' = journal w.
Proof.
  intros Hstep remaining.
  induction remaining as [|r IH]; intros n delay vars w;
    destruct (Hstep vars w) as (again & v1 & w1 & H1 & HQ & Hx & Hj);
    cbn [retryLoop]; rewrite (bind_returns _ _ _ _ _ H1).
  - eexists _, _, _. split; [reflexivity|]. done.
  - destruct again; cbn [negb].
    + destruct (context.Done ctx n).
      * eexists _, _, _. split; [reflexivity|]. done.
      * destruct (IH (S n) (2 * delay) v1 w1)
          as (v2 & ev2 & w2 & H2 & HQ2 & Hx2 & Hj2).
        rewrite (bind_returns _ _ _ _ _ H2).
        eexists _, _, _. split; [reflexivity|].
        rewrite Hx2, Hj2. done.
    + eexists _, _, _. split; [reflexivity|]. done.
Qed.

(** An attempt that asks for no retry is the only one. *)
Lemma retryLoop_stops (remaining n : nat) (delay : Duration) (vars vars' : F)
    (w w' : World) :
  attempt vars w = (Returns (false, vars'), w') →
  retryLoop ctx maxDelay attempt remaining n delay vars w
  = (Returns (vars', [Attempt]), w').
Proof.
  intros H. destruct remaining; cbn [retryLoop];
    by rewrite (bind_returns _ _ _ _ _ H).
Qed.

(** Attempts that each call the transport once, with a request [P]
    holds of, and leave the captured variables as [S] tells: the engine
    calls the transport at least once and at most once per attempt it is
    allowed, [P] holds of every call, and [S] of the last one. *)
Lemma retryLoop_sends (inv : F → Prop) (P : wire.Exchange → Prop)
    (S : F → wire.Exchange → World → Prop) (total : Prop) :
  (∀ vars w, inv vars →
     ∃ out x w',
       attempt vars w = (out, w')
       ∧ exchanges w' = exchanges w ++ [x]
       ∧ journal w' = journal w
       ∧ P x
       ∧ (∀ again vars', out = Returns (again, vars') → S vars' x w' ∧ inv vars')
       ∧ (total → ∃ again vars', out = Returns (again, vars'))) →
  ∀ remaining n delay vars w, inv vars →
  ∃ out xs x w',
    retryLoop ctx maxDelay attempt remaining n delay vars w = (out, w')
    ∧ exchanges w' = exchanges w ++ xs ++ [x]
    ∧ journal w' = journal w
    ∧ Forall P (xs ++ [x])
    ∧ (length xs ≤ remaining)%nat
    ∧ (∀ vars' events, out = Returns (vars', events) → S vars' x w')
    ∧ (total → ∃ vars' events, out = Returns (vars', events)).
Proof.
  intros Hstep remaining.
  induction remaining as [|r IH]; intros n delay vars w Hinv;
    destruct (Hstep vars w Hinv)
      as (out1 & x1 & w1 & H1 & Hx & Hj & HP & HS & Htotal);
    cbn [retryLoop]; unfold bind at 1; rewrite H1;
    destruct out1 as [[again v1]|msg].
  - exists (Returns (v1, [Attempt])), [], x1, w1.
    split_and!; try done.
    + by apply Forall_singleton.
    + intros ? ? [= <- <-]. by apply (HS again).
    + eauto.
  - exists (Panics msg), [], x1, w1. split_and!; try done.
    + by apply Forall_singleton.
    + intros Ht. destruct (Htotal Ht) as (? & ? & ?). done.
  - destruct (HS again v1 eq_refl) as [HS1 Hinv1].
    destruct again; cbn [negb].
    + destruct (context.Done ctx n).
      * exists (Returns (v1, [Attempt; Cancelled])), [], x1, w1.
        split_and!; try done.
        -- by apply Forall_singleton.
        -- cbn. lia.
        -- by intros ? ? [= <- <-].
        -- eauto.
      * destruct (IH (Datatypes.S n) (2 * delay) v1 w1 Hinv1)
          as (out2 & xs2 & x2 & w2 & H2 & Hx2 & Hj2 & HP2 & Hlen & HS2 & Ht2).
        unfold bind. rewrite H2.
        destruct out2 as [[v2 ev2]|msg].
        -- eexists _, (x1 :: xs2), x2, w2. split; [reflexivity|].
           split_and!.
           ++ rewrite Hx2, Hx. by rewrite <- app_assoc.
           ++ congruence.
           ++ by apply Forall_cons.
           ++ cbn. lia.
           ++ intros ? ? [= <- <-]. by eapply HS2.
           ++ eauto.
        -- eexists _, (x1 :: xs2), x2, w2. split; [reflexivity|].
           split_and!; try done.
           ++ rewrite Hx2, Hx. by rewrite <- app_assoc.
           ++ congruence.
           ++ by apply Forall_cons.
           ++ cbn. lia.
    + exists (Returns (v1, [Attempt])), [], x1, w1.
      split_and!; try done.
      * by apply Forall_singleton.
      * cbn. lia.
      * by intros ? ? [= <- <-].
      * eauto.
  - exists (Panics msg), [], x1, w1. split_and!; try done.
    + by apply Forall_singleton.
    + cbn. lia.
    + intros Ht. destruct (Htotal Ht) as (? & ? & ?). done.
Qed.

End RetryRuns.

(** ** [makeRequest], phase by phase *)

Lemma DefaultRetryRule_answers : answers DefaultRetryRule.
Proof.
  intros resp err H. unfold DefaultRetryRule.
  case_bool_decide; [eauto|]. destruct resp; [eauto|].
  destruct H as [H|H]; [done|contradiction].
Qed.

Lemma defaults_rule (data : RequestData) :
  ∃ rule, RequestData.RetryRule (SetDefaultsIfNecessary data) = Some rule
          ∧ (ruleAnswers data → answers rule).
Proof.
  cbn. destruct (RequestData.RetryRule data) as [rule|] eqn:E.
  - exists rule. split; [done|]. intros H. by apply H.
  - exists DefaultRetryRule. split; [done|]. intros _. apply DefaultRetryRule_answers.
Qed.

(** The type switch on the body calls neither the transport nor the
    retry engine, and changes nothing of the request but its headers. *)
Lemma makeRequest_body_spec (data : RequestData) (w : World) :
  RequestData.Headers data ≠ None →
  ∃ prepared w1,
    makeRequest_body o data w = (Returns prepared, w1)
    ∧ exchanges w1 = exchanges w
    ∧ journal w1 = journal w
    ∧ match prepared with
      | inl _ => True
      | inr (_, _, data') =>
          RequestData.RetryRule data' = RequestData.RetryRule data
          ∧ RequestData.Stream data' = RequestData.Stream data
          ∧ RequestData.MaxRetries data' = RequestData.MaxRetries data
      end.
Proof.
  intros Hh. unfold makeRequest_body.
  destruct (RequestData.Body data) as [|r|b|s|parts|v].
  - eexists _, _. split; [reflexivity|]. done.
  - destruct (1 <? _); eexists _, _; (split; [reflexivity|]); done.
  - eexists _, _. split; [reflexivity|]. done.
  - eexists _, _. split; [reflexivity|]. done.
  - destruct (1 <? _); [eexists _, _; (split; [reflexivity|]); done|].
    unfold bind.
    destruct (newMultipartStream o parts (readers w)) as [[e|[form ct]] store].
    + eexists _, _. split; [reflexivity|]. done.
    + destruct (RequestData.Headers data) as [entries|]; [|done].
      eexists _, _. split; [reflexivity|]. done.
  - unfold json_Marshal. destruct (dynJSON v);
      eexists _, _; (split; [reflexivity|]); done.
Qed.

(** A body that is rebuilt on every attempt: the switch yields its
    canonical payload and no reader. *)
Lemma makeRequest_body_regenerable (data : RequestData) (p : list byte)
    (w : World) :
  canonicalPayload (RequestData.Body data) = Some p →
  ∃ bytesPayload,
    makeRequest_body o data w = (Returns (inr (bytesPayload, None, data)), w)
    ∧ expected bytesPayload None = Some p.
Proof.
  unfold makeRequest_body, canonicalPayload, json_Marshal.
  destruct (RequestData.Body data) as [|r|b|s|parts|v]; try done.
  - intros [= <-]. exists b. split; [done|]. by destruct b.
  - intros [= <-]. by eexists.
  - destruct (dynJSON v) as [e|b]; [done|]. intros [= <-]. by eexists.
Qed.

(** What follows [Retry] calls neither the transport nor the engine. *)
Lemma makeRequest_result_frame (method url : string) (data : RequestData)
    (vars : Captured) (w : World) :
  exchanges (makeRequest_result method url data vars w).2 = exchanges w
  ∧ journal (makeRequest_result method url data vars w).2 = journal w.
Proof.
  unfold makeRequest_result.
  destruct (err vars); [done|]. destruct (resp vars) as [r|]; [|done].
  destruct (negb (RequestData.Stream data)
            || negb (isStatusSuccess (http.StatusCode r))); [|done].
  unfold bind, ReadAll, Close.
  destruct (readers w !! http.Body r) as [st|] eqn:E; cbn.
  - rewrite lookup_insert_eq. done.
  - rewrite E. done.
Qed.

Lemma settled_readers (resp : option http.Response) (err : option error)
    (x : wire.Exchange) (w w' : World) :
  readers w' = readers w → settled resp err x w → settled resp err x w'.
Proof. unfold settled. by intros ->. Qed.

Lemma settled_defined (resp : option http.Response) (err : option error)
    (x : wire.Exchange) (w : World) :
  settled resp err x w → resp ≠ None ∨ err ≠ None.
Proof.
  unfold settled. destruct (wire.reply x).
  - intros [_ ->]. by right.
  - intros (? & _ & -> & _). by left.
Qed.

Lemma makeRequest_result_refused (method url : string) (data : RequestData)
    (vars : Captured) (x : wire.Exchange) (w : World) (e : error) :
  settled (resp vars) (err vars) x w →
  wire.reply x = wire.Refused e →
  makeRequest_result method url data vars w = (Returns (Response.zero, Some e), w).
Proof.
  unfold settled, makeRequest_result. intros Hs Hr. rewrite Hr in Hs.
  destruct Hs as [_ ->]. done.
Qed.

(** A response that is buffered: the live stream is read to its end and
    closed, and the bytes are handed out twice, as [Response.Body] and
    through a reader in memory. *)
Lemma makeRequest_result_buffered (method url : string) (data : RequestData)
    (vars : Captured) (x : wire.Exchange) (w : World)
    (status : Z) (hdr : http.Header) (payload : list byte)
    (broken : option error) :
  settled (resp vars) (err vars) x w →
  wire.reply x = wire.Answered status hdr payload broken →
  RequestData.Stream data = false ∨ isStatusSuccess status = false →
  ∃ live mem w',
    wire.stream x = Some live
    ∧ mem ≠ live
    ∧ makeRequest_result method url data vars w
      = (Returns ({| Response.ReadCloser := Some mem;
                     Response.Body := Some payload;
                     Response.Header := Some hdr;
                     Response.StatusCode := status |},
                  match broken with
                  | Some e => Some e
                  | None =>
                      if isStatusSuccess status then None
                      else Some (unexpectedStatus method url status payload)
                  end), w')
    ∧ readers w' !! live
      = Some {| pending := []; failure := broken; closed := true |}
    ∧ readers w' !! mem
      = Some {| pending := payload; failure := None; closed := false |}.
Proof.
  unfold settled, makeRequest_result. intros Hs Hr Hbuf. rewrite Hr in Hs.
  destruct Hs as (live & Hlive & -> & -> & Hstore). cbn [http.StatusCode http.Body http.Header_].
  assert (negb (RequestData.Stream data) || negb (isStatusSuccess status) = true)
    as ->.
  { destruct Hbuf as [-> | ->]; [done|]. by rewrite orb_true_r. }
  unfold bind at 1. unfold bind at 1. unfold ReadAll. rewrite Hstore.
  cbn [pending failure closed].
  unfold bind at 1. unfold Close. cbn [readers setReader].
  rewrite lookup_insert_eq. cbn [pending failure closed].
  unfold bind at 1. unfold NewReader. cbn [readers setReader].
  rewrite insert_insert_eq.
  set (store := <[live := _]> (readers w)).
  exists live, (fresh (dom store)). eexists.
  assert (fresh (dom store) ≠ live) as Hne.
  { intros Heq. apply (is_fresh (dom store)). rewrite Heq.
    apply elem_of_dom. subst store. rewrite lookup_insert_eq. eauto. }
  split_and!; [done|done| |..].
  - unfold ret. cbn -[fresh]. f_equal. f_equal.
    destruct broken as [e|]; cbn; [done|].
    destruct (isStatusSuccess status); done.
  - cbn -[fresh]. rewrite lookup_insert_ne by done. subst store.
    by rewrite lookup_insert_eq.
  - cbn -[fresh]. by rewrite lookup_insert_eq.
Qed.

(** A response that is streamed: nothing is read, [Response.Body] stays
    nil and the embedded reader is the live stream itself. *)
Lemma makeRequest_result_streamed (method url : string) (data : RequestData)
    (vars : Captured) (x : wire.Exchange) (w : World)
    (status : Z) (hdr : http.Header) (payload : list byte)
    (broken : option error) :
  settled (resp vars) (err vars) x w →
  wire.reply x = wire.Answered status hdr payload broken →
  RequestData.Stream data = true → isStatusSuccess status = true →
  ∃ live,
    wire.stream x = Some live
    ∧ makeRequest_result method url data vars w
      = (Returns ({| Response.ReadCloser := Some live;
                     Response.Body := None;
                     Response.Header := Some hdr;
                     Response.StatusCode := status |}, None), w)
    ∧ readers w !! live
      = Some {| pending := payload; failure := broken; closed := false |}.
Proof.
  unfold settled, makeRequest_result. intros Hs Hr Hstream Hok. rewrite Hr in Hs.
  destruct Hs as (live & Hlive & -> & -> & Hstore).
  cbn [http.StatusCode http.Body http.Header_]. rewrite Hstream, Hok.
  exists live. split_and!; try done.
Qed.

(** The three ways a call of [makeRequest] runs: it returns before any
    attempt; its attempts never reach the transport; or every attempt
    calls the transport, and the last call decides the result. *)
Lemma makeRequest_run (c : Client) (ctx : context.Context)
    (method url : string) (data : RequestData) (w : World) :
  (∃ e w1,
      makeRequest_body o (SetDefaultsIfNecessary data) w = (Returns (inl e), w1)
      ∧ makeRequest o c ctx method url data w = (Returns (Response.zero, Some e), w1)
      ∧ exchanges w1 = exchanges w ∧ journal w1 = journal w)
  ∨ (∃ bytesPayload requestBody data' w1,
       makeRequest_body o (SetDefaultsIfNecessary data) w
       = (Returns (inr (bytesPayload, requestBody, data')), w1)
       ∧ RequestData.Stream data' = RequestData.Stream data
       ∧ ((∃ e events w2,
             makeRequest o c ctx method url data w
             = (Returns (Response.zero, Some e), w2)
             ∧ exchanges w2 = exchanges w
             ∧ journal w2 = journal w ++ events
             ∧ (newRequestError o method url = Some e
                ∨ (newRequestError o method url = None
                   ∧ rangeHeaders o (default [] (RequestData.Headers data')) ∅ = inl e
                   ∧ events = [Attempt])))
          ∨ (∃ h (out : Outcome (Captured * list RetryEvent)) xs x w2,
               newRequestError o method url = None
               ∧ rangeHeaders o (default [] (RequestData.Headers data')) ∅ = inr h
               ∧ exchanges w2 = exchanges w ++ xs ++ [x]
               ∧ Forall (carries method url h (expected bytesPayload requestBody))
                        (xs ++ [x])
               ∧ (length xs
                  ≤ Z.to_nat (RequestData.MaxRetries (SetDefaultsIfNecessary data) - 1))%nat
               ∧ (ruleAnswers data → ∃ vars events, out = Returns (vars, events))
               ∧ match out with
                 | Panics msg =>
                     makeRequest o c ctx method url data w = (Panics msg, w2)
                 | Returns (vars, events) =>
                     settled (resp vars) (err vars) x w2
                     ∧ makeRequest o c ctx method url data w
                       = makeRequest_result method url data' vars w2
                 end))).
Proof.
  destruct (makeRequest_body_spec (SetDefaultsIfNecessary data) w)
    as (prepared & w1 & Hbody & Hx1 & Hj1 & Hsame).
  { cbn. by destruct (RequestData.Headers data). }
  unfold makeRequest. rewrite (bind_returns _ _ _ _ _ Hbody).
  destruct prepared as [e|[[bytesPayload rb] data']].
  { left. by exists e, w1. }
  right. exists bytesPayload, rb, data', w1.
  destruct Hsame as (Hrule & Hstream & Hmax).
  split; [done|]. split; [done|].
  set (httpClient := {| http.Timeout := timeout c;
                        http.TLSClientConfig := RequestData.TLSConfig data' |}).
  set (vars0 := {| requestBody := rb; resp := None; err := None |}).
  unfold Retry.
  destruct (newRequestError o method url) as [e|] eqn:Hreq.
  { (* the request cannot be built *)
    left.
    destruct (retryLoop_quiet ctx (RequestData.MaxRetryDelay data')
                (makeRequest_attempt o ctx method url data' httpClient bytesPayload)
                (λ v, err v = Some e)) with
      (remaining := Z.to_nat (RequestData.MaxRetries data' - 1)) (n := O)
      (delay := RequestData.BaseRetryDelay data') (vars := vars0) (w := w1)
      as (vars & events & w2 & Hloop & Herr & Hx2 & Hj2).
    { intros v w0.
      destruct (attempt_no_request ctx method url data' httpClient bytesPayload
                  e v w0 Hreq) as (v' & w' & ? & ? & ? & ?).
      by exists true, v', w'. }
    rewrite (bind_returns _ _ _ _ _ Hloop).
    exists e, events. eexists. unfold log, bind, makeRequest_result. cbn.
    rewrite Herr. split; [reflexivity|]. cbn.
    rewrite Hx2, Hj2, Hx1, Hj1. split_and!; try done. by left. }
  destruct (rangeHeaders o (default [] (RequestData.Headers data')) ∅)
    as [e|h] eqn:Hhdr.
  { (* a header value of a wrong type *)
    left.
    destruct (attempt_invalid_header ctx method url data' httpClient bytesPayload
                e vars0 w1 Hreq Hhdr) as (vars & w2 & Hat & Herr & Hx2 & Hj2).
    rewrite (bind_returns _ _ _ _ _ (retryLoop_stops _ _ _ _ _ _ _ _ _ _ Hat)).
    exists e, [Attempt]. eexists. unfold log, bind, makeRequest_result. cbn.
    rewrite Herr. split; [reflexivity|]. cbn.
    rewrite Hx2, Hj2, Hx1, Hj1. split_and!; try done. by right. }
  (* every attempt calls the transport *)
  right.
  destruct (defaults_rule data) as (rule & Hdef & Hanswers).
  rewrite <- Hrule in Hdef.
  destruct (retryLoop_sends ctx (RequestData.MaxRetryDelay data')
              (makeRequest_attempt o ctx method url data' httpClient bytesPayload)
              (λ v, expected bytesPayload (requestBody v)
                    = expected bytesPayload rb)
              (carries method url h (expected bytesPayload rb))
              (λ v x w, settled (resp v) (err v) x w)
              (ruleAnswers data)) with
    (remaining := Z.to_nat (RequestData.MaxRetries data' - 1)) (n := O)
    (delay := RequestData.BaseRetryDelay data') (vars := vars0) (w := w1)
    as (out & xs & x & w2 & Hloop & Hx2 & Hj2 & Hall & Hlen & Hlast & Htotal).
  { intros v w0 Hinv.
    destruct (attempt_sends ctx method url data' httpClient bytesPayload
                h v w0 Hreq Hhdr)
      as (out & x & w' & Hat & Hx & Hj & Hm & Hu & Hh & Hb & Hs & Ht).
    exists out, x, w'. split_and!; try done.
    - unfold carries. split_and!; try done.
      intros p Hp. apply Hb. by rewrite Hinv.
    - intros again v' Hout. destruct (Hs again v' Hout) as [? Hexp].
      split; [done|]. by rewrite Hexp.
    - intros Hra. apply (Ht rule Hdef). by apply Hanswers. }
  { done. }
  exists h, out, xs, x.
  destruct out as [[vars events]|msg].
  - exists (log events w2).2.
    split_and!; try done.
    + cbn. by rewrite Hx2, Hx1.
    + by rewrite <- Hmax.
    + eapply settled_readers; [|by eapply Hlast]. done.
    + by rewrite (bind_returns _ _ _ _ _ Hloop).
  - exists w2. split_and!; try done.
    + by rewrite Hx2, Hx1.
    + by rewrite <- Hmax.
    + by rewrite (bind_panics _ _ _ _ _ Hloop).
Qed.

(** ** Texts *)

Lemma Contains_unfold (s substr : string) :
  Contains s substr
  = (String.prefix substr s
     || match s with
        | EmptyString => false
        | String _ s' => Contains s' substr
        end).
Proof. by destruct s. Qed.

Lemma prefix_append (s t : string) : String.prefix s (s +:+ t) = true.
Proof.
  induction s as [|a s IH]; [by destruct t|].
  change (String a s +:+ t) with (String a (s +:+ t)). cbn [String.prefix].
  destruct (Ascii.ascii_dec a a); [exact IH|congruence].
Qed.

Lemma prefix_refl (s : string) : String.prefix s s = true.
Proof.
  induction s as [|a s IH]; cbn; [done|].
  destruct (Ascii.ascii_dec a a); [exact IH|congruence].
Qed.

Lemma Contains_here (s t : string) : Contains (s +:+ t) s = true.
Proof. by rewrite Contains_unfold, prefix_append. Qed.

Lemma Contains_all (s : string) : Contains s s = true.
Proof. by rewrite Contains_unfold, prefix_refl. Qed.

Lemma Contains_later (a t s : string) :
  Contains t s = true → Contains (a +:+ t) s = true.
Proof.
  intros H. induction a as [|c a IH]; [done|].
  change (String c a +:+ t) with (String c (a +:+ t)).
  rewrite Contains_unfold, IH. apply orb_true_r.
Qed.

Lemma unexpectedStatus_text (method url : string) (status : Z)
    (payload : list byte) :
  Contains (unexpectedStatus method url status payload) method = true
  ∧ Contains (unexpectedStatus method url status payload) url = true
  ∧ Contains (unexpectedStatus method url status payload) (itoa status) = true
  ∧ Contains (unexpectedStatus method url status payload)
             (string_of_list_byte payload) = true.
Proof.
  unfold unexpectedStatus. split_and!.
  - apply Contains_here.
  - do 2 apply Contains_later. apply Contains_here.
  - do 4 apply Contains_later. apply Contains_here.
  - do 6 apply Contains_later. apply Contains_all.
Qed.

(** ** The headers of the request *)


Lemma rangeHeaders_other (entries : list (string * HeaderValue))
    (h h' : http.Header) (key : string) :
  rangeHeaders o entries h = inr h' →
  key ∉ headerKey o <$> entries →
  h' !! key = h !! key.
Proof.
  revert h. induction entries as [|[k value] rest IH]; intros h Hrun Hkey.
  - by injection Hrun as <-.
  - rewrite fmap_cons in Hkey. apply not_elem_of_cons in Hkey as [Hne Hkey].
    destruct value as [s|l|v]; cbn in Hrun, Hne; [| |done].
    + rewrite (IH _ Hrun Hkey). by rewrite lookup_insert_ne.
    + rewrite (IH _ Hrun Hkey). by rewrite lookup_insert_ne.
Qed.

(** When no two entries are written to the same key, every entry is
    found in the request header with its values, in their order. *)
Lemma rangeHeaders_lookup (entries : list (string * HeaderValue))
    (h h' : http.Header) :
  rangeHeaders o entries h = inr h' →
  NoDup (headerKey o <$> entries) →
  ∀ k value, (k, value) ∈ entries →
    h' !! headerKey o (k, value) = Some (headerValues value).
Proof.
  revert h. induction entries as [|[k0 value0] rest IH];
    intros h Hrun Hnodup k value Hin.
  - by apply elem_of_nil in Hin.
  - rewrite fmap_cons in Hnodup. apply NoDup_cons in Hnodup as [Hfresh Hnodup].
    apply elem_of_cons in Hin as [[= -> ->]|Hin].
    + destruct value0 as [s|l|v]; cbn in Hrun, Hfresh |- *; [| |done].
      * rewrite (rangeHeaders_other _ _ _ _ Hrun Hfresh).
        apply lookup_insert_eq.
      * rewrite (rangeHeaders_other _ _ _ _ Hrun Hfresh).
        apply lookup_insert_eq.
    + destruct value0 as [s|l|v]; cbn in Hrun; [| |done];
        by eapply IH.
Qed.

Lemma rangeHeaders_valid (entries : list (string * HeaderValue)) :
  (∀ k v, (k, HOther v) ∉ entries) →
  ∀ h, ∃ h', rangeHeaders o entries h = inr h'.
Proof.
  induction entries as [|[k value] rest IH]; intros Hvalid h.
  - by exists h.
  - assert (∀ k v, (k, HOther v) ∉ rest) as Hrest.
    { intros k1 v1 Hin. apply (Hvalid k1 v1). by apply elem_of_cons; right. }
    destruct value as [s|l|v]; cbn.
    + by apply IH.
    + by apply IH.
    + exfalso. apply (Hvalid k v). by apply elem_of_cons; left.
Qed.


(** ** [makeRequest]: what the transport receives and what the caller gets *)

(** The last call of the transport a call of [makeRequest] made. *)
Lemma last_exchange (w : World) (xs xs' : list wire.Exchange)
    (x x' : wire.Exchange) (all : list wire.Exchange) :
  all = exchanges w ++ xs ++ [x] →
  all = exchanges w ++ xs' ++ [x'] →
  x = x'.
Proof.
  intros -> H. apply app_inv_head in H.
  by apply app_inj_tail in H as [_ ->].
Qed.

Lemma no_exchange (w : World) (xs : list wire.Exchange) (x : wire.Exchange) :
  exchanges w ≠ exchanges w ++ xs ++ [x].
Proof.
  intros H. apply (f_equal length) in H. rewrite !length_app in H. cbn in H. lia.
Qed.

(** With a retry rule that answers, [makeRequest] returns: it has no
    panic of its own. *)
Lemma makeRequest_returns (c : Client) (ctx : context.Context)
    (method url : string) (data : RequestData) (w : World) :
  ruleAnswers data →
  ∃ response err, (makeRequest o c ctx method url data w).1 = Returns (response, err).
Proof.
  intros Hrule.
  destruct (makeRequest_run c ctx method url data w)
    as [(e & w1 & _ & Hrun & _)|(bp & rb & data' & w1 & _ & _ & Hcases)].
  { rewrite Hrun. by eexists _, _. }
  destruct Hcases as [(e & events & w2 & Hrun & _)
                     |(h & out & xs & x & w2 & _ & _ & _ & _ & _ & Htotal & Hout)].
  { rewrite Hrun. by eexists _, _. }
  destruct (Htotal Hrule) as (vars & events & ->).
  destruct Hout as [Hsettled ->].
  destruct (wire.reply x) as [e|status hdr payload broken] eqn:Hreply.
  - rewrite (makeRequest_result_refused _ _ _ _ _ _ e Hsettled Hreply).
    by eexists _, _.
  - destruct (RequestData.Stream data') eqn:Hs;
      [destruct (isStatusSuccess status) eqn:Hok|].
    + destruct (makeRequest_result_streamed method url data' vars x w2 status hdr
                  payload broken Hsettled Hreply Hs Hok) as (live & _ & -> & _).
      by eexists _, _.
    + destruct (makeRequest_result_buffered method url data' vars x w2 status hdr
                  payload broken Hsettled Hreply (or_intror Hok))
        as (live & mem & w3 & _ & _ & -> & _).
      by eexists _, _.
    + destruct (makeRequest_result_buffered method url data' vars x w2 status hdr
                  payload broken Hsettled Hreply (or_introl Hs))
        as (live & mem & w3 & _ & _ & -> & _).
      by eexists _, _.
Qed.

(** C3. When the rule that decides on retries answers, and the last call
    of the transport ends with a status outside [200,299] and a payload
    that reads to its end, [makeRequest] returns an error whose text
    holds the method, the url, the status code and the payload, together
    with a [Response] whose [StatusCode] is the server's status and whose
    [Body] is the server's payload. *)
Theorem unexpected_status_error (c : Client) (ctx : context.Context)
    (method url : string) (data : RequestData) (w : World)
    (xs : list wire.Exchange) (x : wire.Exchange)
    (status : Z) (hdr : http.Header) (payload : list byte) :
  ruleAnswers data →
  exchanges (makeRequest o c ctx method url data w).2 = exchanges w ++ xs ++ [x] →
  wire.reply x = wire.Answered status hdr payload None →
  ¬ (200 ≤ status ≤ 299) →
  ∃ bodyReader text,
    (makeRequest o c ctx method url data w).1
    = Returns ({| Response.ReadCloser := Some bodyReader;
                  Response.Body := Some payload;
                  Response.Header := Some hdr;
                  Response.StatusCode := status |}, Some text)
    ∧ text = unexpectedStatus method url status payload
    ∧ Contains text method = true
    ∧ Contains text url = true
    ∧ Contains text (itoa status) = true
    ∧ Contains text (string_of_list_byte payload) = true.
Proof.
  intros Hrule Hlast Hreply Hstatus.
  assert (isStatusSuccess status = false) as Hfail.
  { unfold isStatusSuccess. apply andb_false_iff.
    destruct (decide (200 ≤ status)); [right|left]; lia. }
  destruct (makeRequest_run c ctx method url data w)
    as [(e & w1 & _ & Hrun & Hx & _)
       |(bp & rb & data' & w1 & _ & _ & Hcases)].
  { rewrite Hrun in Hlast. cbn in Hlast. rewrite Hx in Hlast.
    by apply no_exchange in Hlast. }
  destruct Hcases as [(e & events & w2 & Hrun & Hx & _)
                     |(h & out & xs' & x' & w2 & _ & _ & Hx & _ & _ & Htotal & Hout)].
  { rewrite Hrun in Hlast. cbn in Hlast. rewrite Hx in Hlast.
    by apply no_exchange in Hlast. }
  destruct (Htotal Hrule) as (vars & events & ->).
  destruct Hout as [Hsettled Hrun].
  pose proof (makeRequest_result_frame method url data' vars w2) as [Hframe _].
  rewrite Hrun, Hframe in Hlast.
  assert (x' = x) as -> by (eapply last_exchange; eauto).
  destruct (makeRequest_result_buffered method url data' vars x w2 status hdr
              payload None Hsettled Hreply (or_intror Hfail))
    as (live & mem & w3 & _ & _ & Hres & _).
  rewrite Hfail in Hres.
  exists mem, (unexpectedStatus method url status payload).
  rewrite Hrun, Hres.
  destruct (unexpectedStatus_text method url status payload) as (? & ? & ? & ?).
  by split_and!.
Qed.

(** The test on the status of line 172, by the numbers. *)
Lemma isStatusSuccess_range (status : Z) :
  isStatusSuccess status = true ↔ 200 ≤ status ≤ 299.
Proof.
  unfold isStatusSuccess. rewrite andb_true_iff, Z.leb_le, Z.ltb_lt. lia.
Qed.

(** C4. When the rule that decides on retries answers, the bytes of the
    response and its live stream exclude one another, and the status
    decides by its number.  With [Stream] false, or a last status below
    200 or above 299, the live stream is read to its end and closed,
    [Response.Body] holds the payload and the embedded reader is another
    reader, in memory, over the same bytes.  With [Stream] true and a
    last status from 200 to 299, [Response.Body] is nil and the embedded
    reader is the live stream, unread and open: the payload is reachable
    through it alone. *)
Theorem body_and_stream_exclusive (c : Client) (ctx : context.Context)
    (method url : string) (data : RequestData) (w : World)
    (xs : list wire.Exchange) (x : wire.Exchange)
    (status : Z) (hdr : http.Header) (payload : list byte)
    (broken : option error) :
  ruleAnswers data →
  exchanges (makeRequest o c ctx method url data w).2 = exchanges w ++ xs ++ [x] →
  wire.reply x = wire.Answered status hdr payload broken →
  ∃ live response err,
    wire.stream x = Some live
    ∧ (makeRequest o c ctx method url data w).1 = Returns (response, err)
    ∧ Response.StatusCode response = status
    ∧ (RequestData.Stream data = true ∧ 200 ≤ status ≤ 299 →
       Response.Body response = None
       ∧ Response.ReadCloser response = Some live
       ∧ readers (makeRequest o c ctx method url data w).2 !! live
         = Some {| pending := payload; failure := broken; closed := false |})
    ∧ (RequestData.Stream data = false ∨ status < 200 ∨ 299 < status →
       Response.Body response = Some payload
       ∧ ∃ mem,
           mem ≠ live
           ∧ Response.ReadCloser response = Some mem
           ∧ readers (makeRequest o c ctx method url data w).2 !! mem
             = Some {| pending := payload; failure := None; closed := false |}
           ∧ readers (makeRequest o c ctx method url data w).2 !! live
             = Some {| pending := []; failure := broken; closed := true |}).
Proof.
  intros Hrule Hlast Hreply.
  destruct (makeRequest_run c ctx method url data w)
    as [(e & w1 & _ & Hrun & Hx & _)
       |(bp & rb & data' & w1 & _ & Hstream & Hcases)].
  { rewrite Hrun in Hlast. cbn in Hlast. rewrite Hx in Hlast.
    by apply no_exchange in Hlast. }
  destruct Hcases as [(e & events & w2 & Hrun & Hx & _)
                     |(h & out & xs' & x' & w2 & _ & _ & Hx & _ & _ & Htotal & Hout)].
  { rewrite Hrun in Hlast. cbn in Hlast. rewrite Hx in Hlast.
    by apply no_exchange in Hlast. }
  destruct (Htotal Hrule) as (vars & events & ->).
  destruct Hout as [Hsettled Hrun].
  pose proof (makeRequest_result_frame method url data' vars w2) as [Hframe _].
  rewrite Hrun, Hframe in Hlast.
  assert (x' = x) as -> by (eapply last_exchange; eauto).
  rewrite Hrun, <- Hstream.
  pose proof (isStatusSuccess_range status) as Hrange.
  destruct (RequestData.Stream data') eqn:Hs;
    [destruct (isStatusSuccess status) eqn:Hok|].
  - destruct (makeRequest_result_streamed method url data' vars x w2 status hdr
                payload broken Hsettled Hreply Hs Hok) as (live & Hlive & Hres & Hstore).
    exists live. rewrite Hres. eexists _, _. split_and!; try done.
    intros [Hno|Hout]; [done|]. apply proj1 in Hrange. specialize (Hrange eq_refl). lia.
  - destruct (makeRequest_result_buffered method url data' vars x w2 status hdr
                payload broken Hsettled Hreply (or_intror Hok))
      as (live & mem & w3 & Hlive & Hne & Hres & Hl & Hm).
    exists live. rewrite Hres. eexists _, _. split_and!; try done.
    + intros [_ Hin]. apply Hrange in Hin. done.
    + intros _. split; [done|]. exists mem. by split_and!.
  - destruct (makeRequest_result_buffered method url data' vars x w2 status hdr
                payload broken Hsettled Hreply (or_introl Hs))
      as (live & mem & w3 & Hlive & Hne & Hres & Hl & Hm).
    exists live. rewrite Hres. eexists _, _. split_and!; try done.
    + by intros [? _].
    + intros _. split; [done|]. exists mem. by split_and!.
Qed.

(** C8, as the code has it. When the rule that decides on retries
    answers and the last call of the transport is answered,
    [Response.Header] is the header mapping of the server as it is: every
    key keeps all of its values, in their order.  [Header.Get], which
    looks a key up under its canonical form, yields the first value the
    server's mapping holds under that form, and the empty text when it
    holds none there. *)
Theorem response_header_keeps_all_values (c : Client) (ctx : context.Context)
    (method url : string) (data : RequestData) (w : World)
    (xs : list wire.Exchange) (x : wire.Exchange)
    (status : Z) (hdr : http.Header) (payload : list byte)
    (broken : option error) :
  ruleAnswers data →
  exchanges (makeRequest o c ctx method url data w).2 = exchanges w ++ xs ++ [x] →
  wire.reply x = wire.Answered status hdr payload broken →
  ∃ response err,
    (makeRequest o c ctx method url data w).1 = Returns (response, err)
    ∧ Response.Header response = Some hdr
    ∧ (∀ key values, hdr !! key = Some values →
         (default ∅ (Response.Header response)) !! key = Some values)
    ∧ (∀ key,
         http.Get (CanonicalMIMEHeaderKey o)
           (default ∅ (Response.Header response)) key
         = default "" (head (default [] (hdr !! CanonicalMIMEHeaderKey o key)))).
Proof.
  intros Hrule Hlast Hreply.
  assert (∀ key,
            http.Get (CanonicalMIMEHeaderKey o) hdr key
            = default "" (head (default [] (hdr !! CanonicalMIMEHeaderKey o key))))
    as Hget.
  { intros key. unfold http.Get.
    by destruct (hdr !! CanonicalMIMEHeaderKey o key) as [[|v vs]|]. }
  destruct (makeRequest_run c ctx method url data w)
    as [(e & w1 & _ & Hrun & Hx & _)
       |(bp & rb & data' & w1 & _ & Hstream & Hcases)].
  { rewrite Hrun in Hlast. cbn in Hlast. rewrite Hx in Hlast.
    by apply no_exchange in Hlast. }
  destruct Hcases as [(e & events & w2 & Hrun & Hx & _)
                     |(h & out & xs' & x' & w2 & _ & _ & Hx & _ & _ & Htotal & Hout)].
  { rewrite Hrun in Hlast. cbn in Hlast. rewrite Hx in Hlast.
    by apply no_exchange in Hlast. }
  destruct (Htotal Hrule) as (vars & events & ->).
  destruct Hout as [Hsettled Hrun].
  pose proof (makeRequest_result_frame method url data' vars w2) as [Hframe _].
  rewrite Hrun, Hframe in Hlast.
  assert (x' = x) as -> by (eapply last_exchange; eauto).
  rewrite Hrun.
  destruct (RequestData.Stream data') eqn:Hs;
    [destruct (isStatusSuccess status) eqn:Hok|].
  - destruct (makeRequest_result_streamed method url data' vars x w2 status hdr
                payload broken Hsettled Hreply Hs Hok) as (live & _ & Hres & _).
    rewrite Hres. eexists _, _. by split_and!.
  - destruct (makeRequest_result_buffered method url data' vars x w2 status hdr
                payload broken Hsettled Hreply (or_intror Hok))
      as (live & mem & w3 & _ & _ & Hres & _).
    rewrite Hres. eexists _, _. by split_and!.
  - destruct (makeRequest_result_buffered method url data' vars x w2 status hdr
                payload broken Hsettled Hreply (or_introl Hs))
      as (live & mem & w3 & _ & _ & Hres & _).
    rewrite Hres. eexists _, _. by split_and!.
Qed.


End Results.


(** * Checks on inputs *)

(** ** [DefaultRetryRule] *)

Example DefaultRetryRule_statuses :
  DefaultRetryRule (Some {| http.StatusCode := 423; http.Header_ := ∅; http.Body := O |}) None
  = Returns true
  ∧ DefaultRetryRule (Some {| http.StatusCode := 502; http.Header_ := ∅; http.Body := O |}) None
    = Returns true
  ∧ DefaultRetryRule (Some {| http.StatusCode := 404; http.Header_ := ∅; http.Body := O |}) None
    = Returns false
  ∧ DefaultRetryRule (Some {| http.StatusCode := 200; http.Header_ := ∅; http.Body := O |})
      (Some "timeout") = Returns true
  ∧ DefaultRetryRule None None = Panics nilDereference.
Proof. by vm_compute. Qed.

Lemma DefaultRetryRule_domain_witness :
  ∃ b : bool, DefaultRetryRule None (Some "connection refused") = Returns b.
Proof.
  apply (DefaultRetryRule_domain None (Some "connection refused")).
  right. discriminate.
Defined.

(** ** The retry engine *)

(** Four attempts are allowed: the engine sleeps 300ms, 600ms and 1.2s. *)
Example Retry_four_attempts :
  Retry context.Background (300 * Millisecond) (32 * Second) 4 counting O emptyWorld
  = (Returns (4%nat, [Attempt; Sleep 300000000; Attempt; Sleep 600000000;
                      Attempt; Sleep 1200000000; Attempt]), emptyWorld).
Proof. by vm_compute. Qed.

(** The delay is capped. *)
Example Retry_capped :
  match (Retry context.Background (300 * Millisecond) (1 * Second) 5 counting O
           emptyWorld).1 with
  | Returns (_, events) => sleeps events
  | Panics _ => []
  end = [300000000; 600000000; 1000000000; 1000000000].
Proof. by vm_compute. Qed.

(** A token cancelled during the first sleep leaves the first attempt's
    result final. *)
Example Retry_cancelled :
  Retry {| context.Done := λ _, true |} (300 * Millisecond) (32 * Second) 4
        counting O emptyWorld
  = (Returns (1%nat, [Attempt; Cancelled]), emptyWorld).
Proof. by vm_compute. Qed.

Lemma Retry_attempts_and_backoff_witness :
  ∃ (vars' : nat) events w',
    Retry context.Background (300 * Millisecond) (32 * Second) 4 counting O emptyWorld
    = (Returns (vars', events), w')
    ∧ attempts events = Z.to_nat (Z.max 1 4)
    ∧ (vars', w') = invoke counting (Z.to_nat (Z.max 1 4)) O emptyWorld
    ∧ events = backoffSchedule (300 * Millisecond) (32 * Second) (Z.to_nat (Z.max 1 4))
    ∧ length (sleeps events) = (attempts events - 1)%nat
    ∧ ∀ k : Z, 1 < k ≤ Z.max 1 4 →
        sleeps events !! Z.to_nat (k - 2)
        = Some (Z.min (300 * Millisecond * 2 ^ (k - 2)) (32 * Second)).
Proof.
  apply (Retry_attempts_and_backoff context.Background (300 * Millisecond)
           (32 * Second) 4 counting O emptyWorld).
  - reflexivity.
  - intros n w. exists (S n), w. reflexivity.
Defined.

(** ** The middleware chain *)

(** The first test of [makeRequestWithMiddlewares]: A marks the request,
    then B, the server sees both marks in that order, and on the way out
    B marks the response before A. *)
Example middlewares_in_order :
  let c := {| timeout := 1 * Second; middlewares := [marking "A"; marking "B"] |} in
  let run := makeRequestWithMiddlewares (echo 200) c context.Background "POST"
               "http://example.com"
               (request (BodyString "body") None 0 false) emptyWorld in
  (wire.body ∘ wire.sent <$> exchanges run.2) = [list_byte_of_string "body,A,B"]
  ∧ ∃ response, run.1 = Returns (response, None)
                ∧ Response.Body response
                  = Some (list_byte_of_string "body,A,B+B+A").
Proof. cbv zeta. split; [by vm_compute|]. eexists. split; by vm_compute. Qed.

(** The second test: the first middleware aborts, and neither the second
    middleware nor the server is reached. *)
Example middleware_aborts :
  let c := {| timeout := 1 * Second; middlewares := [aborting; marking "B"] |} in
  makeRequestWithMiddlewares (echo 200) c context.Background "POST"
    "http://example.com" (request BodyNil None 0 false) emptyWorld
  = (Returns (Response.zero, Some "abortingRequest"), emptyWorld).
Proof. by vm_compute. Qed.

Lemma makeRequestWithMiddlewares_nest_witness :
  makeRequestWithMiddlewares (echo 200)
    {| timeout := 1 * Second; middlewares := [marking "A"; aborting; marking "B"] |}
  = nest ([marking "A"] ++ aborting :: [])
         (λ _ _ _ _, panic "the terminal was invoked").
Proof.
  apply (makeRequestWithMiddlewares_nest (echo 200)
           {| timeout := 1 * Second;
              middlewares := [marking "A"; aborting; marking "B"] |})
    with (post := [marking "B"]).
  - reflexivity.
  - intros ctx method url data next next' w. reflexivity.
Defined.

(** ** [makeRequest] *)

(** The test "should rebuild the payload correctly when retrying": a 502
    and then a 200 with [MaxRetries: 2] end in status 200, after one sleep
    of 300ms, and the transport receives the same bytes both times. *)
Example retry_502_then_200 :
  let run := Post flaky plainClient context.Background "http://example.com"
               (request (BodyBytes (Some hello)) None 2 false) emptyWorld in
  (wire.body ∘ wire.sent <$> exchanges run.2) = [hello; hello]
  ∧ journal run.2 = [Attempt; Sleep (300 * Millisecond); Attempt]
  ∧ ∃ response, run.1 = Returns (response, None)
                ∧ Response.StatusCode response = 200.
Proof.
  cbv zeta. split; [by vm_compute|]. split; [by vm_compute|].
  eexists. split; by vm_compute.
Qed.

(** The tests "bad request": a 400 is an error that tells the status and
    the payload, beside a response that holds both. *)
Example bad_request_400 :
  makeRequest badRequest plainClient context.Background "GET" "http://example.com"
    (request BodyNil None 0 false) emptyWorld
  = (Returns ({| Response.ReadCloser := Some 1%nat;
                 Response.Body := Some hello;
                 Response.Header := Some ∅;
                 Response.StatusCode := 400 |},
              Some "GET http://example.com: unexpected status code: 400, payload: Hello, client"),
     (makeRequest badRequest plainClient context.Background "GET"
        "http://example.com" (request BodyNil None 0 false) emptyWorld).2).
Proof. by vm_compute. Qed.

Lemma unexpected_status_error_witness :
  ∃ bodyReader text,
    (makeRequest badRequest plainClient context.Background "GET"
       "http://example.com" (request BodyNil None 0 false) emptyWorld).1
    = Returns ({| Response.ReadCloser := Some bodyReader;
                  Response.Body := Some hello;
                  Response.Header := Some ∅;
                  Response.StatusCode := 400 |}, Some text)
    ∧ text = unexpectedStatus "GET" "http://example.com" 400 hello
    ∧ Contains text "GET" = true
    ∧ Contains text "http://example.com" = true
    ∧ Contains text (itoa 400) = true
    ∧ Contains text (string_of_list_byte hello) = true.
Proof.
  apply (unexpected_status_error badRequest plainClient context.Background "GET"
           "http://example.com" (request BodyNil None 0 false) emptyWorld []
           (theLast (makeRequest badRequest plainClient context.Background "GET"
                       "http://example.com" (request BodyNil None 0 false)
                       emptyWorld).2)).
  - intros rule Hrule. discriminate Hrule.
  - by vm_compute.
  - by vm_compute.
  - lia.
Defined.

(** A streamed success: the body is not read, and the embedded reader is
    the live stream with the payload pending. *)
Example streamed_200 :
  let run := makeRequest (echo 200) plainClient context.Background "POST"
               "http://example.com"
               (request (BodyString "Hello, client") None 0 true) emptyWorld in
  run.1 = Returns ({| Response.ReadCloser := Some 1%nat;
                      Response.Body := None;
                      Response.Header := Some ∅;
                      Response.StatusCode := 200 |}, None)
  ∧ readers run.2 !! 1%nat
    = Some {| pending := hello; failure := None; closed := false |}.
Proof. cbv zeta. split; by vm_compute. Qed.

(** A streamed failure is buffered all the same. *)
Example streamed_400_is_buffered :
  let run := makeRequest (echo 400) plainClient context.Background "POST"
               "http://example.com"
               (request (BodyString "Hello, client") None 0 true) emptyWorld in
  ∃ response text,
    run.1 = Returns (response, Some text)
    ∧ Response.Body response = Some hello
    ∧ readers run.2 !! 1%nat
      = Some {| pending := []; failure := None; closed := true |}.
Proof. cbv zeta. eexists _, _. split_and!; by vm_compute. Qed.

Lemma body_and_stream_exclusive_witness :
  (∃ live response err,
     wire.stream (theLast (makeRequest (echo 200) plainClient context.Background
                             "POST" "http://example.com"
                             (request (BodyString "Hello, client") None 0 true)
                             emptyWorld).2) = Some live
     ∧ (makeRequest (echo 200) plainClient context.Background "POST"
          "http://example.com" (request (BodyString "Hello, client") None 0 true)
          emptyWorld).1 = Returns (response, err)
     ∧ Response.StatusCode response = 200
     ∧ Response.Body response = None
     ∧ Response.ReadCloser response = Some live
     ∧ readers (makeRequest (echo 200) plainClient context.Background "POST"
                  "http://example.com"
                  (request (BodyString "Hello, client") None 0 true)
                  emptyWorld).2 !! live
       = Some {| pending := hello; failure := None; closed := false |})
  ∧ (∃ live response err,
       wire.stream (theLast (makeRequest (echo 400) plainClient context.Background
                               "POST" "http://example.com"
                               (request (BodyString "Hello, client") None 0 true)
                               emptyWorld).2) = Some live
       ∧ (makeRequest (echo 400) plainClient context.Background "POST"
            "http://example.com" (request (BodyString "Hello, client") None 0 true)
            emptyWorld).1 = Returns (response, err)
       ∧ Response.StatusCode response = 400
       ∧ Response.Body response = Some hello
       ∧ ∃ mem,
           mem ≠ live
           ∧ Response.ReadCloser response = Some mem
           ∧ readers (makeRequest (echo 400) plainClient context.Background "POST"
                        "http://example.com"
                        (request (BodyString "Hello, client") None 0 true)
                        emptyWorld).2 !! mem
             = Some {| pending := hello; failure := None; closed := false |}
           ∧ readers (makeRequest (echo 400) plainClient context.Background "POST"
                        "http://example.com"
                        (request (BodyString "Hello, client") None 0 true)
                        emptyWorld).2 !! live
             = Some {| pending := []; failure := None; closed := true |}).
Proof.
  split.
  - destruct (body_and_stream_exclusive (echo 200) plainClient context.Background
                "POST" "http://example.com"
                (request (BodyString "Hello, client") None 0 true) emptyWorld []
                (theLast (makeRequest (echo 200) plainClient context.Background
                            "POST" "http://example.com"
                            (request (BodyString "Hello, client") None 0 true)
                            emptyWorld).2)
                200 ∅ hello None)
      as (live & response & err & Hlive & Hrun & Hstatus & Hstreamed & _).
    + intros rule Hrule. discriminate Hrule.
    + by vm_compute.
    + by vm_compute.
    + exists live, response, err. split; [exact Hlive|]. split; [exact Hrun|].
      split; [exact Hstatus|]. apply Hstreamed. split; [reflexivity|lia].
  - destruct (body_and_stream_exclusive (echo 400) plainClient context.Background
                "POST" "http://example.com"
                (request (BodyString "Hello, client") None 0 true) emptyWorld []
                (theLast (makeRequest (echo 400) plainClient context.Background
                            "POST" "http://example.com"
                            (request (BodyString "Hello, client") None 0 true)
                            emptyWorld).2)
                400 ∅ hello None)
      as (live & response & err & Hlive & Hrun & Hstatus & _ & Hbuffered).
    + intros rule Hrule. discriminate Hrule.
    + by vm_compute.
    + by vm_compute.
    + exists live, response, err. split; [exact Hlive|]. split; [exact Hrun|].
      split; [exact Hstatus|]. apply Hbuffered. right. right. lia.
Defined.

(** A reader as body cannot be sent twice. *)
Example reader_body_with_retries :
  makeRequest flaky plainClient context.Background "POST" "http://example.com"
    (request (BodyReader 7%nat) None 2 false) emptyWorld
  = (Returns (Response.zero,
              Some "can't retry a request whose body is an io.Reader"),
     emptyWorld).
Proof. by vm_compute. Qed.

Lemma makeRequest_single_use_body_witness :
  ∃ e : error,
    makeRequest flaky plainClient context.Background "POST" "http://example.com"
      (request (BodyReaders [("file", 7%nat)]) None 3 false) emptyWorld
    = (Returns (Response.zero, Some e), emptyWorld)
    ∧ ((∃ r, BodyReaders [("file", 7%nat)] = BodyReader r) →
         e = "can't retry a request whose body is an io.Reader")
    ∧ ((∃ parts, BodyReaders [("file", 7%nat)] = BodyReaders parts) →
         e = "can't retry a request whose body depends on io.Reader's").
Proof.
  apply (makeRequest_single_use_body flaky plainClient context.Background "POST"
           "http://example.com"
           (request (BodyReaders [("file", 7%nat)]) None 3 false) emptyWorld).
  - cbn. lia.
  - right. eexists. reflexivity.
Defined.

(** The test "should report errors when invalid header values are
    passed". *)
Example invalid_header_value :
  makeRequest flaky plainClient context.Background "POST" "http://example.com"
    (request BodyNil fakeHeaders 0 false) emptyWorld
  = (Returns (Response.zero,
              Some "header of invalid type received for key 'fakeHeaderKey': []interface {}"),
     {| readers := ∅; exchanges := []; journal := [Attempt] |}).
Proof. by vm_compute. Qed.



(** A server that sends two values under one key: the response has
    both. *)
Example two_cookies :
  ∃ response,
    (Get twoCookies plainClient context.Background "http://example.com"
       (request BodyNil None 0 false) emptyWorld).1 = Returns (response, None)
    ∧ Response.Header response = Some cookies
    ∧ http.Get textproto.CanonicalMIMEHeaderKey cookies "set-cookie" = "a=1".
Proof. eexists. split_and!; by vm_compute. Qed.

(** [Header.Get] finds a key under its canonical form alone. *)
Example Get_canonical_key :
  http.Get textproto.CanonicalMIMEHeaderKey
    {[ "Fakeheaderkey" := ["fakeHeaderValue"] ]} "fakeHeaderKey" = "fakeHeaderValue"
  ∧ http.Get textproto.CanonicalMIMEHeaderKey {[ "x-raw" := ["v"] ]} "x-raw" = ""
  ∧ textproto.CanonicalMIMEHeaderKey "content-type" = "Content-Type"
  ∧ textproto.CanonicalMIMEHeaderKey "X-API key" = "X-API key".
Proof. split_and!; by vm_compute. Qed.

Lemma response_header_keeps_all_values_witness :
  ∃ response err,
    (makeRequest twoCookies plainClient context.Background "GET"
       "http://example.com" (request BodyNil None 0 false) emptyWorld).1
    = Returns (response, err)
    ∧ Response.Header response = Some cookies
    ∧ (∀ key values, cookies !! key = Some values →
         (default ∅ (Response.Header response)) !! key = Some values)
    ∧ (∀ key,
         http.Get (CanonicalMIMEHeaderKey twoCookies)
           (default ∅ (Response.Header response)) key
         = default ""
             (head (default [] (cookies !! CanonicalMIMEHeaderKey twoCookies key)))).
Proof.
  apply (response_header_keeps_all_values twoCookies plainClient
           context.Background "GET" "http://example.com"
           (request BodyNil None 0 false) emptyWorld []
           (theLast (makeRequest twoCookies plainClient context.Background "GET"
                       "http://example.com" (request BodyNil None 0 false)
                       emptyWorld).2)
           200 cookies hello None).
  - intros rule Hrule. discriminate Hrule.
  - by vm_compute.
  - by vm_compute.
Defined.

(** C8 as it is stated does not hold: the server sends [a=1] and [b=2]
    under [Set-Cookie], and the header mapping of the response that [Get]
    returns keeps the second value beside the first. *)
Lemma response_header_second_value_kept :
  ∃ response,
    (Get twoCookies plainClient context.Background "http://example.com"
       (request BodyNil None 0 false) emptyWorld).1 = Returns (response, None)
    ∧ default ∅ (Response.Header response) !! "Set-Cookie" = Some ["a=1"; "b=2"]
    ∧ default ∅ (Response.Header response) !! "Set-Cookie" ≠ Some ["a=1"].
Proof. eexists. split_and!; by vm_compute. Qed.

(** The older loop does keep the first value alone. *)
Lemma firstValues_lookup (h : http.Header) (key : string) :
  firstValues h !! key = h !! key ≫= head.
Proof. unfold firstValues. apply lookup_omap. Qed.

Example firstValues_cookies : firstValues cookies !! "Set-Cookie" = Some "a=1".
Proof. by vm_compute. Qed.

(** A reader as body is read once: the transport receives its bytes and
    leaves it drained. *)
Example reader_body_is_consumed :
  let run := makeRequest (echo 200) plainClient context.Background "POST"
               "http://example.com" (request (BodyReader 7%nat) None 0 false)
               oneReader in
  (wire.body ∘ wire.sent <$> exchanges run.2) = [hello]
  ∧ readers run.2 !! 7%nat
    = Some {| pending := []; failure := None; closed := false |}.
Proof. cbv zeta. split; by vm_compute. Qed.

(** A body [json.Marshal] refuses ends the call before any attempt. *)
Example marshal_failure :
  makeRequest flaky plainClient context.Background "POST" "http://example.com"
    (request (BodyOther aChannel) fakeHeaders 3 false) emptyWorld
  = (Returns (Response.zero, Some "json: unsupported type: chan int"), emptyWorld).
Proof. by vm_compute. Qed.

(** A url that cannot be parsed: every attempt fails before the headers
    are looked at, asks for a retry, and the transport is never called. *)
Example unparsable_url_is_retried :
  makeRequest flaky plainClient context.Background "POST" ":"
    (request BodyNil fakeHeaders 3 false) emptyWorld
  = (Returns (Response.zero, Some ("parse " +:+ quote ":" +:+ ": missing protocol scheme")),
     {| readers := ∅; exchanges := [];
        journal := [Attempt; Sleep 300000000; Attempt; Sleep 600000000; Attempt] |}).
Proof. by vm_compute. Qed.

(** A multipart body sets [Content-Type] itself: a value of a wrong type
    under that key is overwritten, and the request is sent. *)
Example invalid_content_type_overwritten :
  let data := request (BodyReaders [("file", 7%nat)])
                (Some [("Content-Type", HOther notAHeaderValue)]) 0 false in
  let run := makeRequest uploads plainClient context.Background "POST"
               "http://example.com" data oneReader in
  (wire.header ∘ wire.sent <$> exchanges run.2)
  = [ {[ "Content-Type" := ["multipart/form-data; boundary=b"] ]} ]
  ∧ (wire.body ∘ wire.sent <$> exchanges run.2) = [hello]
  ∧ ∃ response, run.1 = Returns (response, None)
                ∧ Response.StatusCode response = 200.
Proof.
  cbv zeta. split; [by vm_compute|]. split; [by vm_compute|].
  eexists. split; by vm_compute.
Qed.

(** * Further results *)

(** ** [SetDefaultsIfNecessary] *)

(** X1. [SetDefaultsIfNecessary] is idempotent: applied to its own
    result it changes nothing. *)
Theorem SetDefaultsIfNecessary_idempotent (r : RequestData) :
  SetDefaultsIfNecessary (SetDefaultsIfNecessary r) = SetDefaultsIfNecessary r.
Proof.
  destruct r as [body headers retries base cap rule tls follow stream].
  unfold SetDefaultsIfNecessary. cbn [RequestData.Body RequestData.Headers
    RequestData.MaxRetries RequestData.BaseRetryDelay RequestData.MaxRetryDelay
    RequestData.RetryRule RequestData.TLSConfig RequestData.FollowRedirects
    RequestData.Stream].
  f_equal.
  - by destruct headers.
  - destruct (retries =? 0) eqn:E; [done|]. by rewrite E.
  - destruct (base =? 0) eqn:E; [by destruct (_ =? 0)|]. by rewrite E.
  - destruct (cap =? 0) eqn:E; [by destruct (_ =? 0)|]. by rewrite E.
  - by destruct rule.
Qed.

(** X2. [SetDefaultsIfNecessary] leaves a [RequestData] as it is exactly
    when none of the five fields it looks at is zero-valued: a nil
    [Headers], a [MaxRetries] of 0 (a negative one is kept), a zero delay
    or a nil [RetryRule] is what it replaces, and nothing else. *)
Theorem SetDefaultsIfNecessary_fixed_point (r : RequestData) :
  SetDefaultsIfNecessary r = r
  ↔ RequestData.Headers r ≠ None
    ∧ RequestData.MaxRetries r ≠ 0
    ∧ RequestData.BaseRetryDelay r ≠ 0
    ∧ RequestData.MaxRetryDelay r ≠ 0
    ∧ RequestData.RetryRule r ≠ None.
Proof.
  destruct r as [body headers retries base cap rule tls follow stream].
  unfold SetDefaultsIfNecessary. cbn [RequestData.Body RequestData.Headers
    RequestData.MaxRetries RequestData.BaseRetryDelay RequestData.MaxRetryDelay
    RequestData.RetryRule RequestData.TLSConfig RequestData.FollowRedirects
    RequestData.Stream].
  split.
  - intros [= Hh Hr Hb Hc Hrule]. split_and!.
    + by destruct headers.
    + destruct (retries =? 0) eqn:E; lia.
    + destruct (base =? 0) eqn:E; [|lia]. unfold Millisecond in Hb. lia.
    + destruct (cap =? 0) eqn:E; [|lia]. unfold Second, Millisecond in Hc. lia.
    + by destruct rule.
  - intros (Hh & Hr & Hb & Hc & Hrule).
    destruct headers; [|done]. destruct rule; [|done].
    apply Z.eqb_neq in Hr, Hb, Hc. by rewrite Hr, Hb, Hc.
Qed.

(** ** [AppendErr] *)

Lemma AppendErr_members (a b : ErrorValue) :
  AppendErr (Some a) (Some b) = Some (multierr (members a ++ [b])).
Proof. by destruct a. Qed.

Lemma AppendErr_fold (e r : ErrorValue) (rest : list ErrorValue) :
  foldl AppendErr (Some e) (Some <$> r :: rest)
  = Some (multierr (members e ++ r :: rest)).
Proof.
  revert e r. induction rest as [|r' rest IH]; intros e r.
  - cbn [fmap list_fmap foldl]. apply AppendErr_members.
  - change (Some <$> r :: r' :: rest) with (Some r :: (Some <$> r' :: rest)).
    cbn [foldl]. rewrite AppendErr_members, IH. cbn [members].
    by rewrite <- app_assoc.
Qed.

Lemma AppendErr_skips_nil (acc : option ErrorValue)
    (errors : list (option ErrorValue)) :
  foldl AppendErr acc errors = foldl AppendErr acc (Some <$> omap id errors).
Proof.
  revert acc. induction errors as [|[e|] errors IH]; intros acc; [done| |].
  - cbn [omap list_omap id fmap list_fmap foldl]. apply IH.
  - cbn [omap list_omap id foldl]. rewrite <- IH. by destruct acc as [[]|].
Qed.

(** X3. Errors appended one at a time with [AppendErr] make one flat
    aggregate in the order they came: nil errors are left out, a single
    error is returned as it is, and from the second error on the result
    is a [multierr] whose members are those of the first error followed
    by the later errors, each as one member. *)
Theorem AppendErr_accumulates (errors : list (option ErrorValue)) :
  foldl AppendErr None errors
  = match omap id errors with
    | [] => None
    | [e] => Some e
    | e :: r :: rest => Some (multierr (members e ++ r :: rest))
    end.
Proof.
  rewrite AppendErr_skips_nil.
  destruct (omap id errors) as [|e [|r rest]]; [done|done|].
  change (Some <$> e :: r :: rest) with (Some e :: (Some <$> r :: rest)).
  cbn [foldl AppendErr]. apply AppendErr_fold.
Qed.

Lemma Sprint_contains (texts : list string) (t : string) :
  t ∈ texts → Contains (Sprint texts) t = true.
Proof.
  induction texts as [|t0 texts IH]; intros Hin.
  - by apply elem_of_nil in Hin.
  - destruct texts as [|t1 texts].
    + apply list_elem_of_singleton in Hin as ->. apply Contains_all.
    + apply elem_of_cons in Hin as [->|Hin].
      * apply Contains_here.
      * change (Sprint (t0 :: t1 :: texts))
          with (t0 +:+ " " +:+ Sprint (t1 :: texts)).
        do 2 apply Contains_later. by apply IH.
Qed.

(** X4. The text of a [multierr] holds the text of each of its members:
    what [AppendErr] has gathered can be found in the message of the
    aggregate. *)
Theorem multierr_text (m : list ErrorValue) (e : ErrorValue) :
  e ∈ m → Contains (Error (multierr m)) (Error e) = true.
Proof.
  intros Hin. cbn [Error]. apply Contains_later.
  assert (Contains (Sprint (map Error m)) (Error e) = true) as H.
  { apply Sprint_contains. apply list_elem_of_In, in_map, list_elem_of_In, Hin. }
  revert H. generalize (Sprint (map Error m)) as s, (Error e) as t.
  intros s t. induction s as [|c s IH]; intros H.
  - rewrite Contains_unfold in H. rewrite Contains_unfold.
    destruct t; [done|]. cbn in H. done.
  - change (String c s +:+ "]") with (String c (s +:+ "]")).
    rewrite Contains_unfold in H. rewrite Contains_unfold.
    apply orb_true_iff in H as [H|H].
    + apply orb_true_iff. left.
      clear IH. revert c s H. induction t as [|d t IHt]; intros c s H; [done|].
      cbn [String.prefix] in *. destruct (Ascii.ascii_dec d c); [|done].
      destruct s as [|c' s]; [by destruct t|].
      change (String c' s +:+ "]") with (String c' (s +:+ "]")).
      by apply IHt.
    + apply orb_true_iff. right. by apply IH.
Qed.

Section Coverage.

Variable o : Outside.

(** ** [New], [AddMiddleware] and the verbs *)

Lemma chain_of_client (c : Client) :
  makeRequestWithMiddlewares o c = nest (middlewares c) (makeRequest o c).
Proof.
  unfold makeRequestWithMiddlewares.
  rewrite chainFrom_nest by done. by rewrite firstn_all.
Qed.

(** X5. Middlewares added with [AddMiddleware] come after the ones the
    client has: the chain of the new client is the old middlewares nested
    around the chain of a client built by [New] from the added ones
    alone, so the added ones run innermost, next to [makeRequest]. *)
Theorem AddMiddleware_nests_inside (c : Client) (ms : list Middleware) :
  makeRequestWithMiddlewares o (AddMiddleware c ms)
  = nest (middlewares c) (makeRequestWithMiddlewares o (New (timeout c) ms))
  ∧ AddMiddleware (New (timeout c) (middlewares c)) ms
    = New (timeout c) (middlewares c ++ ms).
Proof.
  split; [|done].
  rewrite !chain_of_client. cbn [AddMiddleware New middlewares].
  by rewrite nest_app.
Qed.

(** The calls of the transport a call of [makeRequest] makes carry its
    method and its url. *)
Lemma makeRequest_calls (c : Client) (ctx : context.Context)
    (method url : string) (data : RequestData) (w : World) :
  ∃ calls,
    exchanges (makeRequest o c ctx method url data w).2 = exchanges w ++ calls
    ∧ Forall (λ x, wire.method (wire.sent x) = method
                   ∧ wire.url (wire.sent x) = url) calls.
Proof.
  destruct (makeRequest_run o c ctx method url data w)
    as [(e & w1 & _ & Hrun & Hx & _)
       |(bp & rb & data' & w1 & _ & _ & Hcases)].
  { exists []. rewrite Hrun, app_nil_r. by split. }
  destruct Hcases as [(e & events & w2 & Hrun & Hx & _)
                     |(h & out & xs & x & w2 & _ & _ & Hx & Hall & _ & _ & Hout)].
  { exists []. rewrite Hrun, app_nil_r. by split. }
  exists (xs ++ [x]). split.
  - destruct out as [[vars events]|msg].
    + destruct Hout as [_ ->].
      by rewrite (proj1 (makeRequest_result_frame _ _ _ _ _)).
    + by rewrite Hout.
  - eapply Forall_impl; [exact Hall|]. by intros y (? & ? & _).
Qed.

(** X6. On a client without middlewares each verb sends its own method:
    every call of the transport that [Get], [Post], [Put], [Patch] or
    [Delete] makes carries "GET", "POST", "PUT", "PATCH" or "DELETE", and
    the url the caller gave. *)
Theorem verbs_send_their_method (c : Client) (ctx : context.Context)
    (url : string) (data : RequestData) (w : World) :
  middlewares c = [] →
  ∀ verb method,
    (verb, method) ∈ [(Get o, "GET"); (Post o, "POST"); (Put o, "PUT");
                      (Patch o, "PATCH"); (Delete o, "DELETE")] →
    ∃ calls,
      exchanges (verb c ctx url data w).2 = exchanges w ++ calls
      ∧ Forall (λ x, wire.method (wire.sent x) = method
                     ∧ wire.url (wire.sent x) = url) calls.
Proof.
  intros Hms verb method Hin.
  assert (∀ m, makeRequestWithMiddlewares o c ctx m url data w
               = makeRequest o c ctx m url data w) as Hplain.
  { intros m. by rewrite chain_of_client, Hms. }
  repeat (apply elem_of_cons in Hin as [[= -> ->]|Hin];
          [unfold Get, Post, Put, Patch, Delete; rewrite Hplain;
           apply makeRequest_calls|]).
  by apply elem_of_nil in Hin.
Qed.

(** ** What [makeRequest] returns, by the last call of the transport *)

(** When the rule answers and the transport was called, the result is
    what lines 168-194 make of the last call. *)
Lemma makeRequest_last (c : Client) (ctx : context.Context)
    (method url : string) (data : RequestData) (w : World)
    (xs : list wire.Exchange) (x : wire.Exchange) :
  ruleAnswers data →
  exchanges (makeRequest o c ctx method url data w).2 = exchanges w ++ xs ++ [x] →
  ∃ data' vars w2,
    RequestData.Stream data' = RequestData.Stream data
    ∧ settled (resp vars) (err vars) x w2
    ∧ makeRequest o c ctx method url data w
      = makeRequest_result method url data' vars w2.
Proof.
  intros Hrule Hlast.
  destruct (makeRequest_run o c ctx method url data w)
    as [(e & w1 & _ & Hrun & Hx & _)
       |(bp & rb & data' & w1 & _ & Hstream & Hcases)].
  { rewrite Hrun in Hlast. cbn in Hlast. rewrite Hx in Hlast.
    by apply no_exchange in Hlast. }
  destruct Hcases as [(e & events & w2 & Hrun & Hx & _)
                     |(h & out & xs' & x' & w2 & _ & _ & Hx & _ & _ & Htotal & Hout)].
  { rewrite Hrun in Hlast. cbn in Hlast. rewrite Hx in Hlast.
    by apply no_exchange in Hlast. }
  destruct (Htotal Hrule) as (vars & events & ->).
  destruct Hout as [Hsettled Hrun].
  pose proof (makeRequest_result_frame method url data' vars w2) as [Hframe _].
  rewrite Hrun, Hframe in Hlast.
  assert (x' = x) as -> by (eapply last_exchange; eauto).
  by exists data', vars, w2.
Qed.

(** X7. When the last call of the transport fails (no connection, a
    timeout, a request body that cannot be read), [makeRequest] returns
    the zero [Response] and the error of the transport as it is. *)
Theorem transport_failure_returned (c : Client) (ctx : context.Context)
    (method url : string) (data : RequestData) (w : World)
    (xs : list wire.Exchange) (x : wire.Exchange) (e : error) :
  ruleAnswers data →
  exchanges (makeRequest o c ctx method url data w).2 = exchanges w ++ xs ++ [x] →
  wire.reply x = wire.Refused e →
  (makeRequest o c ctx method url data w).1 = Returns (Response.zero, Some e).
Proof.
  intros Hrule Hlast Hreply.
  destruct (makeRequest_last c ctx method url data w xs x Hrule Hlast)
    as (data' & vars & w2 & _ & Hsettled & ->).
  by rewrite (makeRequest_result_refused _ _ _ _ _ _ e Hsettled Hreply).
Qed.

(** X8. When the last call of the transport is answered with a status
    in [200,299] and the payload reads to its end, the error
    [makeRequest] returns is nil, the [Response] has the status and the
    header of the server, and its [Body] is the payload, or nil when the
    response is streamed. *)
Theorem success_has_no_error (c : Client) (ctx : context.Context)
    (method url : string) (data : RequestData) (w : World)
    (xs : list wire.Exchange) (x : wire.Exchange)
    (status : Z) (hdr : http.Header) (payload : list byte) :
  ruleAnswers data →
  exchanges (makeRequest o c ctx method url data w).2 = exchanges w ++ xs ++ [x] →
  wire.reply x = wire.Answered status hdr payload None →
  200 ≤ status ≤ 299 →
  ∃ bodyReader,
    (makeRequest o c ctx method url data w).1
    = Returns ({| Response.ReadCloser := Some bodyReader;
                  Response.Body :=
                    if RequestData.Stream data then None else Some payload;
                  Response.Header := Some hdr;
                  Response.StatusCode := status |}, None).
Proof.
  intros Hrule Hlast Hreply Hstatus.
  assert (isStatusSuccess status = true) as Hok.
  { unfold isStatusSuccess. apply andb_true_iff. split; lia. }
  destruct (makeRequest_last c ctx method url data w xs x Hrule Hlast)
    as (data' & vars & w2 & <- & Hsettled & ->).
  destruct (RequestData.Stream data') eqn:Hs.
  - destruct (makeRequest_result_streamed method url data' vars x w2 status hdr
                payload None Hsettled Hreply Hs Hok) as (live & _ & -> & _).
    by exists live.
  - destruct (makeRequest_result_buffered method url data' vars x w2 status hdr
                payload None Hsettled Hreply (or_introl Hs))
      as (live & mem & w3 & _ & _ & -> & _).
    rewrite Hok. by exists mem.
Qed.

(** X9. When the response is buffered and its body breaks while it is
    read, [makeRequest] returns the error of the read beside a [Response]
    that has the status, the header and the bytes read so far; for a
    status outside [200,299] too, the error is the one of the read and not
    the one that tells the status. *)
Theorem broken_body_error (c : Client) (ctx : context.Context)
    (method url : string) (data : RequestData) (w : World)
    (xs : list wire.Exchange) (x : wire.Exchange)
    (status : Z) (hdr : http.Header) (payload : list byte) (e : error) :
  ruleAnswers data →
  exchanges (makeRequest o c ctx method url data w).2 = exchanges w ++ xs ++ [x] →
  wire.reply x = wire.Answered status hdr payload (Some e) →
  RequestData.Stream data = false ∨ ¬ (200 ≤ status ≤ 299) →
  ∃ bodyReader,
    (makeRequest o c ctx method url data w).1
    = Returns ({| Response.ReadCloser := Some bodyReader;
                  Response.Body := Some payload;
                  Response.Header := Some hdr;
                  Response.StatusCode := status |}, Some e).
Proof.
  intros Hrule Hlast Hreply Hbuf.
  destruct (makeRequest_last c ctx method url data w xs x Hrule Hlast)
    as (data' & vars & w2 & Hstream & Hsettled & ->).
  assert (RequestData.Stream data' = false ∨ isStatusSuccess status = false)
    as Hbuf'.
  { destruct Hbuf as [Hs|Hst]; [left; congruence|right].
    unfold isStatusSuccess. apply andb_false_iff.
    destruct (decide (200 ≤ status)); [right|left]; lia. }
  destruct (makeRequest_result_buffered method url data' vars x w2 status hdr
              payload (Some e) Hsettled Hreply Hbuf')
    as (live & mem & w3 & _ & _ & -> & _).
  by exists mem.
Qed.

(** X10. Whether the response is streamed or buffered, reading the
    embedded reader of the [Response] to its end gives the payload of
    the last reply: the caller can always use the [Response] as an
    [io.ReadCloser].  A body that breaks on the way shows its error to
    this read only when the response is streamed; a buffered one reads
    to a clean end. *)
Theorem embedded_reader_gives_payload (c : Client) (ctx : context.Context)
    (method url : string) (data : RequestData) (w : World)
    (xs : list wire.Exchange) (x : wire.Exchange)
    (status : Z) (hdr : http.Header) (payload : list byte)
    (broken : option error) :
  ruleAnswers data →
  exchanges (makeRequest o c ctx method url data w).2 = exchanges w ++ xs ++ [x] →
  wire.reply x = wire.Answered status hdr payload broken →
  ∃ response err reader,
    (makeRequest o c ctx method url data w).1 = Returns (response, err)
    ∧ Response.ReadCloser response = Some reader
    ∧ (ReadAll reader (makeRequest o c ctx method url data w).2).1
      = Returns (payload,
                 if RequestData.Stream data && isStatusSuccess status
                 then broken else None).
Proof.
  intros Hrule Hlast Hreply.
  destruct (makeRequest_last c ctx method url data w xs x Hrule Hlast)
    as (data' & vars & w2 & <- & Hsettled & ->).
  destruct (RequestData.Stream data') eqn:Hs;
    [destruct (isStatusSuccess status) eqn:Hok|]; cbn [andb].
  - destruct (makeRequest_result_streamed method url data' vars x w2 status hdr
                payload broken Hsettled Hreply Hs Hok)
      as (live & _ & -> & Hstore).
    eexists _, _, live. split_and!; [done|done|].
    cbn [fst snd]. unfold ReadAll. by rewrite Hstore.
  - destruct (makeRequest_result_buffered method url data' vars x w2 status hdr
                payload broken Hsettled Hreply (or_intror Hok))
      as (live & mem & w3 & _ & _ & -> & _ & Hmem).
    eexists _, _, mem. split_and!; [done|done|].
    cbn [fst snd]. unfold ReadAll. by rewrite Hmem.
  - destruct (makeRequest_result_buffered method url data' vars x w2 status hdr
                payload broken Hsettled Hreply (or_introl Hs))
      as (live & mem & w3 & _ & _ & -> & _ & Hmem).
    eexists _, _, mem. split_and!; [done|done|].
    cbn [fst snd]. unfold ReadAll. by rewrite Hmem.
Qed.

(** X11. With a retry rule that answers when it is given a response or
    an error (the default rule is one), [makeRequest] returns and does
    not panic: the nil map of [Headers] is never written to, the rule is
    never asked about nothing, and no nil response is dereferenced.  And
    a nil error means success: the status is in [200,299], the
    [Response] has its reader, and it has its [Body] unless the caller
    asked for a stream. *)
Theorem nil_error_means_success (c : Client) (ctx : context.Context)
    (method url : string) (data : RequestData) (w : World) :
  ruleAnswers data →
  ∃ response err,
    (makeRequest o c ctx method url data w).1 = Returns (response, err)
    ∧ (err = None →
       200 ≤ Response.StatusCode response ≤ 299
       ∧ Response.ReadCloser response ≠ None
       ∧ (RequestData.Stream data = false → Response.Body response ≠ None)).
Proof.
  intros Hrule.
  destruct (makeRequest_run o c ctx method url data w)
    as [(e & w1 & _ & Hrun & _)
       |(bp & rb & data' & w1 & _ & Hstream & Hcases)].
  { rewrite Hrun. by eexists _, _. }
  destruct Hcases as [(e & events & w2 & Hrun & _)
                     |(h & out & xs & x & w2 & _ & _ & _ & _ & _ & Htotal & Hout)].
  { rewrite Hrun. by eexists _, _. }
  destruct (Htotal Hrule) as (vars & events & ->).
  destruct Hout as [Hsettled ->].
  destruct (wire.reply x) as [e|status hdr payload broken] eqn:Hreply.
  { rewrite (makeRequest_result_refused _ _ _ _ _ _ e Hsettled Hreply).
    by eexists _, _. }
  destruct (RequestData.Stream data') eqn:Hs;
    [destruct (isStatusSuccess status) eqn:Hok|].
  - destruct (makeRequest_result_streamed method url data' vars x w2 status hdr
                payload broken Hsettled Hreply Hs Hok) as (live & _ & -> & _).
    eexists _, _. split; [done|]. intros _. cbn.
    unfold isStatusSuccess in Hok. apply andb_true_iff in Hok.
    split_and!; [lia|lia|done|congruence].
  - destruct (makeRequest_result_buffered method url data' vars x w2 status hdr
                payload broken Hsettled Hreply (or_intror Hok))
      as (live & mem & w3 & _ & _ & -> & _).
    eexists _, _. split; [done|]. rewrite Hok. by destruct broken.
  - destruct (makeRequest_result_buffered method url data' vars x w2 status hdr
                payload broken Hsettled Hreply (or_introl Hs))
      as (live & mem & w3 & _ & _ & -> & _).
    eexists _, _. split; [done|]. cbn.
    destruct broken; [done|].
    destruct (isStatusSuccess status) eqn:Hok; [|done].
    intros _. unfold isStatusSuccess in Hok. apply andb_true_iff in Hok.
    split_and!; [lia|lia|done|done].
Qed.

(** X12. A body that cannot be encoded ends the call before anything
    else is done: the error of [json.Marshal] is returned as it is, the
    error of the multipart encoder behind the words "error building
    multipart data: ", both beside the zero [Response]; the transport is
    not called and the retry engine is not started. *)
Theorem encoding_error_before_any_call (c : Client) (ctx : context.Context)
    (method url : string) (data : RequestData) (w : World) :
  (∀ v e,
     RequestData.Body data = BodyOther v → dynJSON v = inl e →
     makeRequest o c ctx method url data w = (Returns (Response.zero, Some e), w))
  ∧ (∀ parts e store,
       RequestData.Body data = BodyReaders parts →
       RequestData.MaxRetries data ≤ 1 →
       newMultipartStream o parts (readers w) = (inl e, store) →
       makeRequest o c ctx method url data w
       = (Returns (Response.zero, Some ("error building multipart data: " +:+ e)),
          {| readers := store; exchanges := exchanges w; journal := journal w |})).
Proof.
  split.
  - intros v e Hbody Hjson.
    unfold makeRequest, makeRequest_body, bind, ret.
    change (RequestData.Body (SetDefaultsIfNecessary data))
      with (RequestData.Body data).
    rewrite Hbody. unfold json_Marshal. by rewrite Hjson.
  - intros parts e store Hbody Hretries Hbuild.
    unfold makeRequest, makeRequest_body, bind, ret.
    change (RequestData.Body (SetDefaultsIfNecessary data))
      with (RequestData.Body data).
    rewrite Hbody.
    assert ((1 <? RequestData.MaxRetries (SetDefaultsIfNecessary data)) = false)
      as ->.
    { apply Z.ltb_ge. unfold SetDefaultsIfNecessary.
      cbn [RequestData.MaxRetries].
      destruct (RequestData.MaxRetries data =? 0); lia. }
    by rewrite Hbuild.
Qed.

(** X13. [makeRequest] never reads [FollowRedirects]: whatever the
    field is set to, the call does the same and returns the same. *)
Theorem FollowRedirects_ignored (c : Client) (ctx : context.Context)
    (method url : string) (data : RequestData) (b : bool) (w : World) :
  makeRequest o c ctx method url (withFollowRedirects b data) w
  = makeRequest o c ctx method url data w.
Proof.
  unfold makeRequest.
  change (SetDefaultsIfNecessary (withFollowRedirects b data))
    with (withFollowRedirects b (SetDefaultsIfNecessary data)).
  generalize (SetDefaultsIfNecessary data) as d. intros d.
  unfold makeRequest_body, bind.
  change (RequestData.Body (withFollowRedirects b d)) with (RequestData.Body d).
  change (RequestData.MaxRetries (withFollowRedirects b d))
    with (RequestData.MaxRetries d).
  change (RequestData.Headers (withFollowRedirects b d))
    with (RequestData.Headers d).
  destruct (RequestData.Body d) as [|r|body|body|parts|v]; try reflexivity.
  - by destruct (1 <? RequestData.MaxRetries d).
  - destruct (1 <? RequestData.MaxRetries d); [done|].
    destruct (newMultipartStream o parts (readers w)) as [[e|[form ct]] store];
      [done|].
    by destruct (RequestData.Headers d).
  - unfold json_Marshal. by destruct (dynJSON v).
Qed.

(** X19. The calls of one [makeRequest] are bounded: the transport is
    called at most [max 1 MaxRetries] times, each time with the method
    and the url of the call. *)
Theorem calls_bounded (c : Client) (ctx : context.Context)
    (method url : string) (data : RequestData) (w : World) :
  ∃ calls,
    exchanges (makeRequest o c ctx method url data w).2 = exchanges w ++ calls
    ∧ Forall (λ x, wire.method (wire.sent x) = method
                   ∧ wire.url (wire.sent x) = url) calls
    ∧ (length calls ≤ Z.to_nat (Z.max 1 (RequestData.MaxRetries data)))%nat.
Proof.
  destruct (makeRequest_run o c ctx method url data w)
    as [(e & w1 & _ & Hrun & Hx & _)
       |(bp & rb & data' & w1 & _ & _ & Hcases)].
  { exists []. rewrite Hrun, app_nil_r. split_and!; [done|done|].
    apply Nat.le_0_l. }
  destruct Hcases as [(e & events & w2 & Hrun & Hx & _)
                     |(h & out & xs & x & w2 & _ & _ & Hx & Hall & Hlen & _ & Hout)].
  { exists []. rewrite Hrun, app_nil_r. split_and!; [done|done|].
    apply Nat.le_0_l. }
  exists (xs ++ [x]). split_and!.
  - destruct out as [[vars events]|msg].
    + destruct Hout as [_ ->].
      by rewrite (proj1 (makeRequest_result_frame _ _ _ _ _)).
    + by rewrite Hout.
  - eapply Forall_impl; [exact Hall|]. by intros y (? & ? & _).
  - rewrite length_app. cbn [length].
    assert (RequestData.MaxRetries (SetDefaultsIfNecessary data)
            = if RequestData.MaxRetries data =? 0 then 1
              else RequestData.MaxRetries data) as Hdef by done.
    rewrite Hdef in Hlen.
    destruct (RequestData.MaxRetries data =? 0) eqn:Hzero; lia.
Qed.

(** X20. No answer without a request: when [makeRequest] ends without
    having called the transport, it returns the zero [Response] and an
    error that is not nil. *)
Theorem nothing_sent_is_an_error (c : Client) (ctx : context.Context)
    (method url : string) (data : RequestData) (w : World) :
  exchanges (makeRequest o c ctx method url data w).2 = exchanges w →
  ∃ e, (makeRequest o c ctx method url data w).1
       = Returns (Response.zero, Some e).
Proof.
  intros Hnone.
  destruct (makeRequest_run o c ctx method url data w)
    as [(e & w1 & _ & Hrun & _)
       |(bp & rb & data' & w1 & _ & _ & Hcases)].
  { rewrite Hrun. by exists e. }
  destruct Hcases as [(e & events & w2 & Hrun & _)
                     |(h & out & xs & x & w2 & _ & _ & Hx & _ & _ & _ & Hout)].
  { rewrite Hrun. by exists e. }
  exfalso. apply (no_exchange w xs x). rewrite <- Hx, <- Hnone.
  destruct out as [[vars events]|msg].
  - destruct Hout as [_ ->].
    by rewrite (proj1 (makeRequest_result_frame _ _ _ _ _)).
  - by rewrite Hout.
Qed.

End Coverage.

Section Runs.

Variable o : Outside.

(** ** The store of readers along a call *)

(** One call of the transport: besides what it sends and answers, the
    stream it opens is a new reader, and every reader there was stays as
    it is, the body of the request apart. *)
Lemma Do_world (httpClient : http.Client) (req : http.Request) (w : World) :
  ∃ resp err x w',
    Do o httpClient req w = (Returns (resp, err), w')
    ∧ exchanges w' = exchanges w ++ [x]
    ∧ wire.header (wire.sent x) = http.ReqHeader req
    ∧ wire.body (wire.sent x)
      = match http.ReqBody req with
        | Some h => match readers w !! h with
                    | Some r => pending r
                    | None => []
                    end
        | None => []
        end
    ∧ settled resp err x w'
    ∧ (∀ k, wire.stream x = Some k → readers w !! k = None)
    ∧ (∀ k st, readers w !! k = Some st → http.ReqBody req ≠ Some k →
         readers w' !! k = Some st).
Proof.
  unfold Do.
  set (sentBytes := match http.ReqBody req with
                    | Some h => match readers w !! h with
                                | Some r => pending r
                                | None => []
                                end
                    | None => []
                    end).
  assert (∃ readErr w0,
             (match http.ReqBody req with
              | Some h => ReadAll h
              | None => ret ([], None)
              end) w = (Returns (sentBytes, readErr), w0)
             ∧ exchanges w0 = exchanges w
             ∧ (∀ k, readers w0 !! k = None → readers w !! k = None)
             ∧ (∀ k st, readers w !! k = Some st → http.ReqBody req ≠ Some k →
                  readers w0 !! k = Some st))
    as (readErr & w0 & Hread & Hx0 & Hnew & Hold).
  { subst sentBytes. destruct (http.ReqBody req) as [h|].
    - unfold ReadAll. destruct (readers w !! h) as [r|] eqn:Hr.
      + eexists _, _. split; [reflexivity|]. cbn. split_and!; [done| |].
        * intros k Hk. destruct (decide (h = k)) as [->|Hne].
          -- by rewrite lookup_insert_eq in Hk.
          -- by rewrite lookup_insert_ne in Hk.
        * intros k st Hk Hne. rewrite lookup_insert_ne; [done|congruence].
      + eexists _, _. split; [reflexivity|]. by split_and!.
    - eexists _, _. split; [reflexivity|]. by split_and!. }
  rewrite (bind_returns _ _ _ _ _ Hread).
  destruct readErr as [e|].
  { eexists _, _, _, _. split; [reflexivity|]. cbn.
    rewrite Hx0. split_and!; try done; eauto. }
  destruct (network o httpClient (length (exchanges w0)) _)
    as [e|status hdr payload broken].
  { eexists _, _, _, _. split; [reflexivity|]. cbn.
    rewrite Hx0. split_and!; try done; eauto. }
  set (live := fresh (dom (readers w0))).
  assert (readers w0 !! live = None) as Hlive.
  { apply not_elem_of_dom, is_fresh. }
  eexists _, _, _, _. split; [reflexivity|]. cbn -[fresh].
  rewrite Hx0. split_and!; try done.
  - unfold settled. cbn -[fresh]. exists live.
    by rewrite lookup_insert_eq.
  - intros k [= <-]. by apply Hnew.
  - intros k st Hk Hne. rewrite lookup_insert_ne; [by apply Hold|].
    intros <-. apply Hold in Hk; [|done]. congruence.
Qed.

(** One attempt that reaches the transport, with the store of readers. *)
Lemma attempt_world (ctx : context.Context) (method url : string)
    (data : RequestData) (httpClient : http.Client) (bytesPayload : bytes)
    (h : http.Header) (vars : Captured) (w : World) :
  newRequestError o method url = None →
  rangeHeaders o (default [] (RequestData.Headers data)) ∅ = inr h →
  ∃ out x w',
    makeRequest_attempt o ctx method url data httpClient bytesPayload vars w
    = (out, w')
    ∧ exchanges w' = exchanges w ++ [x]
    ∧ wire.header (wire.sent x) = h
    ∧ wire.body (wire.sent x)
      = match bytesPayload, requestBody vars with
        | Some p, _ => p
        | None, Some r => match readers w !! r with
                          | Some s => pending s
                          | None => []
                          end
        | None, None => []
        end
    ∧ (∃ resp err, settled resp err x w')
    ∧ (∀ k, wire.stream x = Some k → readers w !! k = None)
    ∧ (∀ k st, readers w !! k = Some st →
         (bytesPayload = None → requestBody vars ≠ Some k) →
         readers w' !! k = Some st)
    ∧ (∀ again vars', out = Returns (again, vars') →
         settled (resp vars') (err vars') x w'
         ∧ (bytesPayload = None → requestBody vars' = requestBody vars)).
Proof.
  intros Hreq Hhdr. unfold makeRequest_attempt.
  assert (∃ rb w0,
             (match bytesPayload with
              | Some payload => let* r := NewReader payload in ret (Some r)
              | None => ret (requestBody vars)
              end) w = (Returns rb, w0)
             ∧ exchanges w0 = exchanges w
             ∧ match rb with
               | Some r => match readers w0 !! r with
                           | Some s => pending s
                           | None => []
                           end
               | None => []
               end
               = match bytesPayload, requestBody vars with
                 | Some p, _ => p
                 | None, Some r => match readers w !! r with
                                   | Some s => pending s
                                   | None => []
                                   end
                 | None, None => []
                 end
             ∧ (∀ k, readers w0 !! k = None → readers w !! k = None)
             ∧ (∀ k st, readers w !! k = Some st →
                  (bytesPayload = None → requestBody vars ≠ Some k) →
                  readers w0 !! k = Some st ∧ rb ≠ Some k)
             ∧ (bytesPayload = None → rb = requestBody vars))
    as (rb & w0 & Hrb & Hx0 & Hbody & Hnew & Hold & Hsame).
  { destruct bytesPayload as [p|].
    - unfold bind, NewReader, ret. eexists _, _. split; [reflexivity|].
      cbn -[fresh]. rewrite lookup_insert_eq. cbn -[fresh].
      split_and!; try done.
      + intros k Hk. destruct (decide (fresh (dom (readers w)) = k)) as [<-|Hne].
        * by rewrite lookup_insert_eq in Hk.
        * by rewrite lookup_insert_ne in Hk.
      + intros k st Hk _.
        assert (fresh (dom (readers w)) ≠ k) as Hne.
        { intros <-. apply (is_fresh (dom (readers w))).
          apply elem_of_dom. eauto. }
        rewrite lookup_insert_ne by done. split; [done|congruence].
    - eexists _, _. split; [reflexivity|]. split_and!; try done.
      intros k st Hk Hne. split; [done|]. by apply Hne. }
  rewrite (bind_returns _ _ _ _ _ Hrb).
  unfold NewRequestWithContext. rewrite Hreq. cbn [http.ReqHeader].
  rewrite Hhdr. cbn [http.Method http.URL http.ReqBody].
  destruct (Do_world httpClient
              {| http.Method := method; http.URL := url; http.ReqHeader := h;
                 http.ReqBody := rb |} w0)
    as (resp' & err' & x & w1 & HDo & Hx1 & Hh & Hb & Hs & Hnew1 & Hold1).
  cbn [http.Method http.URL http.ReqHeader http.ReqBody] in *.
  rewrite (bind_returns _ _ _ _ _ HDo).
  assert (∀ k st, readers w !! k = Some st →
            (bytesPayload = None → requestBody vars ≠ Some k) →
            readers w1 !! k = Some st) as Hkeep.
  { intros k st Hk Hne. destruct (Hold k st Hk Hne) as [Hk0 Hne0].
    by apply Hold1. }
  destruct (RequestData.RetryRule data) as [rule|].
  - unfold bind, call, ret.
    destruct (rule resp' err') as [again|msg].
    + eexists _, x, w1. split; [reflexivity|].
      rewrite Hx1, Hx0, Hb, Hbody. split_and!; try done; eauto.
      intros ? ? [= <- <-]. cbn. split; [done|]. done.
    + eexists _, x, w1. split; [reflexivity|].
      rewrite Hx1, Hx0, Hb, Hbody. split_and!; try done; eauto.
  - eexists _, x, w1. split; [reflexivity|].
    rewrite Hx1, Hx0, Hb, Hbody. split_and!; try done; eauto.
Qed.

(** The retry engine around such attempts, when the body of the request
    is rebuilt for every attempt or there is none: the readers there were
    stay as they are, every stream is a new reader, and the stream of a
    response that was retried over is still as the transport opened
    it. *)
Lemma retryLoop_world (ctx : context.Context) (maxDelay : Duration)
    (method url : string) (data : RequestData) (httpClient : http.Client)
    (bytesPayload : bytes) (h : http.Header) :
  newRequestError o method url = None →
  rangeHeaders o (default [] (RequestData.Headers data)) ∅ = inr h →
  ∀ remaining n delay vars w,
    bytesPayload ≠ None ∨ requestBody vars = None →
    ∃ out xs x w',
      retryLoop ctx maxDelay
        (makeRequest_attempt o ctx method url data httpClient bytesPayload)
        remaining n delay vars w = (out, w')
      ∧ exchanges w' = exchanges w ++ xs ++ [x]
      ∧ (∀ k st, readers w !! k = Some st → readers w' !! k = Some st)
      ∧ Forall (λ y, ∀ k, wire.stream y = Some k → readers w !! k = None)
               (xs ++ [x])
      ∧ Forall (λ y, ∀ status hdr payload broken,
                  wire.reply y = wire.Answered status hdr payload broken →
                  ∃ k, wire.stream y = Some k
                       ∧ wire.stream x ≠ Some k
                       ∧ readers w' !! k
                         = Some {| pending := payload; failure := broken;
                                   closed := false |}) xs
      ∧ (∀ vars' events, out = Returns (vars', events) →
           settled (resp vars') (err vars') x w').
Proof.
  intros Hreq Hhdr remaining.
  induction remaining as [|r IH]; intros n delay vars w Hinv;
    destruct (attempt_world ctx method url data httpClient bytesPayload h
                vars w Hreq Hhdr)
      as (out1 & x1 & w1 & H1 & Hx1 & _ & _ & _ & Hnew1 & Hold1 & Hret1);
    assert (∀ k st, readers w !! k = Some st → readers w1 !! k = Some st)
      as Hkeep1
      by (intros k st Hk; apply Hold1; [done|];
          intros Hnil; destruct Hinv as [? | Hrb]; [done|congruence]);
    cbn [retryLoop]; unfold bind at 1; rewrite H1;
    destruct out1 as [[again v1]|msg].
  - exists (Returns (v1, [Attempt])), [], x1, w1.
    split_and!; try done.
    + by apply Forall_singleton.
    + intros ? ? [= <- <-]. by apply (Hret1 again).
  - exists (Panics msg), [], x1, w1. split_and!; try done.
    by apply Forall_singleton.
  - destruct (Hret1 again v1 eq_refl) as [Hs1 Hsame1].
    destruct again; cbn [negb]; [destruct (context.Done ctx n)|].
    + exists (Returns (v1, [Attempt; Cancelled])), [], x1, w1.
      split_and!; try done.
      * by apply Forall_singleton.
      * by intros ? ? [= <- <-].
    + destruct (IH (S n) (2 * delay) v1 w1)
        as (out2 & xs2 & x2 & w2 & H2 & Hx2 & Hkeep2 & Hnew2 & Hopen2 & Hret2).
      { destruct Hinv as [?|Hnil]; [by left|].
        destruct bytesPayload; [by left|right]. by rewrite Hsame1. }
      assert (Forall (λ y, ∀ k, wire.stream y = Some k → readers w !! k = None)
                     (xs2 ++ [x2])) as Hnew2'.
      { eapply Forall_impl; [exact Hnew2|]. intros y Hy k Hk.
        specialize (Hy k Hk). destruct (readers w !! k) as [st|] eqn:Hst; [|done].
        apply Hkeep1 in Hst. congruence. }
      assert (∀ status hdr payload broken,
                wire.reply x1 = wire.Answered status hdr payload broken →
                ∃ k, wire.stream x1 = Some k
                     ∧ wire.stream x2 ≠ Some k
                     ∧ readers w2 !! k
                       = Some {| pending := payload; failure := broken;
                                 closed := false |}) as Hopen1.
      { intros status hdr payload broken Hreply.
        unfold settled in Hs1. rewrite Hreply in Hs1.
        destruct Hs1 as (k & Hk & _ & _ & Hstore).
        exists k. split_and!; [done| |by apply Hkeep2].
        intros Hk2. apply Forall_app in Hnew2 as [_ Hlast].
        rewrite Forall_singleton in Hlast. specialize (Hlast k Hk2). congruence. }
      unfold bind. rewrite H2.
      exists (match out2 with
              | Returns (v2, ev2) =>
                  Returns (v2, Attempt :: Sleep (Z.min delay maxDelay) :: ev2)
              | Panics msg => Panics msg
              end), (x1 :: xs2), x2, w2.
      split_and!.
      * by destruct out2 as [[v2 ev2]|msg].
      * rewrite Hx2, Hx1. by rewrite <- app_assoc.
      * intros k st Hk. by apply Hkeep2, Hkeep1.
      * cbn [app]. by apply Forall_cons.
      * by apply Forall_cons.
      * intros v' ev'. destruct out2 as [[v2 ev2]|msg]; [|done].
        intros [= <- <-]. by eapply Hret2.
    + exists (Returns (v1, [Attempt])), [], x1, w1.
      split_and!; try done.
      * by apply Forall_singleton.
      * by intros ? ? [= <- <-].
  - exists (Panics msg), [], x1, w1. split_and!; try done.
    by apply Forall_singleton.
Qed.

(** What follows the retry engine reads and closes the body of the last
    response and no other reader. *)
Lemma makeRequest_result_keeps (method url : string) (data : RequestData)
    (vars : Captured) (w : World) (k : Handle) (st : ReaderState) :
  readers w !! k = Some st →
  (∀ r, resp vars = Some r → http.Body r ≠ k) →
  readers (makeRequest_result method url data vars w).2 !! k = Some st.
Proof.
  intros Hk Hbody. unfold makeRequest_result.
  destruct (err vars); [done|].
  destruct (resp vars) as [r|]; [|done].
  specialize (Hbody r eq_refl).
  destruct (negb (RequestData.Stream data)
            || negb (isStatusSuccess (http.StatusCode r))); [|done].
  unfold bind, ReadAll, Close, NewReader, ret.
  destruct (readers w !! http.Body r) as [s|] eqn:Hs.
  - cbn -[fresh]. rewrite lookup_insert_eq. cbn -[fresh].
    rewrite insert_insert_eq.
    set (store := <[http.Body r := _]> (readers w)).
    assert (store !! k = Some st) as Hstore.
    { subst store. by rewrite lookup_insert_ne. }
    rewrite lookup_insert_ne; [done|].
    intros Heq. apply (is_fresh (dom store)). rewrite Heq.
    apply elem_of_dom. eauto.
  - cbn -[fresh]. rewrite Hs. cbn -[fresh].
    rewrite lookup_insert_ne; [done|].
    intros Heq. apply (is_fresh (dom (readers w))). rewrite Heq.
    apply elem_of_dom. eauto.
Qed.

(** What the type switch on the body leaves as it is. *)
Lemma makeRequest_body_keeps (d : RequestData) (w : World)
    (bytesPayload : bytes) (rb : option Handle) (d' : RequestData)
    (w1 : World) :
  makeRequest_body o d w = (Returns (inr (bytesPayload, rb, d')), w1) →
  exchanges w1 = exchanges w
  ∧ RequestData.MaxRetries d' = RequestData.MaxRetries d
  ∧ (bytesPayload = None → rb ≠ None → RequestData.MaxRetries d ≤ 1)
  ∧ ((∀ parts, RequestData.Body d ≠ BodyReaders parts) → d' = d ∧ w1 = w)
  ∧ (∀ r, RequestData.Body d = BodyReader r →
       bytesPayload = None ∧ rb = Some r)
  ∧ RequestData.BaseRetryDelay d' = RequestData.BaseRetryDelay d
  ∧ RequestData.MaxRetryDelay d' = RequestData.MaxRetryDelay d.
Proof.
  unfold makeRequest_body.
  destruct (RequestData.Body d) as [|r|body|body|parts|v] eqn:Hbody.
  - intros [= <- <- <- <-]. by split_and!.
  - destruct (1 <? RequestData.MaxRetries d) eqn:Hmax; [done|].
    intros [= <- <- <- <-]. apply Z.ltb_ge in Hmax.
    split_and!; try done. by intros ? [= <-].
  - intros [= <- <- <- <-]. by split_and!.
  - intros [= <- <- <- <-]. by split_and!.
  - destruct (1 <? RequestData.MaxRetries d) eqn:Hmax; [done|].
    apply Z.ltb_ge in Hmax. unfold bind.
    destruct (newMultipartStream o parts (readers w)) as [[e|[form ct]] store];
      [done|].
    destruct (RequestData.Headers d) as [entries|]; [|done].
    intros [= <- <- <- <-]. split_and!; try done.
    intros Hno. by destruct (Hno parts).
  - unfold json_Marshal. destruct (dynJSON v); [done|].
    intros [= <- <- <- <-]. by split_and!.
Qed.

(** X14. [makeRequest] neither reads nor closes the body of a response
    it retries over: after the call, the stream of every answer but the
    last is still open, with the whole payload pending.  Only the body
    of the last response is read and closed (or handed to the caller,
    when it is streamed). *)
Theorem retried_responses_left_open (c : Client) (ctx : context.Context)
    (method url : string) (data : RequestData) (w : World)
    (xs : list wire.Exchange) (x : wire.Exchange) :
  exchanges (makeRequest o c ctx method url data w).2 = exchanges w ++ xs ++ [x] →
  Forall (λ y, ∀ status hdr payload broken,
            wire.reply y = wire.Answered status hdr payload broken →
            ∃ k, wire.stream y = Some k
                 ∧ readers (makeRequest o c ctx method url data w).2 !! k
                   = Some {| pending := payload; failure := broken;
                             closed := false |}) xs.
Proof.
  intros Hlast.
  destruct (makeRequest_run o c ctx method url data w)
    as [(e & w1 & _ & Hrun & Hx & _)
       |(bp & rb & data' & w1 & Hbody & _ & Hcases)].
  { rewrite Hrun in Hlast. cbn in Hlast. rewrite Hx in Hlast.
    by apply no_exchange in Hlast. }
  destruct Hcases as [(e & events & w2 & Hrun & Hx & _)
                     |(h & out & xs' & x' & w2 & Hreq & Hhdr & Hx & _ & Hlen & _ & Hout)].
  { rewrite Hrun in Hlast. cbn in Hlast. rewrite Hx in Hlast.
    by apply no_exchange in Hlast. }
  destruct (makeRequest_body_keeps _ _ _ _ _ _ Hbody)
    as (Hx1 & Hmax & Hsingle & _).
  assert (xs' = xs) as ->.
  { assert (exchanges (makeRequest o c ctx method url data w).2
            = exchanges w ++ xs' ++ [x']) as Hlast'.
    { destruct out as [[vars events]|msg].
      - destruct Hout as [_ ->].
        by rewrite (proj1 (makeRequest_result_frame _ _ _ _ _)).
      - by rewrite Hout. }
    rewrite Hlast in Hlast'. apply app_inv_head in Hlast'.
    by apply app_inj_tail in Hlast' as [? _]. }
  destruct (decide (bp = None ∧ rb ≠ None)) as [[Hbp Hrb]|Hinv].
  { (* a single-use body: one attempt *)
    specialize (Hsingle Hbp Hrb).
    assert (length xs = 0%nat) as Hnil by lia.
    apply length_zero_iff_nil in Hnil. subst xs. apply Forall_nil_2. }
  clear Hout Hx.
  assert (bp ≠ None ∨ rb = None) as Hinv'.
  { destruct bp; [by left|]. destruct rb; [|by right].
    destruct Hinv. by split. }
  unfold makeRequest. rewrite (bind_returns _ _ _ _ _ Hbody). unfold Retry.
  unfold makeRequest in Hlast. rewrite (bind_returns _ _ _ _ _ Hbody) in Hlast.
  unfold Retry in Hlast.
  destruct (retryLoop_world ctx (RequestData.MaxRetryDelay data') method url data'
              {| http.Timeout := timeout c;
                 http.TLSClientConfig := RequestData.TLSConfig data' |}
              bp h Hreq Hhdr
              (Z.to_nat (RequestData.MaxRetries data' - 1)) O
              (RequestData.BaseRetryDelay data')
              {| requestBody := rb; resp := None; err := None |} w1 Hinv')
    as (out2 & xs2 & x2 & w3 & Hloop & Hx3 & _ & _ & Hopen & Hret).
  unfold bind at 1. unfold bind at 1 in Hlast. rewrite Hloop. rewrite Hloop in Hlast.
  destruct out2 as [[vars events]|msg].
  - unfold bind, log. unfold bind, log in Hlast.
    set (w4 := {| readers := readers w3; exchanges := exchanges w3;
                  journal := journal w3 ++ events |}) in *.
    rewrite (proj1 (makeRequest_result_frame _ _ _ _ _)) in Hlast.
    cbn [exchanges w4] in Hlast. subst w4. cbn [exchanges] in Hlast.
    rewrite Hx3, Hx1 in Hlast. apply app_inv_head in Hlast.
    apply app_inj_tail in Hlast as [-> ->].
    eapply Forall_impl; [exact Hopen|].
    intros y Hy status hdr payload broken Hreply.
    destruct (Hy status hdr payload broken Hreply) as (k & Hk & Hne & Hstore).
    exists k. split; [done|].
    apply makeRequest_result_keeps; [done|].
    intros r Hr Hbody'. specialize (Hret vars events eq_refl).
    unfold settled in Hret. rewrite Hr in Hret.
    destruct (wire.reply x) as [e|status' hdr' payload' broken'].
    + by destruct Hret.
    + destruct Hret as (k' & Hk' & [= ->] & _). cbn in Hbody'. congruence.
  - cbn [snd] in Hlast. rewrite Hx3, Hx1 in Hlast.
    apply app_inv_head in Hlast. apply app_inj_tail in Hlast as [-> ->].
    eapply Forall_impl; [exact Hopen|].
    intros y Hy status hdr payload broken Hreply.
    destruct (Hy status hdr payload broken Hreply) as (k & Hk & Hne & Hstore).
    by exists k.
Qed.

(** ** Calls of one attempt *)

(** With at most one attempt allowed, a request that can be built is
    sent once, with the bytes of the payload or of the reader. *)
Lemma makeRequest_single (c : Client) (ctx : context.Context)
    (method url : string) (data : RequestData) (w : World)
    (bytesPayload : bytes) (rb : option Handle) (data' : RequestData)
    (w1 : World) (h : http.Header) :
  makeRequest_body o (SetDefaultsIfNecessary data) w
  = (Returns (inr (bytesPayload, rb, data')), w1) →
  RequestData.MaxRetries data' ≤ 1 →
  newRequestError o method url = None →
  rangeHeaders o (default [] (RequestData.Headers data')) ∅ = inr h →
  ∃ x,
    exchanges (makeRequest o c ctx method url data w).2 = exchanges w ++ [x]
    ∧ wire.header (wire.sent x) = h
    ∧ wire.body (wire.sent x)
      = match bytesPayload, rb with
        | Some p, _ => p
        | None, Some r => match readers w1 !! r with
                          | Some s => pending s
                          | None => []
                          end
        | None, None => []
        end.
Proof.
  intros Hbody Hmax Hreq Hhdr.
  destruct (makeRequest_body_keeps _ _ _ _ _ _ Hbody) as (Hx1 & _).
  unfold makeRequest. rewrite (bind_returns _ _ _ _ _ Hbody). unfold Retry.
  replace (Z.to_nat (RequestData.MaxRetries data' - 1)) with O by lia.
  cbn [retryLoop].
  destruct (attempt_world ctx method url data'
              {| http.Timeout := timeout c;
                 http.TLSClientConfig := RequestData.TLSConfig data' |}
              bytesPayload h {| requestBody := rb; resp := None; err := None |}
              w1 Hreq Hhdr)
    as (out & x & w2 & Hatt & Hx2 & Hh & Hb & _).
  exists x. unfold bind at 1. unfold bind at 1. rewrite Hatt.
  destruct out as [[again vars]|msg].
  - unfold ret, bind, log.
    rewrite (proj1 (makeRequest_result_frame _ _ _ _ _)). cbn [exchanges].
    rewrite Hx2, Hx1. by split_and!.
  - cbn [snd]. rewrite Hx2, Hx1. by split_and!.
Qed.

Lemma defaults_headers (data : RequestData) :
  default [] (RequestData.Headers (SetDefaultsIfNecessary data))
  = default [] (RequestData.Headers data).
Proof. cbn. by destruct (RequestData.Headers data). Qed.

Lemma defaults_retries (data : RequestData) :
  RequestData.MaxRetries data ≤ 1 →
  (1 <? RequestData.MaxRetries (SetDefaultsIfNecessary data)) = false.
Proof.
  intros Hmax. apply Z.ltb_ge. cbn.
  destruct (RequestData.MaxRetries data =? 0); lia.
Qed.

(** X15. A reader as body, with at most one attempt allowed: when the
    request can be built and the headers are valid, the transport is
    called exactly once, and what it sends is what the reader of the
    caller had pending. *)
Theorem reader_body_sent_once (c : Client) (ctx : context.Context)
    (method url : string) (data : RequestData) (w : World) (r : Handle) :
  RequestData.Body data = BodyReader r →
  RequestData.MaxRetries data ≤ 1 →
  newRequestError o method url = None →
  (∀ k v, (k, HOther v) ∉ default [] (RequestData.Headers data)) →
  ∃ x,
    exchanges (makeRequest o c ctx method url data w).2 = exchanges w ++ [x]
    ∧ wire.method (wire.sent x) = method
    ∧ wire.url (wire.sent x) = url
    ∧ wire.body (wire.sent x)
      = match readers w !! r with
        | Some s => pending s
        | None => []
        end.
Proof.
  intros Hbody Hmax Hreq Hvalid.
  destruct (rangeHeaders_valid o _ Hvalid ∅) as [h Hhdr].
  rewrite <- defaults_headers in Hhdr.
  assert (makeRequest_body o (SetDefaultsIfNecessary data) w
          = (Returns (inr (None, Some r, SetDefaultsIfNecessary data)), w))
    as Hprep.
  { unfold makeRequest_body.
    change (RequestData.Body (SetDefaultsIfNecessary data))
      with (RequestData.Body data).
    by rewrite Hbody, defaults_retries. }
  destruct (makeRequest_single c ctx method url data w _ _ _ _ h Hprep)
    as (x & Hx & _ & Hb); [|done|done|].
  { apply Z.ltb_ge. by apply defaults_retries. }
  destruct (makeRequest_calls o c ctx method url data w) as (calls & Hcalls & Hall).
  rewrite Hx in Hcalls. apply app_inv_head in Hcalls. subst calls.
  rewrite Forall_singleton in Hall. destruct Hall as [Hm Hu].
  exists x. by split_and!.
Qed.

Lemma assign_elem (key : string) (value : HeaderValue)
    (entries : list (string * HeaderValue)) :
  (key, value) ∈ assign key value entries.
Proof.
  induction entries as [|[k v] rest IH]; cbn [assign].
  - by apply list_elem_of_singleton.
  - destruct (bool_decide (k = key)).
    + apply elem_of_cons. by left.
    + apply elem_of_cons. by right.
Qed.

(** X16. A [map[string]io.Reader] as body, with at most one attempt
    allowed and a form the encoder can build: the transport is called
    once, what it sends is the encoded form, and the request goes out
    with the content type of the form under [Content-Type], written over
    the one the caller gave. *)
Theorem multipart_body_sent (c : Client) (ctx : context.Context)
    (method url : string) (data : RequestData) (w : World)
    (parts : list (string * Handle)) (form : Handle) (contentType : string)
    (store : gmap Handle ReaderState) :
  RequestData.Body data = BodyReaders parts →
  RequestData.MaxRetries data ≤ 1 →
  newMultipartStream o parts (readers w) = (inr (form, contentType), store) →
  newRequestError o method url = None →
  (∀ k v, (k, HOther v)
          ∉ assign "Content-Type" (HString contentType)
              (default [] (RequestData.Headers data))) →
  NoDup (headerKey o <$> assign "Content-Type" (HString contentType)
                           (default [] (RequestData.Headers data))) →
  ∃ x,
    exchanges (makeRequest o c ctx method url data w).2 = exchanges w ++ [x]
    ∧ wire.body (wire.sent x)
      = match store !! form with
        | Some s => pending s
        | None => []
        end
    ∧ wire.header (wire.sent x) !! CanonicalMIMEHeaderKey o "Content-Type"
      = Some [contentType].
Proof.
  intros Hbody Hmax Hbuild Hreq Hvalid Hdup.
  destruct (rangeHeaders_valid o _ Hvalid ∅) as [h Hhdr].
  set (d := SetDefaultsIfNecessary data).
  set (d' := {| RequestData.Body := RequestData.Body d;
                RequestData.Headers :=
                  Some (assign "Content-Type" (HString contentType)
                          (default [] (RequestData.Headers data)));
                RequestData.MaxRetries := RequestData.MaxRetries d;
                RequestData.BaseRetryDelay := RequestData.BaseRetryDelay d;
                RequestData.MaxRetryDelay := RequestData.MaxRetryDelay d;
                RequestData.RetryRule := RequestData.RetryRule d;
                RequestData.TLSConfig := RequestData.TLSConfig d;
                RequestData.FollowRedirects := RequestData.FollowRedirects d;
                RequestData.Stream := RequestData.Stream d |}).
  assert (makeRequest_body o d w
          = (Returns (inr (None, Some form, d')),
             {| readers := store; exchanges := exchanges w;
                journal := journal w |})) as Hprep.
  { unfold makeRequest_body.
    change (RequestData.Body d) with (RequestData.Body data).
    rewrite Hbody. subst d. rewrite defaults_retries by done.
    unfold bind. rewrite Hbuild. subst d'. cbn. rewrite Hbody.
    by destruct (RequestData.Headers data). }
  destruct (makeRequest_single c ctx method url data w _ _ _ _ h Hprep)
    as (x & Hx & Hh & Hb); [|done|done|].
  { apply Z.ltb_ge. by apply defaults_retries. }
  exists x. split_and!; [done|done|].
  rewrite Hh.
  apply (rangeHeaders_lookup o _ ∅ h Hhdr Hdup "Content-Type" (HString contentType)).
  apply assign_elem.
Qed.

(** ** The header of the request *)

(** The entry that is visited last under a key of the request header
    gives the key its values. *)
Lemma rangeHeaders_last (pre post : list (string * HeaderValue))
    (k : string) (value : HeaderValue) (h0 h : http.Header) :
  rangeHeaders o (pre ++ (k, value) :: post) h0 = inr h →
  headerKey o (k, value) ∉ headerKey o <$> post →
  h !! headerKey o (k, value) = Some (headerValues value).
Proof.
  revert h0. induction pre as [|[k0 v0] pre IH]; intros h0 Hrun Hlast.
  - cbn [app rangeHeaders] in Hrun. destruct value as [v|v|v]; [| |done].
    + rewrite (rangeHeaders_other o _ _ _ _ Hrun Hlast).
      unfold headerKey. cbn. by rewrite lookup_insert_eq.
    + rewrite (rangeHeaders_other o _ _ _ _ Hrun Hlast).
      unfold headerKey. cbn. by rewrite lookup_insert_eq.
  - cbn [app rangeHeaders] in Hrun. destruct v0 as [v|v|v]; [| |done].
    + by apply (IH _ Hrun).
    + by apply (IH _ Hrun).
Qed.

(** With values that are all of a valid type and no two entries that
    write to the same key, the header does not depend on the order in
    which the entries are visited. *)
Lemma rangeHeaders_any_order (entries order : list (string * HeaderValue)) :
  entries ≡ₚ order →
  (∀ k v, (k, HOther v) ∉ entries) →
  NoDup (headerKey o <$> entries) →
  ∀ h0, rangeHeaders o order h0 = rangeHeaders o entries h0.
Proof.
  induction 1 as [|[k value] l l' Hperm IH|[k1 v1] [k2 v2] l|l l' l'' H1 IH1 H2 IH2];
    intros Hvalid Hdup h0.
  - done.
  - assert (∀ k v, (k, HOther v) ∉ l) as Hvalid'.
    { intros k' v' Hin. apply (Hvalid k' v'). by apply elem_of_cons; right. }
    apply NoDup_cons in Hdup as [_ Hdup].
    destruct value as [v|v|v]; cbn [rangeHeaders].
    + by apply IH.
    + by apply IH.
    + destruct (Hvalid k v). by apply elem_of_cons; left.
  - apply NoDup_cons in Hdup as [Hne _].
    assert (headerKey o (k2, v2) ≠ headerKey o (k1, v1)) as Hkeys.
    { intros Heq. apply Hne. rewrite Heq. cbn [fmap list_fmap].
      apply elem_of_cons. by left. }
    destruct v1 as [v1|v1|v1]; [| |destruct (Hvalid k1 v1);
      apply elem_of_cons; right; apply elem_of_cons; by left];
    (destruct v2 as [v2|v2|v2]; [| |destruct (Hvalid k2 v2);
      apply elem_of_cons; by left]);
    cbn [rangeHeaders]; unfold headerKey in Hkeys; cbn in Hkeys;
    by rewrite insert_insert_ne.
  - rewrite IH2, IH1; try done.
    + intros k v Hin. apply (Hvalid k v). by rewrite H1.
    + by rewrite <- H1.
Qed.

(** X17. With header values that are all a [string] or a [[]string],
    and no two entries that write to the same key of the request header,
    every request [makeRequest] sends carries one header, the same in
    whatever order the entries are visited, built from [data.Headers] and
    nothing else: a [string] is found under the canonical form of its key,
    a [[]string] under the key as the caller wrote it, and a key no entry
    writes to is absent. *)
Theorem request_headers_sent (c : Client) (ctx : context.Context)
    (method url : string) (data : RequestData) (w : World) :
  (∀ parts, RequestData.Body data ≠ BodyReaders parts) →
  (∀ k v, (k, HOther v) ∉ default [] (RequestData.Headers data)) →
  NoDup (headerKey o <$> default [] (RequestData.Headers data)) →
  ∃ h,
    (∀ order, default [] (RequestData.Headers data) ≡ₚ order →
       rangeHeaders o order ∅ = inr h)
    ∧ (∀ k v, (k, HString v) ∈ default [] (RequestData.Headers data) →
         h !! CanonicalMIMEHeaderKey o k = Some [v])
    ∧ (∀ k v, (k, HStrings v) ∈ default [] (RequestData.Headers data) →
         h !! k = Some v)
    ∧ (∀ key, key ∉ headerKey o <$> default [] (RequestData.Headers data) →
         h !! key = None)
    ∧ ∃ calls,
        exchanges (makeRequest o c ctx method url data w).2 = exchanges w ++ calls
        ∧ Forall (λ x, wire.header (wire.sent x) = h) calls.
Proof.
  intros Hplain Hvalid Hdup.
  destruct (rangeHeaders_valid o _ Hvalid ∅) as [h Hhdr].
  exists h. split_and!.
  - intros order Hperm. by rewrite (rangeHeaders_any_order _ _ Hperm Hvalid Hdup).
  - intros k v Hin.
    apply (rangeHeaders_lookup o _ ∅ h Hhdr Hdup k (HString v) Hin).
  - intros k v Hin.
    apply (rangeHeaders_lookup o _ ∅ h Hhdr Hdup k (HStrings v) Hin).
  - intros key Hkey. by rewrite (rangeHeaders_other o _ _ _ _ Hhdr Hkey).
  - destruct (makeRequest_run o c ctx method url data w)
      as [(e & w1 & _ & Hrun & Hx & _)
         |(bp & rb & data' & w1 & Hbody & _ & Hcases)].
    { exists []. rewrite Hrun, app_nil_r. by split. }
    destruct Hcases as [(e & events & w2 & Hrun & Hx & _)
                       |(h' & out & xs & x & w2 & _ & Hhdr' & Hx & Hall & _ & _ & Hout)].
    { exists []. rewrite Hrun, app_nil_r. by split. }
    destruct (makeRequest_body_keeps _ _ _ _ _ _ Hbody) as (_ & _ & _ & Hsame & _).
    destruct Hsame as [-> ->]; [done|].
    rewrite defaults_headers, Hhdr in Hhdr'. injection Hhdr' as <-.
    exists (xs ++ [x]). split.
    + destruct out as [[vars events]|msg].
      * destruct Hout as [_ ->].
        by rewrite (proj1 (makeRequest_result_frame _ _ _ _ _)).
      * by rewrite Hout.
    + eapply Forall_impl; [exact Hall|]. by intros y (_ & _ & -> & _).
Qed.

(** ** A request that cannot be built *)

Lemma invoke_quiet {F : Type} (attempt : F → M (bool * F)) (Q : F → Prop) :
  (∀ vars w, ∃ again vars' w',
      attempt vars w = (Returns (again, vars'), w')
      ∧ Q vars' ∧ exchanges w' = exchanges w ∧ journal w' = journal w) →
  ∀ k vars w,
    Q (invoke attempt (S k) vars w).1
    ∧ exchanges (invoke attempt (S k) vars w).2 = exchanges w
    ∧ journal (invoke attempt (S k) vars w).2 = journal w.
Proof.
  intros Hstep k. induction k as [|k IH]; intros vars w;
    destruct (Hstep vars w) as (again & v1 & w1 & H1 & HQ & Hx & Hj).
  - cbn [invoke]. rewrite H1. by cbn.
  - change (invoke attempt (S (S k)) vars w)
      with (match attempt vars w with
            | (Returns (_, vars'), w') => invoke attempt (S k) vars' w'
            | (Panics _, w') => (vars, w')
            end).
    rewrite H1. destruct (IH v1 w1) as (? & ? & ?). split_and!; congruence.
Qed.

(** X18. When the request cannot be built (a method or a url that
    [http.NewRequestWithContext] refuses), the closure asks for a retry:
    with a token that is not cancelled the engine goes through all the
    attempts and all the sleeps of the backoff, the transport is never
    called, and the call ends with the error of the first line of every
    attempt beside the zero [Response]. *)
Theorem unbuildable_request_retried (c : Client) (ctx : context.Context)
    (method url : string) (data : RequestData) (w : World) (e : error)
    (bytesPayload : bytes) (body : option Handle) (data' : RequestData)
    (w1 : World) :
  newRequestError o method url = Some e →
  makeRequest_body o (SetDefaultsIfNecessary data) w
  = (Returns (inr (bytesPayload, body, data')), w1) →
  (∀ n, context.Done ctx n = false) →
  ∃ w',
    makeRequest o c ctx method url data w = (Returns (Response.zero, Some e), w')
    ∧ exchanges w' = exchanges w
    ∧ journal w'
      = journal w
        ++ backoffSchedule
             (RequestData.BaseRetryDelay (SetDefaultsIfNecessary data))
             (RequestData.MaxRetryDelay (SetDefaultsIfNecessary data))
             (Z.to_nat (Z.max 1 (RequestData.MaxRetries (SetDefaultsIfNecessary data)))).
Proof.
  intros Hreq Hbody Hctx.
  destruct (makeRequest_body_keeps _ _ _ _ _ _ Hbody)
    as (Hx1 & Hmax & _ & _ & _ & Hbase & Hcap).
  destruct (makeRequest_body_spec o (SetDefaultsIfNecessary data) w)
    as (prepared & w1' & Hbody' & _ & Hj1 & _).
  { cbn. by destruct (RequestData.Headers data). }
  rewrite Hbody in Hbody'. injection Hbody' as <- <-.
  unfold makeRequest. rewrite (bind_returns _ _ _ _ _ Hbody). unfold Retry.
  set (httpClient := {| http.Timeout := timeout c;
                        http.TLSClientConfig := RequestData.TLSConfig data' |}).
  set (attempt := makeRequest_attempt o ctx method url data' httpClient
                    bytesPayload).
  assert (∀ vars w0, ∃ again vars' w',
             attempt vars w0 = (Returns (again, vars'), w')
             ∧ err vars' = Some e
             ∧ exchanges w' = exchanges w0 ∧ journal w' = journal w0) as Hstep.
  { intros vars w0. subst attempt.
    destruct (attempt_no_request o ctx method url data' httpClient bytesPayload e vars w0
                Hreq) as (v' & w' & ? & ? & ? & ?).
    by exists true, v', w'. }
  assert (∀ vars w0, ∃ vars' w', attempt vars w0 = (Returns (true, vars'), w'))
    as Halways.
  { intros vars w0. subst attempt.
    destruct (attempt_no_request o ctx method url data' httpClient bytesPayload e vars w0
                Hreq) as (v' & w' & ? & _).
    by exists v', w'. }
  unfold bind at 1.
  rewrite (retryLoop_always ctx _ attempt Hctx Halways).
  destruct (invoke_quiet attempt (λ v, err v = Some e) Hstep
              (Z.to_nat (RequestData.MaxRetries data' - 1))
              {| requestBody := body; resp := None; err := None |} w1)
    as (Herr & Hx & Hj).
  unfold bind, log, makeRequest_result. rewrite Herr.
  eexists. split; [reflexivity|]. cbn [exchanges journal].
  rewrite Hx, Hj, Hx1, Hj1, Hbase, Hcap, Hmax. split; [done|].
  do 2 f_equal. lia.
Qed.

End Runs.

Section Rebuild.

Variable o : Outside.

(** ** The body of the request, attempt by attempt *)

(** The transport reads the body of the request to its end: the reader
    is left drained. *)
Lemma Do_reader (httpClient : http.Client) (req : http.Request) (w : World)
    (r : Handle) (s : ReaderState) :
  http.ReqBody req = Some r →
  readers w !! r = Some s →
  readers (Do o httpClient req w).2 !! r
  = Some {| pending := []; failure := failure s; closed := closed s |}.
Proof.
  intros Hbody Hr. unfold Do. rewrite Hbody.
  unfold bind at 1. unfold ReadAll. rewrite Hr.
  set (w0 := setReader r _ w).
  assert (readers w0 !! r
          = Some {| pending := []; failure := failure s; closed := closed s |})
    as Hdrained.
  { subst w0. cbn. by rewrite lookup_insert_eq. }
  clearbody w0.
  destruct (failure s) as [e|]; [done|].
  destruct (network o httpClient (length (exchanges w0)) _)
    as [e|status hdr payload broken]; [done|].
  cbn -[fresh]. rewrite lookup_insert_ne; [done|].
  intros Heq. apply (is_fresh (dom (readers w0))). rewrite Heq.
  apply elem_of_dom. eauto.
Qed.

(** One attempt with a payload: whatever reader the attempt before left
    in [requestBody], a new reader is opened over the payload, the
    transport reads it to its end, and what it sends is the payload.
    The attempt asks for a retry as the rule says. *)
Lemma attempt_rebuilds (ctx : context.Context) (method url : string)
    (data : RequestData) (httpClient : http.Client) (payload : list byte)
    (h : http.Header) (vars : Captured) (w : World) :
  newRequestError o method url = None →
  rangeHeaders o (default [] (RequestData.Headers data)) ∅ = inr h →
  ∃ out x w' r,
    makeRequest_attempt o ctx method url data httpClient (Some payload) vars w
    = (out, w')
    ∧ exchanges w' = exchanges w ++ [x]
    ∧ journal w' = journal w
    ∧ wire.body (wire.sent x) = payload
    ∧ readers w !! r = None
    ∧ readers w' !! r
      = Some {| pending := []; failure := None; closed := false |}
    ∧ (∀ again vars', out = Returns (again, vars') →
         requestBody vars' = Some r
         ∧ ∃ rule, RequestData.RetryRule data = Some rule
                   ∧ rule (resp vars') (err vars') = Returns again)
    ∧ (∀ rule, RequestData.RetryRule data = Some rule → answers rule →
         ∃ again vars', out = Returns (again, vars')).
Proof.
  intros Hreq Hhdr. unfold makeRequest_attempt.
  unfold bind at 1. unfold bind at 1. unfold NewReader, ret.
  set (r := fresh (dom (readers w))).
  set (w0 := setReader r {| pending := payload; failure := None;
                            closed := false |} w).
  assert (readers w !! r = None) as Hnew.
  { apply not_elem_of_dom, is_fresh. }
  assert (readers w0 !! r
          = Some {| pending := payload; failure := None; closed := false |})
    as Hr0.
  { subst w0. cbn -[fresh]. by rewrite lookup_insert_eq. }
  assert (exchanges w0 = exchanges w ∧ journal w0 = journal w) as [Hx0 Hj0]
    by done.
  clearbody w0 r.
  unfold NewRequestWithContext. rewrite Hreq. cbn [http.ReqHeader].
  rewrite Hhdr. cbn [http.Method http.URL http.ReqBody].
  set (req := {| http.Method := method; http.URL := url; http.ReqHeader := h;
                 http.ReqBody := Some r |}).
  destruct (Do_spec o httpClient req w0)
    as (resp' & err' & x & w1 & HDo & Hx1 & Hj1 & _ & _ & _ & Hb & Hs).
  pose proof (Do_reader httpClient req w0 r _ eq_refl Hr0) as Hdrained.
  rewrite HDo in Hdrained. cbn [snd pending failure closed] in Hdrained.
  cbn [req http.ReqBody] in Hb. rewrite Hr0 in Hb. cbn [pending] in Hb.
  rewrite (bind_returns _ _ _ _ _ HDo).
  destruct (RequestData.RetryRule data) as [rule|] eqn:Hrule.
  - unfold bind, call, ret.
    destruct (rule resp' err') as [again|msg] eqn:Hagain.
    + eexists _, x, w1, r. split; [reflexivity|].
      rewrite Hx1, Hx0, Hj1, Hj0. split_and!; try done.
      * intros ? ? [= <- <-]. cbn. split; [done|]. by exists rule.
      * eauto.
    + eexists _, x, w1, r. split; [reflexivity|].
      rewrite Hx1, Hx0, Hj1, Hj0. split_and!; try done.
      intros rule' [= <-] Hanswers.
      destruct (Hanswers resp' err') as [b Hb']; [|congruence].
      by apply (settled_defined _ _ x w1).
  - eexists _, x, w1, r. split; [reflexivity|].
    rewrite Hx1, Hx0, Hj1, Hj0. split_and!; try done.
Qed.

(** What an attempt answers to the retry engine is what the rule said. *)
Lemma attempt_asks_rule (ctx : context.Context) (method url : string)
    (data : RequestData) (httpClient : http.Client) (bytesPayload : bytes)
    (h : http.Header) (vars : Captured) (w : World) :
  newRequestError o method url = None →
  rangeHeaders o (default [] (RequestData.Headers data)) ∅ = inr h →
  ∀ again vars' w',
    makeRequest_attempt o ctx method url data httpClient bytesPayload vars w
    = (Returns (again, vars'), w') →
    ∃ rule, RequestData.RetryRule data = Some rule
            ∧ rule (resp vars') (err vars') = Returns again.
Proof.
  intros Hreq Hhdr again vars' w'. unfold makeRequest_attempt.
  destruct (rebuild_spec bytesPayload vars w) as (rb & w0 & Hrb & _).
  rewrite (bind_returns _ _ _ _ _ Hrb).
  unfold NewRequestWithContext. rewrite Hreq. cbn [http.ReqHeader].
  rewrite Hhdr. cbn [http.Method http.URL http.ReqBody].
  destruct (Do_spec o httpClient
              {| http.Method := method; http.URL := url; http.ReqHeader := h;
                 http.ReqBody := rb |} w0)
    as (resp' & err' & x & w1 & HDo & _).
  rewrite (bind_returns _ _ _ _ _ HDo).
  destruct (RequestData.RetryRule data) as [rule|]; [|done].
  unfold bind, call, ret. destruct (rule resp' err') as [b|msg] eqn:Hb; [|done].
  intros [= <- <- <-]. by exists rule.
Qed.

Lemma attempts_retry (d : Duration) (events : list RetryEvent) :
  attempts (Attempt :: Sleep d :: events) = S (attempts events).
Proof. reflexivity. Qed.

(** The retry engine around attempts that call the transport once each:
    as many calls as attempts, and all the attempts allowed when every
    attempt asks for another and the token is not cancelled. *)
Lemma retryLoop_counts {F : Type} (ctx : context.Context) (maxDelay : Duration)
    (attempt : F → M (bool * F)) (inv : F → Prop)
    (P : wire.Exchange → Prop) (total always : Prop) :
  (∀ vars w, inv vars →
     ∃ out x w',
       attempt vars w = (out, w')
       ∧ exchanges w' = exchanges w ++ [x]
       ∧ journal w' = journal w
       ∧ P x
       ∧ (∀ again vars', out = Returns (again, vars') →
            inv vars' ∧ (always → again = true))
       ∧ (total → ∃ again vars', out = Returns (again, vars'))) →
  ∀ remaining n delay vars w, inv vars →
  ∃ out calls w',
    retryLoop ctx maxDelay attempt remaining n delay vars w = (out, w')
    ∧ exchanges w' = exchanges w ++ calls
    ∧ journal w' = journal w
    ∧ Forall P calls
    ∧ (1 ≤ length calls ≤ S remaining)%nat
    ∧ (∀ vars' events, out = Returns (vars', events) →
         attempts events = length calls
         ∧ (always → (∀ k, context.Done ctx k = false) →
            length calls = S remaining))
    ∧ (total → ∃ vars' events, out = Returns (vars', events)).
Proof.
  intros Hstep remaining.
  induction remaining as [|r IH]; intros n delay vars w Hinv;
    destruct (Hstep vars w Hinv)
      as (out1 & x1 & w1 & H1 & Hx & Hj & HP & Hret & Htotal);
    cbn [retryLoop]; unfold bind at 1; rewrite H1;
    destruct out1 as [[again v1]|msg].
  - exists (Returns (v1, [Attempt])), [x1], w1.
    split_and!; try done.
    + by apply Forall_singleton.
    + by intros ? ? [= <- <-].
    + eauto.
  - exists (Panics msg), [x1], w1. split_and!; try done.
    + by apply Forall_singleton.
    + intros Ht. destruct (Htotal Ht) as (? & ? & ?). done.
  - destruct (Hret again v1 eq_refl) as [Hinv1 Halways].
    destruct again; cbn [negb].
    + destruct (context.Done ctx n) eqn:Hdone.
      * exists (Returns (v1, [Attempt; Cancelled])), [x1], w1.
        split_and!; try done.
        -- by apply Forall_singleton.
        -- cbn [length]. lia.
        -- intros ? ? [= <- <-]. split; [done|].
           intros _ Hctx. rewrite Hctx in Hdone. done.
        -- eauto.
      * destruct (IH (S n) (2 * delay) v1 w1 Hinv1)
          as (out2 & calls2 & w2 & H2 & Hx2 & Hj2 & HP2 & Hlen & Hret2 & Ht2).
        unfold bind. rewrite H2.
        exists (match out2 with
                | Returns (v2, ev2) =>
                    Returns (v2, Attempt :: Sleep (Z.min delay maxDelay) :: ev2)
                | Panics msg => Panics msg
                end), (x1 :: calls2), w2.
        split_and!.
        -- by destruct out2 as [[v2 ev2]|msg].
        -- rewrite Hx2, Hx. by rewrite <- app_assoc.
        -- congruence.
        -- by apply Forall_cons.
        -- cbn [length]. lia.
        -- cbn [length]. lia.
        -- intros v' ev'. destruct out2 as [[v2 ev2]|msg]; [|done].
           intros [= <- <-]. destruct (Hret2 v2 ev2 eq_refl) as [Hcount Hall].
           rewrite attempts_retry, Hcount. split; [done|].
           intros Ha Hctx. cbn [length]. by rewrite (Hall Ha Hctx).
        -- intros Ht. destruct (Ht2 Ht) as (v2 & ev2 & ->). eauto.
    + exists (Returns (v1, [Attempt])), [x1], w1.
      split_and!; try done.
      * by apply Forall_singleton.
      * cbn [length]. lia.
      * intros ? ? [= <- <-]. split; [done|].
        intros Ha _. by specialize (Halways Ha).
      * eauto.
  - exists (Panics msg), [x1], w1. split_and!; try done.
    + by apply Forall_singleton.
    + cbn [length]. lia.
    + intros Ht. destruct (Htotal Ht) as (? & ? & ?). done.
Qed.

(** C1. For a body that is a [[]byte], a [string] or a value
    [json.Marshal] accepts, in a request that can be built, with valid
    headers and a rule that answers.  Every attempt, whatever reader the
    attempt before left behind, opens a new reader over the canonical
    payload and calls the transport once, and the transport receives the
    bytes of the payload.  So [makeRequest] calls the transport once for
    each attempt of the retry engine, at least once and at most
    [max 1 MaxRetries] times, and every call receives the same bytes;
    when the rule asks for a retry every time and the token is not
    cancelled, there are [max 1 MaxRetries] such calls. *)
Theorem body_rebuilt_each_attempt (c : Client) (ctx : context.Context)
    (method url : string) (data : RequestData) (p : list byte) (w : World) :
  canonicalPayload (RequestData.Body data) = Some p →
  newRequestError o method url = None →
  (∀ k v, (k, HOther v) ∉ default [] (RequestData.Headers data)) →
  ruleAnswers data →
  ∃ bytesPayload,
    makeRequest_body o (SetDefaultsIfNecessary data) w
    = (Returns (inr (bytesPayload, None, SetDefaultsIfNecessary data)), w)
    ∧ default [] bytesPayload = p
    ∧ (∀ vars w0,
         (bytesPayload = None → requestBody vars = None) →
         ∃ out x w',
           makeRequest_attempt o ctx method url (SetDefaultsIfNecessary data)
             {| http.Timeout := timeout c;
                http.TLSClientConfig := RequestData.TLSConfig data |}
             bytesPayload vars w0 = (out, w')
           ∧ exchanges w' = exchanges w0 ++ [x]
           ∧ wire.body (wire.sent x) = p
           ∧ (bytesPayload ≠ None →
              ∃ r, readers w0 !! r = None
                   ∧ readers w' !! r
                     = Some {| pending := []; failure := None; closed := false |}
                   ∧ ∀ again vars', out = Returns (again, vars') →
                       requestBody vars' = Some r))
    ∧ ∃ calls events,
        exchanges (makeRequest o c ctx method url data w).2 = exchanges w ++ calls
        ∧ journal (makeRequest o c ctx method url data w).2 = journal w ++ events
        ∧ length calls = attempts events
        ∧ (1 ≤ length calls
           ≤ Z.to_nat (Z.max 1 (RequestData.MaxRetries (SetDefaultsIfNecessary data))))%nat
        ∧ Forall (λ x, wire.body (wire.sent x) = p) calls
        ∧ ((∀ n, context.Done ctx n = false) →
           ∀ rule, RequestData.RetryRule data = Some rule →
             (∀ resp err, rule resp err = Returns true) →
             length calls
             = Z.to_nat (Z.max 1 (RequestData.MaxRetries (SetDefaultsIfNecessary data)))).
Proof.
  intros Hp Hreq Hvalid Hrule.
  set (d := SetDefaultsIfNecessary data).
  set (hc := {| http.Timeout := timeout c;
                http.TLSClientConfig := RequestData.TLSConfig data |}).
  destruct (makeRequest_body_regenerable o d p w Hp) as (bp & Hbody & Hexp).
  destruct (rangeHeaders_valid o _ Hvalid ∅) as [h Hhdr].
  rewrite <- (defaults_headers data) in Hhdr. fold d in Hhdr.
  destruct (defaults_rule data) as (rule & Hdef & Hanswers). fold d in Hdef.
  specialize (Hanswers Hrule).
  assert (default [] bp = p) as Hpayload.
  { destruct bp; cbn in Hexp; by injection Hexp. }
  (* one attempt *)
  assert (∀ vars w0,
            (bp = None → requestBody vars = None) →
            ∃ out x w',
              makeRequest_attempt o ctx method url d hc bp vars w0 = (out, w')
              ∧ exchanges w' = exchanges w0 ++ [x]
              ∧ journal w' = journal w0
              ∧ wire.body (wire.sent x) = p
              ∧ (bp ≠ None →
                 ∃ r, readers w0 !! r = None
                      ∧ readers w' !! r
                        = Some {| pending := []; failure := None; closed := false |}
                      ∧ ∀ again vars', out = Returns (again, vars') →
                          requestBody vars' = Some r)
              ∧ (∀ again vars', out = Returns (again, vars') →
                   (bp = None → requestBody vars' = None)
                   ∧ rule (resp vars') (err vars') = Returns again)
              ∧ ∃ again vars', out = Returns (again, vars')) as Hattempt.
  { intros vars w0 Hinv. destruct bp as [payload|].
    - destruct (attempt_rebuilds ctx method url d hc payload h vars w0 Hreq Hhdr)
        as (out & x & w' & r & Hat & Hx & Hj & Hb & Hnew & Hdrained & Hret & Htotal).
      exists out, x, w'. cbn in Hpayload. subst payload.
      split_and!; try done.
      + intros _. exists r. split_and!; try done.
        intros again vars' Hout. by destruct (Hret again vars' Hout).
      + intros again vars' Hout.
        destruct (Hret again vars' Hout) as (_ & rule' & Hrule' & Hagain).
        split; [done|]. congruence.
      + by apply (Htotal rule).
    - specialize (Hinv eq_refl). cbn in Hpayload. subst p.
      destruct (attempt_sends o ctx method url d hc None h vars w0 Hreq Hhdr)
        as (out & x & w' & Hat & Hx & Hj & _ & _ & _ & Hb & Hs & Htotal).
      exists out, x, w'. split_and!; try done.
      + apply Hb. by rewrite Hinv.
      + intros again vars' Hout. split.
        * intros _. destruct (Hs again vars' Hout) as [_ Hexp'].
          rewrite Hinv in Hexp'. cbn in Hexp'.
          by destruct (requestBody vars').
        * subst out.
          destruct (attempt_asks_rule ctx method url d hc None h vars w0
                      Hreq Hhdr again vars' w' Hat) as (rule' & Hrule' & Hagain).
          congruence.
      + by apply (Htotal rule). }
  exists bp. split; [done|]. split; [done|]. split.
  { intros vars w0 Hinv.
    destruct (Hattempt vars w0 Hinv) as (out & x & w' & ? & ? & ? & ? & ? & _).
    by exists out, x, w'. }
  (* the run *)
  destruct (retryLoop_counts ctx (RequestData.MaxRetryDelay d)
              (makeRequest_attempt o ctx method url d hc bp)
              (λ v, bp = None → requestBody v = None)
              (λ x, wire.body (wire.sent x) = p)
              True
              (∀ resp err, rule resp err = Returns true))
    with (remaining := Z.to_nat (RequestData.MaxRetries d - 1)) (n := O)
         (delay := RequestData.BaseRetryDelay d)
         (vars := {| requestBody := None; resp := None; err := None |}) (w := w)
    as (out & calls & w2 & Hloop & Hx2 & Hj2 & Hall & Hlen & Hret & Htotal).
  { intros vars w0 Hinv.
    destruct (Hattempt vars w0 Hinv)
      as (out & x & w' & Hat & Hx & Hj & Hb & _ & Hret & Hsome).
    exists out, x, w'. split_and!; try done.
    intros again vars' Hout. destruct (Hret again vars' Hout) as [Hinv' Hagain].
    split; [done|]. intros Halways. rewrite Halways in Hagain. by injection Hagain. }
  { done. }
  destruct (Htotal I) as (vars & events & ->).
  destruct (Hret vars events eq_refl) as [Hcount Hfull].
  assert (makeRequest o c ctx method url data w
          = makeRequest_result method url d vars
              {| readers := readers w2; exchanges := exchanges w2;
                 journal := journal w2 ++ events |}) as Hrun.
  { unfold makeRequest. fold d. rewrite (bind_returns _ _ _ _ _ Hbody).
    unfold Retry. fold hc. by rewrite (bind_returns _ _ _ _ _ Hloop). }
  exists calls, events. rewrite Hrun.
  destruct (makeRequest_result_frame method url d vars
              {| readers := readers w2; exchanges := exchanges w2;
                 journal := journal w2 ++ events |}) as [-> ->].
  cbn [exchanges journal]. rewrite Hx2, Hj2. split_and!; try done.
  - lia.
  - lia.
  - intros Hctx rule' Hdata Halways.
    assert (rule = rule') as <-.
    { subst d. cbn in Hdef. rewrite Hdata in Hdef. by injection Hdef. }
    rewrite (Hfull Halways Hctx). lia.
Qed.

End Rebuild.

(** * Further checks on inputs *)

Lemma multierr_text_witness :
  Contains (Error (multierr [plain "no route"; multierr [plain "timeout"]]))
           (Error (multierr [plain "timeout"])) = true.
Proof.
  apply (multierr_text [plain "no route"; multierr [plain "timeout"]]
           (multierr [plain "timeout"])).
  apply list_elem_of_In. right. left. reflexivity.
Defined.

Lemma verbs_send_their_method_witness :
  ∃ calls,
    exchanges (Put (echo 200) plainClient context.Background "http://example.com"
                 (request BodyNil None 0 false) emptyWorld).2
    = exchanges emptyWorld ++ calls
    ∧ Forall (λ x, wire.method (wire.sent x) = "PUT"
                   ∧ wire.url (wire.sent x) = "http://example.com") calls.
Proof.
  apply (verbs_send_their_method (echo 200) plainClient context.Background
           "http://example.com" (request BodyNil None 0 false) emptyWorld
           eq_refl (Put (echo 200)) "PUT").
  apply list_elem_of_In. right. right. left. reflexivity.
Defined.

(** A server that cannot be reached, with the default of one attempt. *)
Lemma transport_failure_returned_witness :
  (makeRequest offline plainClient context.Background "GET" "http://example.com"
     (request BodyNil None 0 false) emptyWorld).1
  = Returns (Response.zero, Some "connection refused").
Proof.
  apply (transport_failure_returned offline plainClient context.Background "GET"
           "http://example.com" (request BodyNil None 0 false) emptyWorld []
           (theLast (makeRequest offline plainClient context.Background "GET"
                       "http://example.com" (request BodyNil None 0 false)
                       emptyWorld).2)
           "connection refused").
  - intros rule Hrule. discriminate Hrule.
  - by vm_compute.
  - by vm_compute.
Defined.

Lemma success_has_no_error_witness :
  ∃ bodyReader,
    (makeRequest (echo 200) plainClient context.Background "POST"
       "http://example.com" (request (BodyString "Hello, client") None 0 false)
       emptyWorld).1
    = Returns ({| Response.ReadCloser := Some bodyReader;
                  Response.Body := Some hello;
                  Response.Header := Some ∅;
                  Response.StatusCode := 200 |}, None).
Proof.
  apply (success_has_no_error (echo 200) plainClient context.Background "POST"
           "http://example.com" (request (BodyString "Hello, client") None 0 false)
           emptyWorld []
           (theLast (makeRequest (echo 200) plainClient context.Background "POST"
                       "http://example.com"
                       (request (BodyString "Hello, client") None 0 false)
                       emptyWorld).2)
           200 ∅ hello).
  - intros rule Hrule. discriminate Hrule.
  - by vm_compute.
  - by vm_compute.
  - lia.
Defined.

Lemma broken_body_error_witness :
  ∃ bodyReader,
    (makeRequest truncated plainClient context.Background "GET"
       "http://example.com" (request BodyNil None 0 false) emptyWorld).1
    = Returns ({| Response.ReadCloser := Some bodyReader;
                  Response.Body := Some hello;
                  Response.Header := Some ∅;
                  Response.StatusCode := 200 |}, Some "unexpected EOF").
Proof.
  apply (broken_body_error truncated plainClient context.Background "GET"
           "http://example.com" (request BodyNil None 0 false) emptyWorld []
           (theLast (makeRequest truncated plainClient context.Background "GET"
                       "http://example.com" (request BodyNil None 0 false)
                       emptyWorld).2)
           200 ∅ hello "unexpected EOF").
  - intros rule Hrule. discriminate Hrule.
  - by vm_compute.
  - by vm_compute.
  - left. reflexivity.
Defined.

Lemma embedded_reader_gives_payload_witness :
  ∃ response err reader,
    (makeRequest (echo 200) plainClient context.Background "POST"
       "http://example.com" (request (BodyString "Hello, client") None 0 true)
       emptyWorld).1 = Returns (response, err)
    ∧ Response.ReadCloser response = Some reader
    ∧ (ReadAll reader
         (makeRequest (echo 200) plainClient context.Background "POST"
            "http://example.com" (request (BodyString "Hello, client") None 0 true)
            emptyWorld).2).1
      = Returns (hello, if true && isStatusSuccess 200 then None else None).
Proof.
  apply (embedded_reader_gives_payload (echo 200) plainClient context.Background
           "POST" "http://example.com"
           (request (BodyString "Hello, client") None 0 true) emptyWorld []
           (theLast (makeRequest (echo 200) plainClient context.Background "POST"
                       "http://example.com"
                       (request (BodyString "Hello, client") None 0 true)
                       emptyWorld).2)
           200 ∅ hello None).
  - intros rule Hrule. discriminate Hrule.
  - by vm_compute.
  - by vm_compute.
Defined.
Lemma nil_error_means_success_witness :
  ∃ response err,
    (makeRequest flaky plainClient context.Background "POST" "http://example.com"
       (request (BodyBytes (Some hello)) None 2 false) emptyWorld).1
    = Returns (response, err)
    ∧ (err = None →
       200 ≤ Response.StatusCode response ≤ 299
       ∧ Response.ReadCloser response ≠ None
       ∧ (RequestData.Stream (request (BodyBytes (Some hello)) None 2 false) = false →
          Response.Body response ≠ None)).
Proof.
  apply (nil_error_means_success flaky plainClient context.Background "POST"
           "http://example.com" (request (BodyBytes (Some hello)) None 2 false)
           emptyWorld).
  intros rule Hrule. discriminate Hrule.
Defined.

(** A channel as body: [json.Marshal] refuses it. *)
Lemma encoding_error_before_any_call_witness :
  makeRequest flaky plainClient context.Background "POST" "http://example.com"
    (request (BodyOther aChannel) None 3 false) emptyWorld
  = (Returns (Response.zero, Some "json: unsupported type: chan int"), emptyWorld).
Proof.
  apply (proj1 (encoding_error_before_any_call flaky plainClient
                  context.Background "POST" "http://example.com"
                  (request (BodyOther aChannel) None 3 false) emptyWorld)
           aChannel "json: unsupported type: chan int").
  - reflexivity.
  - reflexivity.
Defined.

(** The 502 that is retried over: its body is still open after the
    call, nothing of it read. *)
Lemma retried_responses_left_open_witness :
  Forall (λ y, ∀ status hdr payload broken,
            wire.reply y = wire.Answered status hdr payload broken →
            ∃ k, wire.stream y = Some k
                 ∧ readers (makeRequest flaky plainClient context.Background
                              "POST" "http://example.com"
                              (request (BodyBytes (Some hello)) None 2 false)
                              emptyWorld).2 !! k
                   = Some {| pending := payload; failure := broken;
                             closed := false |})
         (take 1 (exchanges (makeRequest flaky plainClient context.Background
                               "POST" "http://example.com"
                               (request (BodyBytes (Some hello)) None 2 false)
                               emptyWorld).2)).
Proof.
  apply (retried_responses_left_open flaky plainClient context.Background "POST"
           "http://example.com" (request (BodyBytes (Some hello)) None 2 false)
           emptyWorld
           (take 1 (exchanges (makeRequest flaky plainClient context.Background
                                 "POST" "http://example.com"
                                 (request (BodyBytes (Some hello)) None 2 false)
                                 emptyWorld).2))
           (theLast (makeRequest flaky plainClient context.Background "POST"
                       "http://example.com"
                       (request (BodyBytes (Some hello)) None 2 false)
                       emptyWorld).2)).
  by vm_compute.
Defined.

Example retried_502_left_open :
  let run := makeRequest flaky plainClient context.Background "POST"
               "http://example.com"
               (request (BodyBytes (Some hello)) None 2 false) emptyWorld in
  (wire.stream <$> exchanges run.2) = [Some 1%nat; Some 3%nat]
  ∧ readers run.2 !! 1%nat
    = Some {| pending := hello; failure := None; closed := false |}
  ∧ readers run.2 !! 3%nat
    = Some {| pending := []; failure := None; closed := true |}.
Proof. cbv zeta. split_and!; by vm_compute. Qed.

Lemma reader_body_sent_once_witness :
  ∃ x,
    exchanges (makeRequest (echo 200) plainClient context.Background "POST"
                 "http://example.com" (request (BodyReader 7%nat) None 0 false)
                 oneReader).2 = exchanges oneReader ++ [x]
    ∧ wire.method (wire.sent x) = "POST"
    ∧ wire.url (wire.sent x) = "http://example.com"
    ∧ wire.body (wire.sent x)
      = match readers oneReader !! 7%nat with
        | Some s => pending s
        | None => []
        end.
Proof.
  apply (reader_body_sent_once (echo 200) plainClient context.Background "POST"
           "http://example.com" (request (BodyReader 7%nat) None 0 false)
           oneReader 7%nat).
  - reflexivity.
  - cbn. lia.
  - reflexivity.
  - intros k v Hin. by apply elem_of_nil in Hin.
Defined.

Lemma multipart_body_sent_witness :
  ∃ x,
    exchanges (makeRequest uploads plainClient context.Background "POST"
                 "http://example.com"
                 (request (BodyReaders [("file", 7%nat)]) None 0 false)
                 oneReader).2 = exchanges oneReader ++ [x]
    ∧ wire.body (wire.sent x)
      = match (newMultipartStream uploads [("file", 7%nat)]
                 (readers oneReader)).2 !! 8%nat with
        | Some s => pending s
        | None => []
        end
    ∧ wire.header (wire.sent x) !! CanonicalMIMEHeaderKey uploads "Content-Type"
      = Some ["multipart/form-data; boundary=b"].
Proof.
  apply (multipart_body_sent uploads plainClient context.Background "POST"
           "http://example.com"
           (request (BodyReaders [("file", 7%nat)]) None 0 false) oneReader
           [("file", 7%nat)] 8%nat "multipart/form-data; boundary=b"
           (newMultipartStream uploads [("file", 7%nat)] (readers oneReader)).2).
  - reflexivity.
  - cbn. lia.
  - by vm_compute.
  - reflexivity.
  - intros k v Hin. apply list_elem_of_singleton in Hin. discriminate Hin.
  - apply NoDup_singleton.
Defined.

(** The form that goes out holds the bytes of the part. *)
Example multipart_upload :
  let run := makeRequest uploads plainClient context.Background "POST"
               "http://example.com"
               (request (BodyReaders [("file", 7%nat)]) None 0 false) oneReader in
  (wire.body ∘ wire.sent <$> exchanges run.2) = [hello]
  ∧ (wire.header ∘ wire.sent <$> exchanges run.2)
    = [{[ "Content-Type" := ["multipart/form-data; boundary=b"] ]}].
Proof. cbv zeta. split; by vm_compute. Qed.

(** A [string] under [accept] goes out under [Accept]; a [[]string]
    under [x-tags] goes out under [x-tags]. *)
Lemma request_headers_sent_witness :
  ∃ calls,
    exchanges (makeRequest (echo 200) plainClient context.Background "GET"
                 "http://example.com" (request BodyNil someHeaders 0 false)
                 emptyWorld).2 = exchanges emptyWorld ++ calls
    ∧ Forall (λ x, wire.header (wire.sent x) !! "Accept" = Some ["text/plain"]
                   ∧ wire.header (wire.sent x) !! "x-tags" = Some ["a"; "b"]
                   ∧ wire.header (wire.sent x) !! "accept" = None
                   ∧ wire.header (wire.sent x) !! "X-Tags" = None) calls.
Proof.
  destruct (request_headers_sent (echo 200) plainClient context.Background "GET"
              "http://example.com" (request BodyNil someHeaders 0 false)
              emptyWorld)
    as (h & _ & Hstring & Hstrings & Habsent & calls & Hcalls & Hall).
  - intros parts Hbody. discriminate Hbody.
  - intros k v Hin. apply elem_of_cons in Hin as [Hin|Hin]; [discriminate Hin|].
    apply list_elem_of_singleton in Hin. discriminate Hin.
  - apply (bool_decide_unpack _). by vm_compute.
  - exists calls. split; [exact Hcalls|].
    eapply Forall_impl; [exact Hall|]. intros x ->.
    split; [|split; [|split]].
    + apply (Hstring "accept" "text/plain"). apply elem_of_cons. by left.
    + apply (Hstrings "x-tags" ["a"; "b"]). apply elem_of_cons. right.
      by apply list_elem_of_singleton.
    + apply Habsent. apply (bool_decide_unpack _). by vm_compute.
    + apply Habsent. apply (bool_decide_unpack _). by vm_compute.
Defined.

Example headers_on_the_wire :
  (wire.header ∘ wire.sent
     <$> exchanges (makeRequest (echo 200) plainClient context.Background "GET"
                      "http://example.com" (request BodyNil someHeaders 0 false)
                      emptyWorld).2)
  = [ {[ "Accept" := ["text/plain"]; "x-tags" := ["a"; "b"] ]} ].
Proof. by vm_compute. Qed.

(** A url that cannot be parsed, with [MaxRetries: 3]: three attempts
    and two sleeps, and no call of the transport. *)
Lemma unbuildable_request_retried_witness :
  ∃ w',
    makeRequest flaky plainClient context.Background "GET" ":"
      (request BodyNil None 3 false) emptyWorld
    = (Returns (Response.zero,
                Some ("parse " +:+ quote ":" +:+ ": missing protocol scheme")), w')
    ∧ exchanges w' = exchanges emptyWorld
    ∧ journal w'
      = journal emptyWorld
        ++ backoffSchedule
             (RequestData.BaseRetryDelay
                (SetDefaultsIfNecessary (request BodyNil None 3 false)))
             (RequestData.MaxRetryDelay
                (SetDefaultsIfNecessary (request BodyNil None 3 false)))
             (Z.to_nat (Z.max 1 (RequestData.MaxRetries
                                   (SetDefaultsIfNecessary
                                      (request BodyNil None 3 false))))).
Proof.
  apply (unbuildable_request_retried flaky plainClient context.Background "GET"
           ":" (request BodyNil None 3 false) emptyWorld
           ("parse " +:+ quote ":" +:+ ": missing protocol scheme") None None
           (SetDefaultsIfNecessary (request BodyNil None 3 false)) emptyWorld).
  - reflexivity.
  - reflexivity.
  - intros n. reflexivity.
Defined.

Example unparsable_url_journal :
  journal (makeRequest flaky plainClient context.Background "GET" ":"
             (request BodyNil None 3 false) emptyWorld).2
  = [Attempt; Sleep (300 * Millisecond); Attempt; Sleep (600 * Millisecond);
     Attempt].
Proof. by vm_compute. Qed.

Lemma nothing_sent_is_an_error_witness :
  ∃ e, (makeRequest flaky plainClient context.Background "POST"
          "http://example.com" (request BodyNil fakeHeaders 0 false) emptyWorld).1
       = Returns (Response.zero, Some e).
Proof.
  apply (nothing_sent_is_an_error flaky plainClient context.Background "POST"
           "http://example.com" (request BodyNil fakeHeaders 0 false) emptyWorld).
  by vm_compute.
Defined.

(** A server that answers 502, then 200, then nothing, and a rule that
    insists: three attempts, three calls, the same bytes each time. *)
Lemma body_rebuilt_each_attempt_witness :
  ∃ calls events,
    exchanges (makeRequest flaky plainClient context.Background "POST"
                 "http://example.com" (insisting (BodyString "Hello, client") 3)
                 emptyWorld).2 = exchanges emptyWorld ++ calls
    ∧ journal (makeRequest flaky plainClient context.Background "POST"
                 "http://example.com" (insisting (BodyString "Hello, client") 3)
                 emptyWorld).2 = journal emptyWorld ++ events
    ∧ length calls = attempts events
    ∧ length calls = 3%nat
    ∧ Forall (λ x, wire.body (wire.sent x) = hello) calls.
Proof.
  destruct (body_rebuilt_each_attempt flaky plainClient context.Background "POST"
              "http://example.com" (insisting (BodyString "Hello, client") 3)
              hello emptyWorld)
    as (bytesPayload & _ & _ & _ & calls & events
        & Hcalls & Hjournal & Hcount & _ & Hall & Hfull).
  - reflexivity.
  - reflexivity.
  - intros k v Hin. by apply elem_of_nil in Hin.
  - intros rule Hrule resp err _. injection Hrule as <-. by exists true.
  - exists calls, events. split; [exact Hcalls|]. split; [exact Hjournal|].
    split; [exact Hcount|]. split; [|exact Hall].
    exact (Hfull (λ _, eq_refl) insist eq_refl (λ _ _, eq_refl)).
Defined.

Example three_attempts_same_bytes :
  let run := makeRequest flaky plainClient context.Background "POST"
               "http://example.com" (insisting (BodyString "Hello, client") 3)
               emptyWorld in
  (wire.body ∘ wire.sent <$> exchanges run.2) = [hello; hello; hello]
  ∧ journal run.2 = [Attempt; Sleep (300 * Millisecond); Attempt;
                     Sleep (600 * Millisecond); Attempt]
  ∧ run.1 = Returns (Response.zero, Some "connection refused").
Proof. cbv zeta. split_and!; by vm_compute. Qed.
